(** * Address book (main.py): a shallow embedding and its properties

    The Python program keeps contacts (name, phones, birthday) in an
    insertion-ordered dictionary and answers an "upcoming birthdays" query.
    This file embeds the data model (Field, Name, Phone, Birthday, Record,
    AddressBook), the parts of the Python library the code calls
    (str.isdigit, str.split, datetime.strptime / strftime / replace, date
    arithmetic), the command handlers with their [input_error] decorator,
    [parse_input] and the loop of [main].  Reading and writing the pickle
    file ([load_data], [save_data]) is outside the model: a run starts from
    a given book and ends with the book that would be saved.

    Conventions
    - a Python [str] is a list of Unicode code points ([N]);
    - Python integers are [Z];
    - an expression that may raise is a [result]; a method that mutates
      [self] returns the new object, and returns [Raise] with the object
      untouched (every raising expression of the modelled methods is
      evaluated before the assignment it feeds);
    - [date.today()] is an explicit argument [today];
    - the specification's InvalidFormat is the [ValueError] the field
      constructors raise;
    - [Record] is a keyword of Rocq, so the class lives in [Record_]. *)

From Stdlib Require Import ZArith NArith List String Ascii Lia Bool.
From Stdlib Require Import DecimalString.
From stdpp Require Import base decidable option list.

Local Open Scope Z_scope.

(* ===================================================================== *)
(** * 1. Python strings                                                   *)
(* ===================================================================== *)

Definition str := list N.

(** A literal of the source, character by character. *)
Fixpoint lit (s : string) : str :=
  match s with
  | EmptyString => []
  | String a s' => N_of_ascii a :: lit s'
  end.
Arguments lit _%_string.

(** [str(n)] for an integer [n]. *)
Definition str_of_int (n : Z) : str := lit (NilZero.string_of_int (Z.to_int n)).

(** [ord('0')], [ord('.')], [ord(' ')], [ord('%')]. *)
Definition ord_0 : N := 48.
Definition ord_dot : N := 46.
Definition ord_space : N := 32.
Definition ord_percent : N := 37.

(** [lo <= c <= hi] on code points. *)
Definition in_range (lo hi c : N) : bool := ((lo <=? c) && (c <=? hi))%N.

(** ** Unicode digit tables (Unicode Character Database 14.0.0, the one
       CPython 3.11 ships).

    [decimal_blocks]: the code points of general category Nd
    (Numeric_Type=Decimal), as (first code point, length); inside a block the
    decimal value of [c] is [(c - first) mod 10].
    [digit_only_ranges]: the code points with Numeric_Type=Digit that are not
    decimal (superscripts, circled digits, ...), as inclusive ranges. *)
Definition decimal_blocks : list (N * N) :=
  [(48, 10); (1632, 10); (1776, 10); (1984, 10); (2406, 10); (2534, 10);
   (2662, 10); (2790, 10); (2918, 10); (3046, 10); (3174, 10); (3302, 10);
   (3430, 10); (3558, 10); (3664, 10); (3792, 10); (3872, 10); (4160, 10);
   (4240, 10); (6112, 10); (6160, 10); (6470, 10); (6608, 10); (6784, 10);
   (6800, 10); (6992, 10); (7088, 10); (7232, 10); (7248, 10); (42528, 10);
   (43216, 10); (43264, 10); (43472, 10); (43504, 10); (43600, 10);
   (44016, 10); (65296, 10); (66720, 10); (68912, 10); (69734, 10);
   (69872, 10); (69942, 10); (70096, 10); (70384, 10); (70736, 10);
   (70864, 10); (71248, 10); (71360, 10); (71472, 10); (71904, 10);
   (72016, 10); (72784, 10); (73040, 10); (73120, 10); (92768, 10);
   (92864, 10); (93008, 10); (120782, 50); (123200, 10); (123632, 10);
   (125264, 10); (130032, 10)]%N.

Definition digit_only_ranges : list (N * N) :=
  [(178, 179); (185, 185); (4969, 4977); (6618, 6618); (8304, 8304);
   (8308, 8313); (8320, 8329); (9312, 9320); (9332, 9340); (9352, 9360);
   (9450, 9450); (9461, 9469); (9471, 9471); (10102, 10110); (10112, 10120);
   (10122, 10130); (68160, 68163); (69216, 69224); (69714, 69722);
   (127232, 127242)]%N.

Fixpoint decimal_lookup (blocks : list (N * N)) (c : N) : option N :=
  match blocks with
  | [] => None
  | (first, len) :: blocks' =>
      if ((first <=? c) && (c <? first + len))%N
      then Some ((c - first) mod 10)%N
      else decimal_lookup blocks' c
  end.

(** [unicodedata.decimal(c)], [None] when [c] has no decimal value. *)
Definition decimal (c : N) : option N := decimal_lookup decimal_blocks c.

(** [c.isdecimal()]; also what [\d] matches in a [str] pattern. *)
Definition isdecimal_char (c : N) : bool :=
  match decimal c with Some _ => true | None => false end.

(** [c.isdigit()]: Numeric_Type is Digit or Decimal. *)
Definition isdigit_char (c : N) : bool :=
  isdecimal_char c
  || existsb (fun r => in_range (fst r) (snd r) c) digit_only_ranges.

(** [s.isdigit()]: every character is a digit and there is at least one. *)
Definition isdigit (s : str) : bool :=
  match s with
  | [] => false
  | _ => forallb isdigit_char s
  end.

(** The ASCII decimal digits ['0'..'9']. *)
Definition is_ascii_digit (c : N) : bool := in_range 48 57 c.

(* ===================================================================== *)
(** * 2. Exceptions                                                       *)
(* ===================================================================== *)

Inductive exn : Type :=
| ValueError (msg : str)
| KeyError
| IndexError
| AttributeError (msg : str).

Inductive result (A : Type) : Type :=
| Ok (a : A)
| Raise (e : exn).
Arguments Ok {A} a.
Arguments Raise {A} e.

Definition bind {A B} (c : result A) (k : A -> result B) : result B :=
  match c with
  | Ok a => k a
  | Raise e => Raise e
  end.

Declare Scope result_scope.
Delimit Scope result_scope with result.
Notation "'let!' x ':=' c 'in' k" := (bind c (fun x => k))
  (at level 10, x name, c at level 200, k at level 200) : result_scope.
Local Open Scope result_scope.

(** [try: body  except ValueError: handler]. *)
Definition except_ValueError {A} (body : result A) (handler : str -> result A)
  : result A :=
  match body with
  | Raise (ValueError msg) => handler msg
  | r => r
  end.

Definition is_ok {A} (r : result A) : bool :=
  match r with Ok _ => true | Raise _ => false end.

(* ===================================================================== *)
(** * 3. The [re] fragment used by [_strptime]                            *)
(* ===================================================================== *)

(** The patterns [_strptime.TimeRE] builds for [%d], [%m] and [%Y] use only
    literals, ASCII character ranges, [\d], concatenation, alternation and
    named groups.  (They are compiled with IGNORECASE, which changes nothing
    for digits, the dot and the space.) *)
Inductive regex : Type :=
| REmpty
| RChar (c : N)
| RRange (lo hi : N)
| RDigit
| RSeq (r1 r2 : regex)
| RAlt (r1 r2 : regex)
| RGroup (name : string) (r : regex).

(** [groupdict()]: most recently closed group first. *)
Definition groupdict := list (string * str).

(** One way of matching: the text consumed, the rest of the input, and the
    groups captured so far. *)
Definition mstate : Type := str * str * groupdict.

(** All the ways [r] matches a prefix of [s], in the order the backtracking
    matcher tries them (left alternative first). *)
Fixpoint rmatch (r : regex) (s : str) (g : groupdict) : list mstate :=
  match r with
  | REmpty => [([], s, g)]
  | RChar c =>
      match s with
      | x :: s' => if (x =? c)%N then [([x], s', g)] else []
      | [] => []
      end
  | RRange lo hi =>
      match s with
      | x :: s' => if in_range lo hi x then [([x], s', g)] else []
      | [] => []
      end
  | RDigit =>
      match s with
      | x :: s' => if isdecimal_char x then [([x], s', g)] else []
      | [] => []
      end
  | RSeq r1 r2 =>
      flat_map
        (fun m1 : mstate =>
           let '(t1, s1, g1) := m1 in
           map (fun m2 : mstate =>
                  let '(t2, s2, g2) := m2 in (t1 ++ t2, s2, g2))
               (rmatch r2 s1 g1))
        (rmatch r1 s g)
  | RAlt r1 r2 => rmatch r1 s g ++ rmatch r2 s g
  | RGroup name r' =>
      map (fun m : mstate => let '(t, s', g') := m in (t, s', (name, t) :: g'))
          (rmatch r' s g)
  end.

(** [pattern.match(s)]: the first way, if any. *)
Definition re_match (r : regex) (s : str) : option mstate :=
  head (rmatch r s []).

Definition digit_char (d : N) : N := (ord_0 + d)%N.

(** ** [_strptime.TimeRE] *)

(** ['d': r"(?P<d>3[0-1]|[1-2]\d|0[1-9]|[1-9]| [1-9])"] *)
Definition TimeRE_d : regex :=
  RGroup "d"
    (RAlt (RSeq (RChar (digit_char 3)) (RRange (digit_char 0) (digit_char 1)))
    (RAlt (RSeq (RRange (digit_char 1) (digit_char 2)) RDigit)
    (RAlt (RSeq (RChar (digit_char 0)) (RRange (digit_char 1) (digit_char 9)))
    (RAlt (RRange (digit_char 1) (digit_char 9))
          (RSeq (RChar ord_space) (RRange (digit_char 1) (digit_char 9))))))).

(** ['m': r"(?P<m>1[0-2]|0[1-9]|[1-9])"] *)
Definition TimeRE_m : regex :=
  RGroup "m"
    (RAlt (RSeq (RChar (digit_char 1)) (RRange (digit_char 0) (digit_char 2)))
    (RAlt (RSeq (RChar (digit_char 0)) (RRange (digit_char 1) (digit_char 9)))
          (RRange (digit_char 1) (digit_char 9)))).

(** ['Y': r"(?P<Y>\d\d\d\d)"] *)
Definition TimeRE_Y : regex :=
  RGroup "Y" (RSeq RDigit (RSeq RDigit (RSeq RDigit RDigit))).

(** [TimeRE.pattern(format)]: a directive becomes its group, any other
    character stands for itself (regex metacharacters are escaped).  Only the
    directives the program uses are modelled; another one is [None]
    (whitespace, which [pattern] turns into [\s+], does not occur in the
    program's format). *)
Fixpoint TimeRE_pattern (format : str) : option regex :=
  match format with
  | [] => Some REmpty
  | c :: format' =>
      if (c =? ord_percent)%N then
        match format' with
        | [] => None
        | k :: format'' =>
            match TimeRE_pattern format'' with
            | None => None
            | Some r =>
                if (k =? 100)%N then Some (RSeq TimeRE_d r)        (* %d *)
                else if (k =? 109)%N then Some (RSeq TimeRE_m r)   (* %m *)
                else if (k =? 89)%N then Some (RSeq TimeRE_Y r)    (* %Y *)
                else None
            end
        end
      else
        match TimeRE_pattern format' with
        | None => None
        | Some r => Some (RSeq (RChar c) r)
        end
  end.

(** The pattern of the program's format, [%d.%m.%Y]. *)
Definition DMY_regex : regex :=
  RSeq TimeRE_d (RSeq (RChar ord_dot)
    (RSeq TimeRE_m (RSeq (RChar ord_dot) (RSeq TimeRE_Y REmpty)))).

(** The groups a match of [DMY_regex] captures. *)
Definition DMY_groups (D M Y : str) : groupdict :=
  [("Y"%string, Y); ("m"%string, M); ("d"%string, D)].

(* ===================================================================== *)
(** * 4. The [datetime] module                                            *)
(* ===================================================================== *)

(** How the C library behind [strftime] renders [%Y] for a year below 1000:
    zero-padded to four digits (the documented rendering; CPython 3.13 and
    later on every platform, earlier versions on Windows and macOS) or as a
    plain decimal number (glibc before CPython 3.13). *)
Inductive libc_year : Type := YearZeroPadded | YearPlain.

Module datetime.

Definition MINYEAR : Z := 1.
Definition MAXYEAR : Z := 9999.

(** A [date] object; objects are only built by [new], which checks the
    fields. *)
Record date : Type := mk { year : Z; month : Z; day : Z }.

(** [_is_leap(year)]:
    [year % 4 == 0 and (year % 100 != 0 or year % 400 == 0)] *)
Definition _is_leap (year : Z) : bool :=
  (year mod 4 =? 0) && (negb (year mod 100 =? 0) || (year mod 400 =? 0)).

Definition _DAYS_IN_MONTH : list Z :=
  [-1; 31; 28; 31; 30; 31; 30; 31; 31; 30; 31; 30; 31].

Definition _DAYS_BEFORE_MONTH : list Z :=
  [-1; 0; 31; 59; 90; 120; 151; 181; 212; 243; 273; 304; 334].

Definition _days_in_month (year month : Z) : Z :=
  if (month =? 2) && _is_leap year then 29
  else nth (Z.to_nat month) _DAYS_IN_MONTH 0.

Definition _days_before_year (year : Z) : Z :=
  let y := year - 1 in y * 365 + y / 4 - y / 100 + y / 400.

Definition _days_before_month (year month : Z) : Z :=
  nth (Z.to_nat month) _DAYS_BEFORE_MONTH 0
  + (if (month >? 2) && _is_leap year then 1 else 0).

Definition _ymd2ord (year month day : Z) : Z :=
  _days_before_year year + _days_before_month year month + day.

(** [date(year, month, day)], with [_check_date_fields]. *)
Definition new (year month day : Z) : result date :=
  if negb ((MINYEAR <=? year) && (year <=? MAXYEAR)) then
    Raise (ValueError
             (lit "year " ++ str_of_int year ++ lit " is out of range"))
  else if negb ((1 <=? month) && (month <=? 12)) then
    Raise (ValueError (lit "month must be in 1..12"))
  else if negb ((1 <=? day) && (day <=? _days_in_month year month)) then
    Raise (ValueError (lit "day is out of range for month"))
  else Ok (mk year month day).

(** [self.replace(year=y)] *)
Definition replace_year (self : date) (y : Z) : result date :=
  new y (month self) (day self).

Definition toordinal (self : date) : Z :=
  _ymd2ord (year self) (month self) (day self).

(** [a < b]: the (year, month, day) triples compared lexicographically. *)
Definition lt (a b : date) : bool :=
  (year a <? year b)
  || ((year a =? year b)
      && ((month a <? month b)
          || ((month a =? month b) && (day a <? day b)))).

(** [(a - b).days] *)
Definition sub_days (a b : date) : Z := toordinal a - toordinal b.

(** ** [int(text)]

    On the texts the groups of section 3 capture: leading spaces are
    stripped and the rest must be a non-empty run of decimal digits, each
    standing for its Unicode decimal value.  (Signs, underscores and other
    white space, which [int] also accepts, cannot be captured.) *)
Fixpoint lstrip_space (s : str) : str :=
  match s with
  | c :: s' => if (c =? ord_space)%N then lstrip_space s' else s
  | [] => []
  end.

Fixpoint int_digits (acc : Z) (s : str) : option Z :=
  match s with
  | [] => Some acc
  | c :: s' =>
      match decimal c with
      | Some v => int_digits (10 * acc + Z.of_N v) s'
      | None => None
      end
  end.

Definition int (text : str) : result Z :=
  match lstrip_space text with
  | [] => Raise (ValueError (lit "invalid literal for int() with base 10"))
  | digits =>
      match int_digits 0 digits with
      | Some n => Ok n
      | None => Raise (ValueError (lit "invalid literal for int() with base 10"))
      end
  end.

(** ** [_strptime._strptime], for the directives [%d], [%m], [%Y]

    [for group_key in found_dict.keys(): ...], starting from
    [year = None] (1900 when still unset), [month = day = 1]. *)
Fixpoint convert (found_dict : groupdict) (ymd : Z * Z * Z)
  : result (Z * Z * Z) :=
  match found_dict with
  | [] => Ok ymd
  | (group_key, text) :: found_dict' =>
      let '(year, month, day) := ymd in
      if String.eqb group_key "Y" then
        let! y := int text in convert found_dict' (y, month, day)
      else if String.eqb group_key "m" then
        let! m := int text in convert found_dict' (year, m, day)
      else if String.eqb group_key "d" then
        let! d := int text in convert found_dict' (year, month, d)
      else convert found_dict' ymd
  end.

(** The messages of [_strptime] quote the data; the caller in this program
    discards them, so they are abbreviated. *)
Definition _strptime (data_string format : str) : result (Z * Z * Z) :=
  match TimeRE_pattern format with
  | None => Raise (ValueError (lit "bad directive in format"))
  | Some format_regex =>
      match re_match format_regex data_string with
      | None => Raise (ValueError (lit "time data does not match format"))
      | Some (found, _, found_dict) =>
          if negb (length data_string =? length found)%nat then
            Raise (ValueError (lit "unconverted data remains"))
          else
            let! ymd := convert found_dict (1900, 1, 1) in
            let '(year, month, day) := ymd in
            (* julian = datetime_date(year, month, day).toordinal() - ... *)
            let! checked := new year month day in
            Ok ymd
      end
  end.

(** [datetime.strptime(data_string, format).date()] *)
Definition strptime_date (data_string format : str) : result date :=
  let! ymd := _strptime data_string format in
  let '(year, month, day) := ymd in
  new year month day.

(** ** [strftime] *)

Definition zdigit (n : Z) : N := digit_char (Z.to_N (n mod 10)).

(** [%d], [%m]: two digits, zero-padded. *)
Definition pad2 (n : Z) : str := [zdigit (n / 10); zdigit n].

Definition pad4 (n : Z) : str :=
  [zdigit (n / 1000); zdigit (n / 100); zdigit (n / 10); zdigit n].

(** A year in [MINYEAR..MAXYEAR] as a plain decimal number. *)
Definition plain_year (n : Z) : str :=
  if n <? 10 then [zdigit n]
  else if n <? 100 then [zdigit (n / 10); zdigit n]
  else if n <? 1000 then [zdigit (n / 100); zdigit (n / 10); zdigit n]
  else pad4 n.

Definition format_Y (libc : libc_year) (n : Z) : str :=
  match libc with
  | YearZeroPadded => pad4 n
  | YearPlain => plain_year n
  end.

(** [self.strftime(format)] for the directives [%d], [%m], [%Y]; any other
    character of the format is copied. *)
Fixpoint strftime (libc : libc_year) (self : date) (format : str) : str :=
  match format with
  | [] => []
  | c :: format' =>
      if (c =? ord_percent)%N then
        match format' with
        | [] => [c]
        | k :: format'' =>
            (if (k =? 100)%N then pad2 (day self)
             else if (k =? 109)%N then pad2 (month self)
             else if (k =? 89)%N then format_Y libc (year self)
             else [c; k])
            ++ strftime libc self format''
        end
      else c :: strftime libc self format'
  end.

End datetime.

(* ===================================================================== *)
(** * 5. Fields                                                           *)
(* ===================================================================== *)

(** [class Name(Field)] *)
Module Name.
Record t : Type := mk { value : str }.

(** [if not value: raise ValueError("Name is a mandatory field")] *)
Definition __init__ (value : str) : result t :=
  match value with
  | [] => Raise (ValueError (lit "Name is a mandatory field"))
  | _ => Ok (mk value)
  end.

Definition __str__ (self : t) : str := value self.
End Name.

(** [class Phone(Field)] *)
Module Phone.
Record t : Type := mk { value : str }.

(** [len(phone) == 10 and phone.isdigit()] *)
Definition is_valid (phone : str) : bool :=
  (length phone =? 10)%nat && isdigit phone.

Definition __init__ (value : str) : result t :=
  if negb (is_valid value) then
    Raise (ValueError (lit "Phone number must be 10 digits"))
  else Ok (mk value).

(** [Field.__str__]: [str(self.value)] *)
Definition __str__ (self : t) : str := value self.
End Phone.

(** [class Birthday(Field)] *)
Module Birthday.
Record t : Type := mk { value : datetime.date }.

Definition __init__ (value : str) : result t :=
  except_ValueError
    (let! d := datetime.strptime_date value (lit "%d.%m.%Y") in Ok (mk d))
    (fun _ => Raise (ValueError (lit "Invalid date format. Use DD.MM.YYYY"))).

Definition __str__ (libc : libc_year) (self : t) : str :=
  datetime.strftime libc (value self) (lit "%d.%m.%Y").
End Birthday.

(* ===================================================================== *)
(** * 6. [class Record]                                                   *)
(* ===================================================================== *)

(** [sep.join(parts)] *)
Fixpoint join (sep : str) (parts : list str) : str :=
  match parts with
  | [] => []
  | [x] => x
  | x :: parts' => x ++ sep ++ join sep parts'
  end.

(** [enumerate(l)], counting from [i]. *)
Fixpoint enumerate_from {A} (i : nat) (l : list A) : list (nat * A) :=
  match l with
  | [] => []
  | x :: l' => (i, x) :: enumerate_from (S i) l'
  end.

Module Record_.
Record t : Type := mk {
  name : Name.t;
  phones : list Phone.t;
  birthday : option Birthday.t
}.

Definition set_phones (self : t) (l : list Phone.t) : t :=
  mk (name self) l (birthday self).

Definition set_birthday (self : t) (b : option Birthday.t) : t :=
  mk (name self) (phones self) b.

Definition __init__ (name : str) : result t :=
  let! n := Name.__init__ name in Ok (mk n [] None).

(** [self.phones.append(Phone(phone))] *)
Definition add_phone (self : t) (phone : str) : result t :=
  let! p := Phone.__init__ phone in
  Ok (set_phones self (phones self ++ [p])).

(** [self.phones = [p for p in self.phones if p.value != phone]] *)
Definition remove_phone (self : t) (phone : str) : t :=
  set_phones self (filter (fun p => Phone.value p <> phone) (phones self)).

(** [for i, p in enumerate(self.phones): if p.value == old_phone:
      self.phones[i] = Phone(new_phone); return] *)
Fixpoint edit_phone_loop (self : t) (items : list (nat * Phone.t))
    (old_phone new_phone : str) : result t :=
  match items with
  | [] => Ok self
  | (i, p) :: items' =>
      if decide (Phone.value p = old_phone) then
        let! np := Phone.__init__ new_phone in
        Ok (set_phones self (<[i := np]> (phones self)))
      else edit_phone_loop self items' old_phone new_phone
  end.

Definition edit_phone (self : t) (old_phone new_phone : str) : result t :=
  edit_phone_loop self (enumerate_from 0 (phones self)) old_phone new_phone.

Fixpoint find_phone_loop (l : list Phone.t) (phone : str) : option Phone.t :=
  match l with
  | [] => None
  | p :: l' =>
      if decide (Phone.value p = phone) then Some p
      else find_phone_loop l' phone
  end.

Definition find_phone (self : t) (phone : str) : option Phone.t :=
  find_phone_loop (phones self) phone.

Definition add_birthday (self : t) (birthday : str) : result t :=
  let! b := Birthday.__init__ birthday in Ok (set_birthday self (Some b)).

Definition __str__ (self : t) : str :=
  lit "Contact name: " ++ Name.__str__ (name self) ++ lit ", phones: "
  ++ join (lit ", ") (map Phone.__str__ (phones self)).
End Record_.

(* ===================================================================== *)
(** * 7. [dict] and [class AddressBook(UserDict)]                         *)
(* ===================================================================== *)

(** A Python [dict] keyed by strings: the items in insertion order, each key
    at most once. *)
Module dict.
Section Dict.
Context {V : Type}.

Definition t : Type := list (str * V).

(** [d.get(k)] *)
Fixpoint get (d : t) (k : str) : option V :=
  match d with
  | [] => None
  | (k', v) :: d' => if decide (k' = k) then Some v else get d' k
  end.

(** [k in d] *)
Definition contains (d : t) (k : str) : bool :=
  match get d k with Some _ => true | None => false end.

(** [d[k] = v]: an existing key keeps its place. *)
Fixpoint setitem (d : t) (k : str) (v : V) : t :=
  match d with
  | [] => [(k, v)]
  | (k', v') :: d' =>
      if decide (k' = k) then (k, v) :: d' else (k', v') :: setitem d' k v
  end.

(** [del d[k]]: [KeyError] when [k] is missing. *)
Fixpoint delitem (d : t) (k : str) : result t :=
  match d with
  | [] => Raise KeyError
  | (k', v') :: d' =>
      if decide (k' = k) then Ok d'
      else let! r := delitem d' k in Ok ((k', v') :: r)
  end.

Definition keys (d : t) : list str := map fst d.
Definition values (d : t) : list V := map snd d.
End Dict.
Arguments t : clear implicits.
End dict.

(** One element of the list [get_upcoming_birthdays] returns:
    [{"name": ..., "congratulation_date": ...}]. *)
Record congratulation : Type := mk_congratulation {
  cg_name : str;
  congratulation_date : str
}.

Module AddressBook.
(** [self.data] *)
Definition t : Type := dict.t Record_.t.

Definition add_record (self : t) (record : Record_.t) : t :=
  dict.setitem self (Name.value (Record_.name record)) record.

(** [if name in self.data: del self.data[name]] *)
Definition delete (self : t) (name : str) : result t :=
  if dict.contains self name then dict.delitem self name else Ok self.

Definition find (self : t) (name : str) : option Record_.t :=
  dict.get self name.

(** The body of [for record in self.data.values()], with the list built so
    far. *)
Fixpoint upcoming_loop (libc : libc_year) (today : datetime.date) (days : Z)
    (records : list Record_.t) (upcoming_birthdays : list congratulation)
  : result (list congratulation) :=
  match records with
  | [] => Ok upcoming_birthdays
  | record :: records' =>
      match Record_.birthday record with
      | Some birthday =>
          let! birthday_this_year :=
            datetime.replace_year (Birthday.value birthday)
                                  (datetime.year today) in
          let! birthday_this_year :=
            (if datetime.lt birthday_this_year today then
               datetime.replace_year birthday_this_year
                                     (datetime.year today + 1)
             else Ok birthday_this_year) in
          let delta := datetime.sub_days birthday_this_year today in
          if (0 <=? delta) && (delta <=? days) then
            let congratulation_date_str :=
              datetime.strftime libc birthday_this_year (lit "%Y-%m-%d") in
            upcoming_loop libc today days records'
              (upcoming_birthdays
               ++ [mk_congratulation (Name.value (Record_.name record))
                                     congratulation_date_str])
          else upcoming_loop libc today days records' upcoming_birthdays
      | None => upcoming_loop libc today days records' upcoming_birthdays
      end
  end.

Definition get_upcoming_birthdays (libc : libc_year) (today : datetime.date)
    (self : t) (days : Z) : result (list congratulation) :=
  upcoming_loop libc today days (dict.values self) [].

(** ['\n'.join(str(record) for record in self.data.values())] *)
Definition __str__ (self : t) : str :=
  join [10%N] (map Record_.__str__ (dict.values self)).
End AddressBook.

(* ===================================================================== *)
(** * 8. The [change] command                                             *)
(* ===================================================================== *)

(** The methods of a Python [list]. *)
Definition list_methods : list string :=
  ["append"; "clear"; "copy"; "count"; "extend"; "index"; "insert"; "pop";
   "remove"; "reverse"; "sort"]%string.

(** [l.attr] on a list object [l]: [AttributeError] unless [attr] is one of
    its methods. *)
Definition list_getattr (attr : string) : result unit :=
  if existsb (String.eqb attr) list_methods then Ok tt
  else Raise (AttributeError
                (lit "'list' object has no attribute '" ++ lit attr ++ lit "'")).

(** What [record.phones.remove_phone] raises. *)
Definition no_remove_phone_attribute : exn :=
  AttributeError (lit "'list' object has no attribute 'remove_phone'").

(** A command handler gets the arguments and the book, may change the book
    (its records are shared with it) and returns a message or raises. *)
Definition handler : Type :=
  list str -> AddressBook.t -> result str * AddressBook.t.

(** [def input_error(func)]: [ValueError], [KeyError] and [IndexError] become
    messages; any other exception goes through. *)
Definition input_error (func : handler) : handler :=
  fun args book =>
    match func args book with
    | (Raise (ValueError msg), book') => (Ok msg, book')
    | (Raise KeyError, book') => (Ok (lit "Key Error"), book')
    | (Raise IndexError, book') => (Ok (lit "Please enter the name."), book')
    | r => r
    end.

(** [for phone in record.phones: if phone.value == old_phone: ...] of
    [change_contact]; [record] is the object stored in the book under [name],
    so [record.add_phone] changes the book. *)
Fixpoint change_contact_loop (book : AddressBook.t) (name : str)
    (record : Record_.t) (phones : list Phone.t) (old_phone new_phone : str)
  : result str * AddressBook.t :=
  match phones with
  | [] =>
      (Ok (lit "The contact " ++ name
           ++ lit " does not have the phone number " ++ old_phone ++ lit "."),
       book)
  | phone :: phones' =>
      if decide (Phone.value phone = old_phone) then
        (* record.phones.remove_phone(phone) *)
        match list_getattr "remove_phone" with
        | Raise e => (Raise e, book)
        | Ok _ =>
            (* record.add_phone(new_phone) *)
            match Record_.add_phone record new_phone with
            | Raise e => (Raise e, book)
            | Ok record' =>
                (Ok (lit "Contact updated."), dict.setitem book name record')
            end
        end
      else change_contact_loop book name record phones' old_phone new_phone
  end.

Definition change_contact_body : handler :=
  fun args book =>
    if (length args <? 3)%nat then
      (Ok (lit "Give me name, old phone number, and new phone number please."),
       book)
    else
      match args with
      | [name; old_phone; new_phone] =>
          match AddressBook.find book name with
          | Some record =>
              change_contact_loop book name record (Record_.phones record)
                                  old_phone new_phone
          | None =>
              (Ok (lit "There are no contacts with the name " ++ name
                   ++ lit ". Type 'add' to add a new contact."),
               book)
          end
      | _ =>
          (* name, old_phone, new_phone = args *)
          (Raise (ValueError (lit "too many values to unpack (expected 3)")),
           book)
      end.

(** [@input_error def change_contact(args, book)] *)
Definition change_contact : handler := input_error change_contact_body.

(* ===================================================================== *)
(** * 8a. The other commands                                              *)
(* ===================================================================== *)

(** [input_error] around a function whose result is not a string: [text]
    turns the message of a caught exception into a result. *)
Definition input_error_on {A : Type} (text : str -> A)
    (func : list str -> AddressBook.t -> result A * AddressBook.t)
  : list str -> AddressBook.t -> result A * AddressBook.t :=
  fun args book =>
    match func args book with
    | (Raise (ValueError msg), book') => (Ok (text msg), book')
    | (Raise KeyError, book') => (Ok (text (lit "Key Error")), book')
    | (Raise IndexError, book') =>
        (Ok (text (lit "Please enter the name.")), book')
    | r => r
    end.

(** ** [delete_contact] *)

Definition delete_contact_body : handler :=
  fun args book =>
    if (1 <? length args)%nat then (Ok (lit "Give me only name."), book)
    else
      match args with
      | [] => (Raise IndexError, book)                      (* args[0] *)
      | name :: _ =>
          if dict.contains book name then
            match AddressBook.delete book name with
            | Ok book' => (Ok (name ++ lit " successfully deleted"), book')
            | Raise e => (Raise e, book)
            end
          else
            (Ok (lit "There are no " ++ name ++ lit " in your contacts"),
             book)
      end.

Definition delete_contact : handler := input_error delete_contact_body.

(** ** [add_contact] *)

(** [for p in record.phones: if p.value == phone: return ...]: is the loop
    left by its [return]? *)
Fixpoint already_has (phones : list Phone.t) (phone : str) : bool :=
  match phones with
  | [] => false
  | p :: phones' =>
      if decide (Phone.value p = phone) then true
      else already_has phones' phone
  end.

(** [try: record.add_phone(phone)  except ValueError as e: return str(e)]
    and [return message]; [record] is the object the book holds under
    [key]. *)
Definition add_contact_finish (book : AddressBook.t) (key : str)
    (record : Record_.t) (phone message : str)
  : result str * AddressBook.t :=
  match Record_.add_phone record phone with
  | Ok record' => (Ok message, dict.setitem book key record')
  | Raise (ValueError msg) => (Ok msg, book)
  | Raise e => (Raise e, book)
  end.

Definition add_contact_body : handler :=
  fun args book =>
    if (length args <? 2)%nat then
      (Ok (lit "Give me name and phone please."), book)
    else
      match args with
      | name :: phone :: _ =>
          match AddressBook.find book name with
          | None =>
              match Record_.__init__ name with
              | Raise e => (Raise e, book)
              | Ok record =>
                  add_contact_finish
                    (AddressBook.add_record book record)
                    (Name.value (Record_.name record))
                    record phone (lit "Contact added.")
              end
          | Some record =>
              if already_has (Record_.phones record) phone then
                (Ok (name ++ lit " already has this phone number."), book)
              else
                add_contact_finish book name record phone
                                   (lit "Contact updated.")
          end
      | _ =>
          (* name, phone, *_ = args *)
          (Raise (ValueError
                    (lit "not enough values to unpack (expected at least 2)")),
           book)
      end.

Definition add_contact : handler := input_error add_contact_body.

(** ** [show_phone] *)

(** What a handler hands to [print]: a message, or (from [show_phone]) what
    [book.find] returned. *)
Inductive reply : Type :=
| Text (s : str)
| Found (record : option Record_.t).

(** [str(reply)], what [print] writes. *)
Definition reply_str (r : reply) : str :=
  match r with
  | Text s => s
  | Found (Some record) => Record_.__str__ record
  | Found None => lit "None"
  end.

Definition show_phone_body (args : list str) (book : AddressBook.t)
  : result reply * AddressBook.t :=
  match args with
  | [] => (Raise IndexError, book)                          (* args[0] *)
  | name :: _ =>
      if dict.contains book name then
        (Ok (Found (AddressBook.find book name)), book)
      else
        (Ok (Text (lit "There are no " ++ name ++ lit " in your contacts")),
         book)
  end.

Definition show_phone : list str -> AddressBook.t
                        -> result reply * AddressBook.t :=
  input_error_on Text show_phone_body.

(** ** [add_birthday] *)

Definition add_birthday_body : handler :=
  fun args book =>
    if (length args <? 2)%nat then
      (Ok (lit "Give me name and birthday please."), book)
    else
      match args with
      | [name; birthday] =>
          match AddressBook.find book name with
          | Some record =>
              match Record_.add_birthday record birthday with
              | Ok record' =>
                  (Ok (lit "Birthday added."), dict.setitem book name record')
              | Raise (ValueError msg) => (Ok msg, book)
              | Raise e => (Raise e, book)
              end
          | None =>
              (Ok (lit "There are no " ++ name ++ lit " in your contacts."),
               book)
          end
      | _ =>
          (* name, birthday = args *)
          (Raise (ValueError (lit "too many values to unpack (expected 2)")),
           book)
      end.

Definition add_birthday : handler := input_error add_birthday_body.

(** ** [show_birthday] *)

Definition show_birthday_body (libc : libc_year) : handler :=
  fun args book =>
    if (length args <? 1)%nat then (Ok (lit "Please provide a name."), book)
    else
      match args with
      | [] => (Raise IndexError, book)                      (* args[0] *)
      | name :: _ =>
          match AddressBook.find book name with
          | Some record =>
              match Record_.birthday record with
              | Some birthday =>
                  (Ok (lit "Birthday for " ++ name ++ lit " is "
                       ++ Birthday.__str__ libc birthday ++ lit "."),
                   book)
              | None => (Ok (lit "No birthday set for " ++ name ++ lit "."), book)
              end
          | None =>
              (Ok (lit "There are no contacts with the name " ++ name
                   ++ lit "."),
               book)
          end
      end.

Definition show_birthday (libc : libc_year) : handler :=
  input_error (show_birthday_body libc).

(** ** [show_all_contacts] and [show_upcoming_birthdays] *)

(** [str(book) if book else "No contacts found."]; a [UserDict] is false
    when it is empty. *)
Definition show_all_contacts (book : AddressBook.t) : str :=
  match book with
  | [] => lit "No contacts found."
  | _ => AddressBook.__str__ book
  end.

(** [result += f"{birthday['name']}: {birthday['congratulation_date']}\n"] *)
Fixpoint upcoming_lines (result : str) (upcoming : list congratulation) : str :=
  match upcoming with
  | [] => result
  | birthday :: upcoming' =>
      upcoming_lines
        (result ++ cg_name birthday ++ lit ": "
         ++ congratulation_date birthday ++ [10%N])
        upcoming'
  end.

Definition show_upcoming_birthdays (libc : libc_year) (today : datetime.date)
    (book : AddressBook.t) : result str :=
  let! upcoming_birthdays :=
    AddressBook.get_upcoming_birthdays libc today book 7 in
  match upcoming_birthdays with
  | [] => Ok (lit "No upcoming birthdays within the next week.")
  | _ => Ok (upcoming_lines (lit "Upcoming birthdays:" ++ [10%N])
                            upcoming_birthdays)
  end.

(* ===================================================================== *)
(** * 8b. [parse_input] and the loop of [main]                            *)
(* ===================================================================== *)

(** The white space of [str.split], [str.strip] and [str.isspace]
    (Unicode Character Database 14.0.0), as inclusive ranges. *)
Definition whitespace_ranges : list (N * N) :=
  [(9, 13); (28, 32); (133, 133); (160, 160); (5760, 5760); (8192, 8202);
   (8232, 8233); (8239, 8239); (8287, 8287); (12288, 12288)]%N.

Definition isspace_char (c : N) : bool :=
  existsb (fun r => in_range (fst r) (snd r) c) whitespace_ranges.

(** [s.split()]: the maximal runs of characters that are not white space;
    [word] is the run being read. *)
Fixpoint split_loop (s word : str) : list str :=
  match s with
  | [] => match word with [] => [] | _ => [word] end
  | c :: s' =>
      if isspace_char c then
        match word with
        | [] => split_loop s' []
        | _ => word :: split_loop s' []
        end
      else split_loop s' (word ++ [c])
  end.

Definition split (s : str) : list str := split_loop s [].

Fixpoint lstrip (s : str) : str :=
  match s with
  | c :: s' => if isspace_char c then lstrip s' else s
  | [] => []
  end.

(** [s.strip()] *)
Definition strip (s : str) : str := rev (lstrip (rev (lstrip s))).

(** [parse_input(user_input)]; [lower] is [str.lower]. *)
Definition parse_input (lower : str -> str) (user_input : str)
  : result (str * list str) :=
  match split user_input with
  | [] =>
      (* cmd, *args = user_input.split() *)
      Raise (ValueError
               (lit "not enough values to unpack (expected at least 1, got 0)"))
  | cmd :: args => Ok (lower (strip cmd), args)
  end.

(** One turn of the loop of [main]: what is printed and the book afterwards,
    or the book saved on leaving. *)
Inductive outcome : Type :=
| Printed (text : str) (book : AddressBook.t)
| GoodBye (saved : AddressBook.t).

(** [print(handler(args, book))]: an exception the handler lets through
    ends the program. *)
Definition print_handler (r : result str * AddressBook.t) : result outcome :=
  match r with
  | (Ok text, book') => Ok (Printed text book')
  | (Raise e, _) => Raise e
  end.

(** The [if command ... elif ...] chain of [main]. *)
Definition dispatch (libc : libc_year) (today : datetime.date)
    (command : str) (args : list str) (book : AddressBook.t)
  : result outcome :=
  if decide (command = lit "close" \/ command = lit "exit") then
    Ok (GoodBye book)
  else if decide (command = lit "hello") then
    Ok (Printed (lit "How can I help you?") book)
  else if decide (command = lit "add") then
    print_handler (add_contact args book)
  else if decide (command = lit "delete") then
    print_handler (delete_contact args book)
  else if decide (command = lit "change") then
    print_handler (change_contact args book)
  else if decide (command = lit "phone") then
    match show_phone args book with
    | (Ok r, book') => Ok (Printed (reply_str r) book')
    | (Raise e, _) => Raise e
    end
  else if decide (command = lit "all") then
    Ok (Printed (show_all_contacts book) book)
  else if decide (command = lit "add-birthday") then
    print_handler (add_birthday args book)
  else if decide (command = lit "show-birthday") then
    print_handler (show_birthday libc args book)
  else if decide (command = lit "birthdays") then
    let! text := show_upcoming_birthdays libc today book in
    Ok (Printed text book)
  else Ok (Printed (lit "Invalid command.") book).

(** The body of [while True] for one line of input. *)
Definition main_step (libc : libc_year) (today : datetime.date)
    (lower : str -> str) (user_input : str) (book : AddressBook.t)
  : result outcome :=
  let! parsed := parse_input lower user_input in
  dispatch libc today (fst parsed) (snd parsed) book.

(** How a run of [main] on some lines of input ends. *)
Inductive session_end : Type :=
| Exited (saved : AddressBook.t)
| Crashed (e : exn)
| AwaitsInput (book : AddressBook.t).

(** [main] fed the lines [inputs], from the book [load_data] returned:
    everything printed after the welcome, and how the run ends. *)
Fixpoint main_loop (libc : libc_year) (today : datetime.date)
    (lower : str -> str) (inputs : list str) (book : AddressBook.t)
  : list str * session_end :=
  match inputs with
  | [] => ([], AwaitsInput book)
  | user_input :: inputs' =>
      match main_step libc today lower user_input book with
      | Raise e => ([], Crashed e)
      | Ok (GoodBye saved) => ([lit "Good bye!"], Exited saved)
      | Ok (Printed text book') =>
          let '(printed, ending) :=
            main_loop libc today lower inputs' book' in
          (text :: printed, ending)
      end
  end.

(** [str.lower] on ASCII text. *)
Definition ascii_lower (s : str) : str :=
  map (fun c => if in_range 65 90 c then (c + 32)%N else c) s.

(* ===================================================================== *)
(** * 9. Notions the statements use                                       *)
(* ===================================================================== *)

(** ** Dates *)

(** The fields of a [date] object satisfy [_check_date_fields]; every object
    the program builds does. *)
Definition valid_date (d : datetime.date) : Prop :=
  datetime.MINYEAR <= datetime.year d <= datetime.MAXYEAR
  /\ 1 <= datetime.month d <= 12
  /\ 1 <= datetime.day d
       <= datetime._days_in_month (datetime.year d) (datetime.month d).

Definition is_feb29 (d : datetime.date) : Prop :=
  datetime.month d = 2 /\ datetime.day d = 29.

(** A year, month and day that name a day of the calendar. *)
Definition real_calendar_date (y m d : Z) : Prop :=
  1 <= y <= 9999 /\ 1 <= m <= 12 /\ 1 <= d <= datetime._days_in_month y m.

(** The extra day of a leap year. *)
Definition leap_day (y : Z) : Z := if datetime._is_leap y then 1 else 0.

(** ** The upcoming-birthday window, in the words of the specification *)

(** The number of days from [a] to [b]. *)
Definition days_from_to (a b : datetime.date) : Z :=
  datetime.toordinal b - datetime.toordinal a.

(** This year's occurrence of the birthday's month and day, moved to next
    year when it fell before today (a negative number of days from today). *)
Definition occurrence (today birthday : datetime.date) : datetime.date :=
  let this_year :=
    datetime.mk (datetime.year today) (datetime.month birthday)
                (datetime.day birthday) in
  if days_from_to today this_year <? 0 then
    datetime.mk (datetime.year today + 1) (datetime.month birthday)
                (datetime.day birthday)
  else this_year.

(** [YYYY-MM-DD] *)
Definition format_YYYY_MM_DD (d : datetime.date) : str :=
  datetime.pad4 (datetime.year d) ++ lit "-"
  ++ datetime.pad2 (datetime.month d) ++ lit "-"
  ++ datetime.pad2 (datetime.day d).

(** What one record contributes to the answer. *)
Definition upcoming_of_record (today : datetime.date) (windowDays : Z)
    (r : Record_.t) : list congratulation :=
  match Record_.birthday r with
  | None => []
  | Some b =>
      let occ := occurrence today (Birthday.value b) in
      let diff := days_from_to today occ in
      if (0 <=? diff) && (diff <=? windowDays) then
        [mk_congratulation (Name.value (Record_.name r))
                           (format_YYYY_MM_DD occ)]
      else []
  end.

Definition upcoming_spec (today : datetime.date) (windowDays : Z)
    (records : list Record_.t) : list congratulation :=
  flat_map (upcoming_of_record today windowDays) records.

(** Every birthday stored in the records is a date object, and none is a
    29th of February. *)
Definition records_regular (records : list Record_.t) : Prop :=
  Forall (fun r => forall b, Record_.birthday r = Some b ->
                     valid_date (Birthday.value b)
                     /\ ~ is_feb29 (Birthday.value b))
         records.

Definition birthdays_regular (book : AddressBook.t) : Prop :=
  records_regular (dict.values book).

(** ** The strings [Birthday] accepts *)

Definition is_true (b : bool) : Prop := b = true.

(** The day field: 30 or 31; 10 to 29 (whose second digit may be any Unicode
    decimal digit); 01 to 09; 1 to 9; a space and 1 to 9. *)
Definition day_field (t : str) : Prop :=
  (exists c, t = [51; c]%N /\ is_true (in_range 48 49 c))
  \/ (exists c1 c2, t = [c1; c2]
        /\ is_true (in_range 49 50 c1) /\ is_true (isdecimal_char c2))
  \/ (exists c, t = [48; c]%N /\ is_true (in_range 49 57 c))
  \/ (exists c, t = [c] /\ is_true (in_range 49 57 c))
  \/ (exists c, t = [32; c]%N /\ is_true (in_range 49 57 c)).

(** The month field: 10 to 12; 01 to 09; 1 to 9. *)
Definition month_field (t : str) : Prop :=
  (exists c, t = [49; c]%N /\ is_true (in_range 48 50 c))
  \/ (exists c, t = [48; c]%N /\ is_true (in_range 49 57 c))
  \/ (exists c, t = [c] /\ is_true (in_range 49 57 c)).

(** The year field: exactly four decimal digits. *)
Definition year_field (t : str) : Prop :=
  length t = 4%nat /\ Forall (fun c => is_true (isdecimal_char c)) t.

(** The number a field stands for: its decimal digits read in base ten (a
    leading space counts for nothing). *)
Definition char_value (c : N) : Z :=
  match decimal c with Some v => Z.of_N v | None => 0 end.

Definition text_value (t : str) : Z :=
  fold_left (fun acc c => 10 * acc + char_value c) t 0.

(** [s] is a day field, a dot, a month field, a dot and a year field that
    together name the calendar day [dt]. *)
Definition lenient_date_text (s : str) (dt : datetime.date) : Prop :=
  exists D M Y,
    s = D ++ [ord_dot] ++ M ++ [ord_dot] ++ Y
    /\ day_field D /\ month_field M /\ year_field Y
    /\ real_calendar_date (text_value Y) (text_value M) (text_value D)
    /\ dt = datetime.mk (text_value Y) (text_value M) (text_value D).

(** The strict pattern DD.MM.YYYY: two ASCII digits, a dot, two ASCII
    digits, a dot, four ASCII digits. *)
Definition matches_DD_MM_YYYY (s : str) : bool :=
  match s with
  | [d1; d2; p1; m1; m2; p2; y1; y2; y3; y4] =>
      is_ascii_digit d1 && is_ascii_digit d2 && (p1 =? ord_dot)%N
      && is_ascii_digit m1 && is_ascii_digit m2 && (p2 =? ord_dot)%N
      && is_ascii_digit y1 && is_ascii_digit y2
      && is_ascii_digit y3 && is_ascii_digit y4
  | _ => false
  end.

(** The day, month and year a DD.MM.YYYY string writes. *)
Definition day_of (s : str) : Z := text_value (take 2 s).
Definition month_of (s : str) : Z := text_value (take 2 (drop 3 s)).
Definition year_of (s : str) : Z := text_value (take 4 (drop 6 s)).

(** ** Phones *)

(** Ten characters, each a digit for [str.isdigit]. *)
Definition ten_digits (s : str) : Prop :=
  length s = 10%nat /\ Forall (fun c => is_true (isdigit_char c)) s.

(** Ten characters, each a decimal digit (of any script). *)
Definition ten_decimal_digits (s : str) : Prop :=
  length s = 10%nat /\ Forall (fun c => is_true (isdecimal_char c)) s.

(** Ten ASCII digits. *)
Definition ten_ascii_digits (s : str) : Prop :=
  length s = 10%nat /\ Forall (fun c => is_true (is_ascii_digit c)) s.

Definition is_ascii (s : str) : Prop := Forall (fun c => (c < 128)%N) s.

(** [raw] removed from [l]: the phones equal to [raw] are dropped, the
    others stay, in their order. *)
Inductive removed_all (raw : str) : list Phone.t -> list Phone.t -> Prop :=
| removed_nil : removed_all raw [] []
| removed_drop p l l' :
    Phone.value p = raw -> removed_all raw l l' ->
    removed_all raw (p :: l) l'
| removed_keep p l l' :
    Phone.value p <> raw -> removed_all raw l l' ->
    removed_all raw (p :: l) (p :: l').

(** ** Sequences of operations on a record *)

Inductive record_op : Type :=
| OpAddPhone (phone : str)
| OpRemovePhone (phone : str)
| OpEditPhone (old_phone new_phone : str)
| OpAddBirthday (birthday : str).

Definition apply_op (r : Record_.t) (op : record_op) : result Record_.t :=
  match op with
  | OpAddPhone phone => Record_.add_phone r phone
  | OpRemovePhone phone => Ok (Record_.remove_phone r phone)
  | OpEditPhone old_phone new_phone => Record_.edit_phone r old_phone new_phone
  | OpAddBirthday birthday => Record_.add_birthday r birthday
  end.

(** A call that raises leaves the record as it was. *)
Definition step (r : Record_.t) (op : record_op) : Record_.t :=
  match apply_op r op with
  | Ok r' => r'
  | Raise _ => r
  end.

Definition run (r : Record_.t) (ops : list record_op) : Record_.t :=
  fold_left step ops r.

Definition phones_ten_digits (r : Record_.t) : Prop :=
  Forall (fun p => ten_digits (Phone.value p)) (Record_.phones r).

Definition phones_ten_decimal_digits (r : Record_.t) : Prop :=
  Forall (fun p => ten_decimal_digits (Phone.value p)) (Record_.phones r).

(** ** Sample data *)

Definition superscript_twos : str := repeat 178%N 10.

Definition sample_record (name : str) (phones : list str)
    (birthday : option datetime.date) : Record_.t :=
  Record_.mk (Name.mk name) (map Phone.mk phones)
             (option_map Birthday.mk birthday).

(** Ann (12 June 1990) and Bob (1 January 1990). *)
Definition book_new_year : AddressBook.t :=
  AddressBook.add_record
    (AddressBook.add_record []
       (sample_record (lit "Ann") [] (Some (datetime.mk 1990 6 12))))
    (sample_record (lit "Bob") [] (Some (datetime.mk 1990 1 1))).

(** Bob (1 March 1990) and Eve (29 February 2000). *)
Definition book_leapling : AddressBook.t :=
  AddressBook.add_record
    (AddressBook.add_record []
       (sample_record (lit "Bob") [] (Some (datetime.mk 1990 3 1))))
    (sample_record (lit "Eve") [] (Some (datetime.mk 2000 2 29))).

(** ** Notions for the rest of the program *)

(** The value of the record's name. *)
Definition record_name (r : Record_.t) : str := Name.value (Record_.name r).

(** The names of the records that have a birthday, in order. *)
Definition names_with_birthday (records : list Record_.t) : list str :=
  flat_map (fun r => match Record_.birthday r with
                     | Some _ => [record_name r]
                     | None => []
                     end)
           records.

(** Every stored birthday is a date object. *)
Definition birthdays_valid (records : list Record_.t) : Prop :=
  Forall (fun r => forall b, Record_.birthday r = Some b ->
                     valid_date (Birthday.value b))
         records.

Definition has_feb29 (records : list Record_.t) : Prop :=
  Exists (fun r => exists b, Record_.birthday r = Some b
                             /\ is_feb29 (Birthday.value b))
         records.

(** Today lies in a leap year, on or before its 29 February. *)
Definition feb29_ahead (today : datetime.date) : Prop :=
  datetime._is_leap (datetime.year today) = true
  /\ datetime.lt (datetime.mk (datetime.year today) 2 29) today = false.

(** Operations on a book. *)
Inductive book_op : Type :=
| BookAdd (record : Record_.t)
| BookDelete (name : str).

Definition book_step (book : AddressBook.t) (op : book_op) : AddressBook.t :=
  match op with
  | BookAdd record => AddressBook.add_record book record
  | BookDelete name =>
      match AddressBook.delete book name with
      | Ok book' => book'
      | Raise _ => book
      end
  end.

Definition book_run (book : AddressBook.t) (ops : list book_op)
  : AddressBook.t :=
  fold_left book_step ops book.

(** Each record is stored under its own name. *)
Definition keyed_by_name (book : AddressBook.t) : Prop :=
  Forall (fun kr => record_name (snd kr) = fst kr) book.

(** What the commands keep true of a record: a name, valid phones that are
    pairwise different, and a birthday that is a date. *)
Definition record_ok (r : Record_.t) : Prop :=
  record_name r <> []
  /\ phones_ten_digits r
  /\ NoDup (map Phone.value (Record_.phones r))
  /\ (forall b, Record_.birthday r = Some b -> valid_date (Birthday.value b)).

(** What the commands keep true of the book. *)
Definition book_ok (book : AddressBook.t) : Prop :=
  NoDup (dict.keys book)
  /\ keyed_by_name book
  /\ Forall record_ok (dict.values book).

(** A text with no white space in it, and not empty. *)
Definition is_word (w : str) : Prop :=
  w <> [] /\ Forall (fun c => isspace_char c = false) w.


(** The commands that can change the book. *)
Definition changing_commands : list str :=
  [lit "add"; lit "delete"; lit "add-birthday"].

(** The two [replace] calls of the loop body of [get_upcoming_birthdays],
    for the birthday [b]. *)
Definition occurrence_of_loop (today b : datetime.date)
  : result datetime.date :=
  let! birthday_this_year :=
    datetime.replace_year b (datetime.year today) in
  if datetime.lt birthday_this_year today then
    datetime.replace_year birthday_this_year (datetime.year today + 1)
  else Ok birthday_this_year.

(** What a record contributes, with the date as [strftime] writes it. *)
Definition upcoming_of_record_as_written (libc : libc_year)
    (today : datetime.date) (days : Z) (r : Record_.t)
  : list congratulation :=
  match Record_.birthday r with
  | None => []
  | Some b =>
      let occ := occurrence today (Birthday.value b) in
      let diff := days_from_to today occ in
      if (0 <=? diff) && (diff <=? days) then
        [mk_congratulation (record_name r)
                           (datetime.strftime libc occ (lit "%Y-%m-%d"))]
      else []
  end.

(** The book after one turn of the loop. *)
Definition outcome_book (o : outcome) : AddressBook.t :=
  match o with
  | Printed _ book => book
  | GoodBye saved => saved
  end.

(** The book a run of [main] ends with, unless it crashed. *)
Definition session_book (ending : session_end) : option AddressBook.t :=
  match ending with
  | Exited saved => Some saved
  | AwaitsInput book => Some book
  | Crashed _ => None
  end.

(* ===================================================================== *)
(** * 10. Characters and digits                                           *)
(* ===================================================================== *)

Section CharFacts.

(** A property of code points below [n] can be checked one by one. *)
Lemma below_cases (P : N -> bool) (n : nat) :
  forallb P (map N.of_nat (seq 0 n)) = true ->
  forall c, (c < N.of_nat n)%N -> P c = true.
Proof.
  intros Hall c Hc.
  rewrite forallb_forall in Hall.
  apply Hall, in_map_iff.
  exists (N.to_nat c); split; [lia|].
  apply in_seq; lia.
Qed.

Lemma in_range_spec lo hi c :
  in_range lo hi c = true <-> (lo <= c <= hi)%N.
Proof. unfold in_range. rewrite andb_true_iff, !N.leb_le. tauto. Qed.

(** On ASCII, [isdigit] and [isdecimal] are the digits 0 to 9. *)
Lemma isdigit_char_ascii c :
  (c < 128)%N -> isdigit_char c = is_ascii_digit c.
Proof.
  intros Hc.
  apply (below_cases (fun c => Bool.eqb (isdigit_char c) (is_ascii_digit c)) 128)
    in Hc; [|vm_compute; reflexivity].
  now apply eqb_prop in Hc.
Qed.

Lemma isdecimal_char_ascii c :
  (c < 128)%N -> isdecimal_char c = is_ascii_digit c.
Proof.
  intros Hc.
  apply (below_cases (fun c => Bool.eqb (isdecimal_char c) (is_ascii_digit c)) 128)
    in Hc; [|vm_compute; reflexivity].
  now apply eqb_prop in Hc.
Qed.

Lemma ascii_digit_isdecimal c :
  is_ascii_digit c = true -> isdecimal_char c = true.
Proof.
  intros H. rewrite isdecimal_char_ascii; [done|].
  apply in_range_spec in H. lia.
Qed.

Lemma isdecimal_isdigit c : isdecimal_char c = true -> isdigit_char c = true.
Proof. unfold isdigit_char. intros ->. reflexivity. Qed.

Lemma forallb_Forall_true {A} (f : A -> bool) l :
  forallb f l = true <-> Forall (fun x => is_true (f x)) l.
Proof.
  induction l as [|x l IH]; simpl.
  - split; [constructor | reflexivity].
  - rewrite andb_true_iff, Forall_cons, IH. unfold is_true. tauto.
Qed.

Lemma isdigit_spec s :
  isdigit s = true <-> s <> [] /\ Forall (fun c => is_true (isdigit_char c)) s.
Proof.
  destruct s as [|c s].
  - simpl. split; [discriminate | intros [[] _]; reflexivity].
  - unfold isdigit. rewrite forallb_Forall_true.
    split; [intros H; split; [discriminate | exact H] | tauto].
Qed.

End CharFacts.

(* ===================================================================== *)
(** * 11. Phone                                                           *)
(* ===================================================================== *)

Lemma Phone_is_valid_spec s : Phone.is_valid s = true <-> ten_digits s.
Proof.
  unfold Phone.is_valid, ten_digits.
  rewrite andb_true_iff, Nat.eqb_eq, isdigit_spec.
  split; [tauto|].
  intros [Hlen Hall]. repeat split; try assumption.
  intros ->. discriminate.
Qed.

Lemma Phone_init_valid s :
  Phone.is_valid s = true -> Phone.__init__ s = Ok (Phone.mk s).
Proof. unfold Phone.__init__. intros ->. reflexivity. Qed.

Lemma Phone_init_invalid s :
  Phone.is_valid s = false ->
  Phone.__init__ s = Raise (ValueError (lit "Phone number must be 10 digits")).
Proof. unfold Phone.__init__. intros ->. reflexivity. Qed.

Lemma Phone_init_ok_inv s p :
  Phone.__init__ s = Ok p -> Phone.is_valid s = true /\ p = Phone.mk s.
Proof.
  unfold Phone.__init__. destruct (Phone.is_valid s); simpl; [|discriminate].
  intros [= <-]. split; reflexivity.
Qed.

Lemma ten_digits_ascii s : is_ascii s -> ten_digits s <-> ten_ascii_digits s.
Proof.
  unfold is_ascii, ten_digits, ten_ascii_digits. intros Hs.
  split; intros [Hlen Hall]; (split; [exact Hlen|]);
    rewrite Forall_forall in *; intros c Hin; unfold is_true in *;
    specialize (Hall c Hin); specialize (Hs c Hin).
  - now rewrite <- isdigit_char_ascii.
  - now rewrite isdigit_char_ascii.
Qed.

(** C4 (as amended): [Phone(s)] succeeds exactly when [s] has ten characters
    that are all digits in the sense of [str.isdigit] (for a string of ASCII
    characters: ten of the digits 0 to 9); the phone built renders as [s];
    in every other case the constructor raises the ValueError
    "Phone number must be 10 digits". *)
Theorem Phone_accepts_ten_isdigit_characters (s : str) :
  ((exists p, Phone.__init__ s = Ok p) <-> ten_digits s)
  /\ (forall p, Phone.__init__ s = Ok p -> Phone.__str__ p = s)
  /\ (~ ten_digits s ->
      Phone.__init__ s
      = Raise (ValueError (lit "Phone number must be 10 digits")))
  /\ (is_ascii s -> (ten_digits s <-> ten_ascii_digits s)).
Proof.
  split; [|split; [|split]].
  - split.
    + intros [p Hp]. apply Phone_init_ok_inv in Hp as [Hv _].
      now apply Phone_is_valid_spec.
    + intros H. apply Phone_is_valid_spec in H.
      exists (Phone.mk s). now apply Phone_init_valid.
  - intros p Hp. apply Phone_init_ok_inv in Hp as [_ ->]. reflexivity.
  - intros H. apply Phone_init_invalid.
    destruct (Phone.is_valid s) eqn:E; [|reflexivity].
    apply Phone_is_valid_spec in E. contradiction.
  - apply ten_digits_ascii.
Qed.

Lemma ten_ascii_digits_sample : ten_ascii_digits (lit "0501234567").
Proof. split; [reflexivity|]. repeat constructor. Qed.

Lemma Phone_accepts_ten_isdigit_characters_witness :
  (exists p, Phone.__init__ (lit "0501234567") = Ok p)
  /\ Phone.__init__ (lit "12345")
     = Raise (ValueError (lit "Phone number must be 10 digits")).
Proof.
  split.
  - apply (Phone_accepts_ten_isdigit_characters (lit "0501234567")).
    apply (proj2 (proj2 (proj2
             (Phone_accepts_ten_isdigit_characters (lit "0501234567"))))).
    + repeat constructor.
    + exact ten_ascii_digits_sample.
  - apply (Phone_accepts_ten_isdigit_characters (lit "12345")).
    intros [Hlen _]. vm_compute in Hlen. discriminate.
Defined.

(** C4, as stated, fails: ten SUPERSCRIPT TWO characters (U+00B2) are
    accepted as a phone although none of them is a decimal digit. *)
Lemma Phone_accepts_superscript_digits :
  Phone.__init__ superscript_twos = Ok (Phone.mk superscript_twos)
  /\ ~ ten_decimal_digits superscript_twos
  /\ ~ ten_ascii_digits superscript_twos.
Proof.
  split; [reflexivity|].
  split; intros [_ H]; inversion H as [|? ? Hc _]; vm_compute in Hc; discriminate.
Qed.

(* ===================================================================== *)
(** * 12. Record                                                          *)
(* ===================================================================== *)

Section RecordFacts.

Implicit Types (r : Record_.t) (l : list Phone.t) (p : Phone.t).

Lemma set_phones_same r : Record_.set_phones r (Record_.phones r) = r.
Proof. destruct r; reflexivity. Qed.

(** *** remove_phone *)

Lemma filter_removed_all raw l :
  removed_all raw l (filter (fun p => Phone.value p <> raw) l).
Proof.
  induction l as [|p l IH]; [constructor|].
  destruct (decide (Phone.value p = raw)) as [E|E].
  - rewrite filter_cons_False by (intros H; apply H, E).
    now apply removed_drop.
  - rewrite filter_cons_True by exact E.
    now apply removed_keep.
Qed.

Lemma removed_all_sublist raw l l' : removed_all raw l l' -> sublist l' l.
Proof.
  induction 1; [constructor | now apply sublist_cons | now apply sublist_skip].
Qed.

Lemma removed_all_none_left raw l l' :
  removed_all raw l l' -> Forall (fun p => Phone.value p <> raw) l'.
Proof. induction 1; [constructor | assumption | now constructor]. Qed.

Lemma removed_all_no_match raw l l' :
  removed_all raw l l' ->
  Forall (fun p => Phone.value p <> raw) l -> l' = l.
Proof.
  induction 1 as [|p l l' E _ IH|p l l' E _ IH]; intros Hall.
  - reflexivity.
  - apply Forall_cons in Hall as [Hp _]. contradiction.
  - apply Forall_cons in Hall as [_ Hall]. f_equal. now apply IH.
Qed.

(** *** edit_phone *)

(** The loop, started at index [length pre] on the phones after [pre],
    replaces the first phone equal to [old]. *)
Lemma edit_phone_loop_first r old new pre l1 p l2 :
  Record_.phones r = pre ++ l1 ++ p :: l2 ->
  Forall (fun q => Phone.value q <> old) l1 ->
  Phone.value p = old ->
  Record_.edit_phone_loop r (enumerate_from (length pre) (l1 ++ p :: l2)) old new
  = let! np := Phone.__init__ new in
    Ok (Record_.set_phones r (pre ++ l1 ++ np :: l2)).
Proof.
  revert pre. induction l1 as [|q l1 IH]; intros pre Hph Hl1 Hp; simpl.
  - rewrite decide_True by exact Hp.
    destruct (Phone.__init__ new) as [np|e]; simpl; [|reflexivity].
    rewrite Hph. simpl.
    replace (length pre) with (length pre + 0)%nat by lia.
    rewrite insert_app_r. reflexivity.
  - apply Forall_cons in Hl1 as [Hq Hl1'].
    rewrite decide_False by exact Hq.
    specialize (IH (pre ++ [q])).
    rewrite length_app in IH. simpl in IH.
    replace (length pre + 1)%nat with (S (length pre)) in IH by lia.
    rewrite IH; [|rewrite Hph, <- app_assoc; reflexivity | assumption | assumption].
    destruct (Phone.__init__ new); simpl; [|reflexivity].
    now rewrite <- app_assoc.
Qed.

Lemma edit_phone_loop_no_match r old new i l :
  Forall (fun q => Phone.value q <> old) l ->
  Record_.edit_phone_loop r (enumerate_from i l) old new = Ok r.
Proof.
  revert i. induction l as [|q l IH]; intros i Hl; simpl; [reflexivity|].
  apply Forall_cons in Hl as [Hq Hl'].
  rewrite decide_False by exact Hq. now apply IH.
Qed.

End RecordFacts.

(** C6: [edit_phone(old, new)] replaces the first phone whose value is
    [old] by the validated phone [Phone(new)] and leaves the phones before
    and after it as they were (when [new] is not a valid phone the
    validation raises and nothing is replaced); when no phone has the value
    [old], the record is left unchanged and nothing is raised. *)
Theorem edit_phone_replaces_first_match (r : Record_.t) (old new : str) :
  (Forall (fun p => Phone.value p <> old) (Record_.phones r) ->
   Record_.edit_phone r old new = Ok r)
  /\ (forall l1 p l2,
        Record_.phones r = l1 ++ p :: l2 ->
        Forall (fun q => Phone.value q <> old) l1 ->
        Phone.value p = old ->
        (ten_digits new ->
         Record_.edit_phone r old new
         = Ok (Record_.set_phones r (l1 ++ Phone.mk new :: l2)))
        /\ (~ ten_digits new ->
            Record_.edit_phone r old new
            = Raise (ValueError (lit "Phone number must be 10 digits")))).
Proof.
  split.
  - intros H. now apply edit_phone_loop_no_match.
  - intros l1 p l2 Hph Hl1 Hp.
    unfold Record_.edit_phone.
    assert (Hloop := edit_phone_loop_first r old new [] l1 p l2 Hph Hl1 Hp).
    simpl in Hloop. rewrite <- Hph in Hloop. rewrite Hloop. clear Hloop.
    split; intros Hnew.
    + apply Phone_is_valid_spec in Hnew.
      rewrite (Phone_init_valid _ Hnew). reflexivity.
    + rewrite Phone_init_invalid; [reflexivity|].
      destruct (Phone.is_valid new) eqn:E; [|reflexivity].
      apply Phone_is_valid_spec in E. contradiction.
Qed.

Lemma ten_digits_3333333333 : ten_digits (lit "3333333333").
Proof. apply Phone_is_valid_spec. reflexivity. Qed.

Lemma edit_phone_replaces_first_match_witness :
  Record_.edit_phone
    (sample_record (lit "Ann") [lit "1111111111"; lit "2222222222"] None)
    (lit "2222222222") (lit "3333333333")
  = Ok (sample_record (lit "Ann") [lit "1111111111"; lit "3333333333"] None)
  /\ Record_.edit_phone
       (sample_record (lit "Ann") [lit "1111111111"; lit "2222222222"] None)
       (lit "4444444444") (lit "3333333333")
     = Ok (sample_record (lit "Ann") [lit "1111111111"; lit "2222222222"] None).
Proof.
  split.
  - apply (proj2 (edit_phone_replaces_first_match
                    (sample_record (lit "Ann")
                       [lit "1111111111"; lit "2222222222"] None)
                    (lit "2222222222") (lit "3333333333"))
             [Phone.mk (lit "1111111111")] (Phone.mk (lit "2222222222")) []).
    + reflexivity.
    + repeat constructor. vm_compute. discriminate.
    + reflexivity.
    + exact ten_digits_3333333333.
  - apply (proj1 (edit_phone_replaces_first_match
                    (sample_record (lit "Ann")
                       [lit "1111111111"; lit "2222222222"] None)
                    (lit "4444444444") (lit "3333333333"))).
    repeat constructor; vm_compute; discriminate.
Defined.

(** C7: [remove_phone(raw)] drops every phone whose value is [raw] and
    keeps the others in their order (name and birthday are untouched); when
    no phone has the value [raw] the record is unchanged; on the phones
    1111111111, 2222222222, removing 1111111111 leaves exactly 2222222222. *)
Theorem remove_phone_removes_all_matches (r : Record_.t) (raw : str) :
  let r' := Record_.remove_phone r raw in
  Record_.name r' = Record_.name r
  /\ Record_.birthday r' = Record_.birthday r
  /\ removed_all raw (Record_.phones r) (Record_.phones r')
  /\ sublist (Record_.phones r') (Record_.phones r)
  /\ Forall (fun p => Phone.value p <> raw) (Record_.phones r')
  /\ (Forall (fun p => Phone.value p <> raw) (Record_.phones r) -> r' = r)
  /\ Record_.remove_phone
       (sample_record (lit "Ann") [lit "1111111111"; lit "2222222222"] None)
       (lit "1111111111")
     = sample_record (lit "Ann") [lit "2222222222"] None.
Proof.
  cbn zeta.
  assert (Hrm := filter_removed_all raw (Record_.phones r)).
  repeat split; try reflexivity.
  - exact Hrm.
  - exact (removed_all_sublist _ _ _ Hrm).
  - exact (removed_all_none_left _ _ _ Hrm).
  - intros Hno. unfold Record_.remove_phone.
    rewrite (removed_all_no_match _ _ _ Hrm Hno). apply set_phones_same.
Qed.

Lemma remove_phone_removes_all_matches_witness :
  Record_.remove_phone
    (sample_record (lit "Ann") [lit "1111111111"; lit "2222222222"] None)
    (lit "3333333333")
  = sample_record (lit "Ann") [lit "1111111111"; lit "2222222222"] None.
Proof.
  apply (remove_phone_removes_all_matches
           (sample_record (lit "Ann") [lit "1111111111"; lit "2222222222"] None)
           (lit "3333333333")).
  repeat constructor; vm_compute; discriminate.
Defined.

(** *** The phone list only ever holds valid phones *)

Section PhoneInvariant.

Lemma add_phone_keeps_ten_digits r phone r' :
  phones_ten_digits r -> Record_.add_phone r phone = Ok r' ->
  phones_ten_digits r'.
Proof.
  unfold Record_.add_phone, phones_ten_digits. intros Hinv H.
  destruct (Phone.__init__ phone) as [p|e] eqn:E; simpl in H; [|discriminate].
  injection H as <-. simpl.
  apply Phone_init_ok_inv in E as [Hv ->].
  apply Forall_app. split; [exact Hinv|].
  constructor; [|constructor]. now apply Phone_is_valid_spec.
Qed.

Lemma removed_all_Forall (P : Phone.t -> Prop) raw l l' :
  removed_all raw l l' -> Forall P l -> Forall P l'.
Proof.
  induction 1 as [|p l l' _ _ IH|p l l' _ _ IH]; intros Hall.
  - constructor.
  - apply Forall_cons in Hall as [_ Hall]. now apply IH.
  - apply Forall_cons in Hall as [Hp Hall]. constructor; [exact Hp | now apply IH].
Qed.

Lemma remove_phone_keeps_ten_digits r phone :
  phones_ten_digits r -> phones_ten_digits (Record_.remove_phone r phone).
Proof.
  unfold phones_ten_digits. intros Hinv.
  eapply removed_all_Forall; [|exact Hinv].
  apply filter_removed_all.
Qed.

Lemma edit_phone_loop_keeps_ten_digits r items old new r' :
  phones_ten_digits r ->
  Record_.edit_phone_loop r items old new = Ok r' ->
  phones_ten_digits r'.
Proof.
  intros Hinv. induction items as [|[i p] items IH]; simpl.
  - now intros [= <-].
  - destruct (decide (Phone.value p = old)); [|exact IH].
    destruct (Phone.__init__ new) as [np|err] eqn:E; simpl; [|discriminate].
    intros [= <-]. unfold phones_ten_digits. simpl.
    apply Phone_init_ok_inv in E as [Hv ->].
    apply Forall_insert; [exact Hinv|]. now apply Phone_is_valid_spec.
Qed.

Lemma add_birthday_keeps_phones r birthday r' :
  Record_.add_birthday r birthday = Ok r' ->
  Record_.phones r' = Record_.phones r.
Proof.
  unfold Record_.add_birthday.
  destruct (Birthday.__init__ birthday); simpl; [|discriminate].
  now intros [= <-].
Qed.

Lemma step_keeps_ten_digits r op :
  phones_ten_digits r -> phones_ten_digits (step r op).
Proof.
  intros Hinv. unfold step.
  destruct (apply_op r op) as [r'|e] eqn:E; [|exact Hinv].
  destruct op; simpl in E.
  - eapply add_phone_keeps_ten_digits; eassumption.
  - injection E as <-. now apply remove_phone_keeps_ten_digits.
  - eapply edit_phone_loop_keeps_ten_digits; eassumption.
  - unfold phones_ten_digits.
    now rewrite (add_birthday_keeps_phones _ _ _ E).
Qed.

Lemma run_keeps_ten_digits ops r :
  phones_ten_digits r -> phones_ten_digits (run r ops).
Proof.
  revert r. induction ops as [|op ops IH]; intros r Hinv; simpl; [exact Hinv|].
  apply IH, step_keeps_ten_digits, Hinv.
Qed.

End PhoneInvariant.

(** C10 (as amended): every operation on a record keeps the invariant that
    each stored phone is a string of exactly ten characters that are digits
    in the sense of [str.isdigit]; so after [Record(name)] and any sequence
    of add_phone, remove_phone, edit_phone and add_birthday calls (raising
    or not) every stored phone is such a string. *)
Theorem record_operations_keep_phones_valid :
  (forall r op, phones_ten_digits r -> phones_ten_digits (step r op))
  /\ (forall name r0 ops,
        Record_.__init__ name = Ok r0 -> phones_ten_digits (run r0 ops)).
Proof.
  split.
  - exact step_keeps_ten_digits.
  - intros name r0 ops Hinit. apply run_keeps_ten_digits.
    unfold Record_.__init__ in Hinit.
    destruct (Name.__init__ name); simpl in Hinit; [|discriminate].
    injection Hinit as <-. constructor.
Qed.

Lemma record_operations_keep_phones_valid_witness :
  phones_ten_digits
    (run (Record_.mk (Name.mk (lit "Ann")) [] None)
         [OpAddPhone (lit "1111111111"); OpAddPhone (lit "12345");
          OpEditPhone (lit "1111111111") (lit "2222222222");
          OpRemovePhone (lit "1111111111"); OpAddBirthday (lit "12.06.1990")]).
Proof.
  apply (proj2 record_operations_keep_phones_valid (lit "Ann")).
  reflexivity.
Defined.

(** C10, as stated, fails: [add_phone] on a fresh record stores a phone made
    of ten SUPERSCRIPT TWO characters, which are not decimal digits. *)
Lemma record_stores_superscript_phone :
  exists r0,
    Record_.__init__ (lit "Ann") = Ok r0
    /\ Record_.phones (run r0 [OpAddPhone superscript_twos])
       = [Phone.mk superscript_twos]
    /\ ~ phones_ten_decimal_digits (run r0 [OpAddPhone superscript_twos]).
Proof.
  eexists. split; [reflexivity|]. split; [reflexivity|].
  intros H. apply Forall_cons in H as [[_ H] _].
  apply Forall_cons in H as [Hc _]. vm_compute in Hc. discriminate.
Qed.

(* ===================================================================== *)
(** * 13. AddressBook: find and delete                                    *)
(* ===================================================================== *)

Section DictFacts.
Context {V : Type}.
Implicit Types (d : dict.t V) (k : str).

Lemma dict_get_None d k : dict.get d k = None <-> ~ In k (dict.keys d).
Proof.
  induction d as [|[k' v] d IH]; simpl.
  - tauto.
  - destruct (decide (k' = k)) as [E|E].
    + split; [discriminate | intros H; exfalso; apply H; now left].
    + rewrite IH. tauto.
Qed.

Lemma dict_contains_false d k :
  dict.contains d k = false <-> ~ In k (dict.keys d).
Proof.
  unfold dict.contains. rewrite <- dict_get_None.
  destruct (dict.get d k); split; congruence.
Qed.

(** [del d[k]] raises only when [k] is missing. *)
Lemma dict_delitem_present d k :
  dict.contains d k = true -> exists d', dict.delitem d k = Ok d'.
Proof.
  unfold dict.contains. induction d as [|[k' v] d IH]; simpl; [discriminate|].
  destruct (decide (k' = k)); [eauto|].
  intros H. destruct (IH H) as [d' ->]. simpl. eauto.
Qed.

(** A new key goes to the end, an old one keeps its place. *)
Lemma dict_keys_setitem_new d k v :
  ~ In k (dict.keys d) -> dict.keys (dict.setitem d k v) = dict.keys d ++ [k].
Proof.
  induction d as [|[k' v'] d IH]; simpl; [reflexivity|].
  intros H. destruct (decide (k' = k)) as [E|E]; [tauto|].
  simpl. f_equal. apply IH. tauto.
Qed.

Lemma dict_keys_setitem_old d k v :
  In k (dict.keys d) -> dict.keys (dict.setitem d k v) = dict.keys d.
Proof.
  induction d as [|[k' v'] d IH]; simpl; [tauto|].
  intros H. destruct (decide (k' = k)) as [E|E]; simpl; [now subst|].
  f_equal. apply IH. tauto.
Qed.
End DictFacts.

(** [delete] never raises, whatever the name. *)
Lemma AddressBook_delete_total (book : AddressBook.t) (name : str) :
  exists book', AddressBook.delete book name = Ok book'.
Proof.
  unfold AddressBook.delete.
  destruct (dict.contains book name) eqn:E; [|eauto].
  now apply dict_delitem_present.
Qed.

(** C8: for a name that is not a key of the book, [delete(name)] does not
    raise and leaves the book unchanged, and [find(name)] returns None. *)
Theorem delete_and_find_of_missing_name (book : AddressBook.t) (name : str) :
  ~ In name (dict.keys book) ->
  AddressBook.delete book name = Ok book
  /\ AddressBook.find book name = None.
Proof.
  intros H. split.
  - unfold AddressBook.delete.
    now rewrite (proj2 (dict_contains_false book name) H).
  - now apply dict_get_None.
Qed.

Lemma delete_and_find_of_missing_name_witness :
  AddressBook.delete
    (AddressBook.add_record [] (sample_record (lit "Ann") [] None))
    (lit "nonexistent")
  = Ok (AddressBook.add_record [] (sample_record (lit "Ann") [] None))
  /\ AddressBook.find
       (AddressBook.add_record [] (sample_record (lit "Ann") [] None))
       (lit "nonexistent")
     = None.
Proof.
  apply (delete_and_find_of_missing_name
           (AddressBook.add_record [] (sample_record (lit "Ann") [] None))
           (lit "nonexistent")).
  vm_compute. intros [H|[]]. discriminate.
Defined.

(* ===================================================================== *)
(** * 14. The [change] command                                            *)
(* ===================================================================== *)

Lemma change_contact_loop_raises book name record phones old new :
  Exists (fun p => Phone.value p = old) phones ->
  change_contact_loop book name record phones old new
  = (Raise no_remove_phone_attribute, book).
Proof.
  induction 1 as [p phones Hp|p phones _ IH]; simpl.
  - rewrite decide_True by exact Hp. reflexivity.
  - destruct (decide (Phone.value p = old)); [reflexivity | exact IH].
Qed.

Lemma change_contact_loop_never_updates book name record phones old new :
  change_contact_loop book name record phones old new
  = (Raise no_remove_phone_attribute, book)
  \/ change_contact_loop book name record phones old new
     = (Ok (lit "The contact " ++ name
            ++ lit " does not have the phone number " ++ old ++ lit "."),
        book).
Proof.
  induction phones as [|p phones IH]; simpl; [now right|].
  destruct (decide (Phone.value p = old)); [now left | exact IH].
Qed.

(** C9: when the book has a record under [name] and one of its phones has
    the value [old_phone], [change_contact([name, old_phone, new_phone],
    book)] raises AttributeError: 'list' object has no attribute
    'remove_phone', which [input_error] does not catch, and the book is left
    as it was; and for no arguments and no book does the handler return
    "Contact updated." or change the book. *)
Theorem change_contact_raises_AttributeError :
  (forall book name old_phone new_phone record,
     AddressBook.find book name = Some record ->
     Exists (fun p => Phone.value p = old_phone) (Record_.phones record) ->
     change_contact [name; old_phone; new_phone] book
     = (Raise no_remove_phone_attribute, book))
  /\ (forall args book,
        fst (change_contact args book) <> Ok (lit "Contact updated.")
        /\ snd (change_contact args book) = book).
Proof.
  split.
  - intros book name old new record Hfind Hex.
    unfold change_contact, input_error, change_contact_body. simpl.
    rewrite Hfind.
    now rewrite (change_contact_loop_raises book name record _ old new Hex).
  - intros args book.
    unfold change_contact, input_error, change_contact_body.
    destruct (length args <? 3)%nat; [split; [discriminate | reflexivity]|].
    destruct args as [|name [|old [|new [|x args]]]];
      try (split; [discriminate | reflexivity]).
    destruct (AddressBook.find book name) as [record|].
    + destruct (change_contact_loop_never_updates
                  book name record (Record_.phones record) old new) as [-> | ->];
        split; try reflexivity; try discriminate.
    + split; [discriminate | reflexivity].
Qed.

Lemma change_contact_raises_AttributeError_witness :
  change_contact
    [lit "Ann"; lit "1111111111"; lit "2222222222"]
    (AddressBook.add_record []
       (sample_record (lit "Ann") [lit "0000000000"; lit "1111111111"] None))
  = (Raise no_remove_phone_attribute,
     AddressBook.add_record []
       (sample_record (lit "Ann") [lit "0000000000"; lit "1111111111"] None)).
Proof.
  apply (proj1 change_contact_raises_AttributeError _ _ _ _
           (sample_record (lit "Ann") [lit "0000000000"; lit "1111111111"] None)).
  - reflexivity.
  - apply Exists_cons_tl, Exists_cons_hd. reflexivity.
Defined.

(* ===================================================================== *)
(** * 15. Dates                                                           *)
(* ===================================================================== *)

Section DateFacts.

Lemma month_cases m :
  1 <= m <= 12 ->
  m = 1 \/ m = 2 \/ m = 3 \/ m = 4 \/ m = 5 \/ m = 6 \/ m = 7 \/ m = 8
  \/ m = 9 \/ m = 10 \/ m = 11 \/ m = 12.
Proof. lia. Qed.

(** Outside February the length of a month does not depend on the year. *)
Lemma days_in_month_other y y' m :
  m <> 2 -> datetime._days_in_month y m = datetime._days_in_month y' m.
Proof.
  intros Hm. unfold datetime._days_in_month.
  destruct (Z.eqb_spec m 2) as [E|_]; [contradiction|]. reflexivity.
Qed.

Lemma days_in_february y :
  datetime._days_in_month y 2 = if datetime._is_leap y then 29 else 28.
Proof.
  unfold datetime._days_in_month. simpl. now destruct (datetime._is_leap y).
Qed.

Lemma new_ok y m d :
  datetime.MINYEAR <= y <= datetime.MAXYEAR -> 1 <= m <= 12 ->
  1 <= d <= datetime._days_in_month y m ->
  datetime.new y m d = Ok (datetime.mk y m d).
Proof.
  intros Hy Hm Hd. unfold datetime.new.
  rewrite (proj2 (Z.leb_le _ _) (proj1 Hy)), (proj2 (Z.leb_le _ _) (proj2 Hy)).
  rewrite (proj2 (Z.leb_le _ _) (proj1 Hm)), (proj2 (Z.leb_le _ _) (proj2 Hm)).
  rewrite (proj2 (Z.leb_le _ _) (proj1 Hd)), (proj2 (Z.leb_le _ _) (proj2 Hd)).
  reflexivity.
Qed.

Lemma new_ok_inv y m d dt :
  datetime.new y m d = Ok dt ->
  dt = datetime.mk y m d /\ valid_date dt.
Proof.
  unfold datetime.new, valid_date.
  destruct ((datetime.MINYEAR <=? y) && (y <=? datetime.MAXYEAR)) eqn:Ey;
    simpl; [|discriminate].
  destruct ((1 <=? m) && (m <=? 12)) eqn:Em; simpl; [|discriminate].
  destruct ((1 <=? d) && (d <=? datetime._days_in_month y m)) eqn:Ed;
    simpl; [|discriminate].
  intros [= <-]. simpl.
  apply andb_true_iff in Ey as [?%Z.leb_le ?%Z.leb_le].
  apply andb_true_iff in Em as [?%Z.leb_le ?%Z.leb_le].
  apply andb_true_iff in Ed as [?%Z.leb_le ?%Z.leb_le].
  auto.
Qed.

(** [date(...)] raises nothing but ValueError. *)
Lemma new_raises_ValueError y m d e :
  datetime.new y m d = Raise e -> exists msg, e = ValueError msg.
Proof.
  unfold datetime.new.
  repeat match goal with
         | |- context [if ?b then _ else _] => destruct b
         end; intros [= <-]; eauto.
Qed.

(** A birthday other than 29 February exists in every year. *)
Lemma replace_year_regular b y :
  valid_date b -> ~ is_feb29 b ->
  datetime.MINYEAR <= y <= datetime.MAXYEAR ->
  datetime.replace_year b y
  = Ok (datetime.mk y (datetime.month b) (datetime.day b)).
Proof.
  intros (Hy & Hm & Hd) Hfeb Hy'. unfold datetime.replace_year.
  apply new_ok; [exact Hy' | exact Hm |].
  destruct (Z.eq_dec (datetime.month b) 2) as [E|E].
  - unfold is_feb29 in Hfeb. rewrite E in *.
    rewrite days_in_february in *.
    destruct (datetime._is_leap (datetime.year b)),
             (datetime._is_leap y); lia.
  - now rewrite (days_in_month_other y (datetime.year b)).
Qed.

(** 29 February does not exist in a year that is not a leap year. *)
Lemma replace_year_feb29 b y :
  is_feb29 b -> datetime._is_leap y = false ->
  exists msg, datetime.replace_year b y = Raise (ValueError msg).
Proof.
  intros [Hm Hd] Hleap. unfold datetime.replace_year.
  destruct (datetime.new y (datetime.month b) (datetime.day b)) as [dt|e] eqn:E.
  - apply new_ok_inv in E as [-> (_ & _ & H)]. simpl in H.
    rewrite Hm, Hd, days_in_february, Hleap in H. lia.
  - apply new_raises_ValueError in E as [msg ->]. eauto.
Qed.

Lemma strftime_Y_m_d libc d :
  datetime.strftime libc d (lit "%Y-%m-%d")
  = datetime.format_Y libc (datetime.year d) ++ lit "-"
    ++ datetime.pad2 (datetime.month d) ++ lit "-"
    ++ datetime.pad2 (datetime.day d).
Proof. destruct libc; reflexivity. Qed.

Lemma strftime_d_m_Y libc d :
  datetime.strftime libc d (lit "%d.%m.%Y")
  = datetime.pad2 (datetime.day d) ++ lit "."
    ++ datetime.pad2 (datetime.month d) ++ lit "."
    ++ datetime.format_Y libc (datetime.year d).
Proof. destruct libc; simpl; rewrite ?app_nil_r; reflexivity. Qed.

Lemma format_Y_four_digits libc y :
  libc = YearZeroPadded \/ 1000 <= y ->
  datetime.format_Y libc y = datetime.pad4 y.
Proof.
  intros [-> | Hy]; [reflexivity|].
  destruct libc; [reflexivity|]. unfold datetime.format_Y, datetime.plain_year.
  destruct (Z.ltb_spec y 10); [lia|].
  destruct (Z.ltb_spec y 100); [lia|].
  destruct (Z.ltb_spec y 1000); [lia|]. reflexivity.
Qed.

End DateFacts.

(** ** Order and day numbers *)

Section DateOrder.

Local Arguments datetime._is_leap : simpl never.

Lemma days_before_year_succ y :
  datetime._days_before_year (y + 1)
  = datetime._days_before_year y + 365 + leap_day y.
Proof.
  unfold datetime._days_before_year, leap_day, datetime._is_leap.
  replace (y + 1 - 1) with y by lia.
  destruct (Z.eqb_spec (y mod 4) 0), (Z.eqb_spec (y mod 100) 0),
           (Z.eqb_spec (y mod 400) 0); simpl;
    Z.div_mod_to_equations; lia.
Qed.

Lemma days_before_year_mono y1 y2 :
  y1 <= y2 -> datetime._days_before_year y1 <= datetime._days_before_year y2.
Proof.
  intros H. unfold datetime._days_before_year.
  Z.div_mod_to_equations. lia.
Qed.

Lemma days_before_month_next y m :
  1 <= m <= 12 ->
  datetime._days_before_month y m + datetime._days_in_month y m
  = if m =? 12 then 365 + leap_day y else datetime._days_before_month y (m + 1).
Proof.
  intros Hm. unfold datetime._days_before_month, datetime._days_in_month, leap_day.
  destruct (month_cases m Hm) as [->|[->|[->|[->|[->|[->|[->|[->|[->|[->|[->| ->]]]]]]]]]]];
    simpl; destruct (datetime._is_leap y); reflexivity.
Qed.

Lemma days_before_month_mono y m1 m2 :
  1 <= m1 <= 12 -> 1 <= m2 <= 12 -> m1 <= m2 ->
  datetime._days_before_month y m1 <= datetime._days_before_month y m2.
Proof.
  intros H1 H2 Hle. unfold datetime._days_before_month.
  destruct (month_cases m1 H1) as [->|[->|[->|[->|[->|[->|[->|[->|[->|[->|[->| ->]]]]]]]]]]];
  destruct (month_cases m2 H2) as [->|[->|[->|[->|[->|[->|[->|[->|[->|[->|[->| ->]]]]]]]]]]];
    try lia; simpl; destruct (datetime._is_leap y); lia.
Qed.

Lemma days_before_month_nonneg y m :
  1 <= m <= 12 -> 0 <= datetime._days_before_month y m.
Proof.
  intros Hm. unfold datetime._days_before_month.
  destruct (month_cases m Hm) as [->|[->|[->|[->|[->|[->|[->|[->|[->|[->|[->| ->]]]]]]]]]]];
    simpl; destruct (datetime._is_leap y); lia.
Qed.

(** The last day of a year is day 365 or 366. *)
Lemma day_of_year_bound y m d :
  1 <= m <= 12 -> d <= datetime._days_in_month y m ->
  datetime._days_before_month y m + d <= 365 + leap_day y.
Proof.
  intros Hm Hd.
  pose proof (days_before_month_next y m Hm) as Hn.
  destruct (Z.eqb_spec m 12) as [->|Hne]; [lia|].
  pose proof (days_before_month_next y 12 ltac:(lia)) as H12. simpl in H12.
  pose proof (days_before_month_mono y (m + 1) 12 ltac:(lia) ltac:(lia) ltac:(lia)).
  assert (0 <= datetime._days_in_month y 12).
  { unfold datetime._days_in_month. simpl. lia. }
  lia.
Qed.

(** The order of dates is the order of their day numbers. *)
Lemma lt_toordinal a b :
  valid_date a -> valid_date b ->
  datetime.lt a b = true -> datetime.toordinal a < datetime.toordinal b.
Proof.
  intros (Hya & Hma & Hda) (Hyb & Hmb & Hdb).
  unfold datetime.lt, datetime.toordinal, datetime._ymd2ord.
  destruct a as [ya ma da], b as [yb mb db]; simpl in *.
  pose proof (days_before_month_nonneg yb mb Hmb).
  destruct (Z.ltb_spec ya yb) as [Hy|Hy]; simpl.
  - intros _.
    pose proof (day_of_year_bound ya ma da Hma (proj2 Hda)).
    pose proof (days_before_year_succ ya).
    pose proof (days_before_year_mono (ya + 1) yb ltac:(lia)). lia.
  - destruct (Z.eqb_spec ya yb) as [->|Hne]; simpl; [|discriminate].
    destruct (Z.ltb_spec ma mb) as [Hm|Hm]; simpl.
    + intros _.
      pose proof (days_before_month_next yb ma Hma) as Hn.
      destruct (Z.eqb_spec ma 12) as [->|Hne]; [lia|].
      pose proof (days_before_month_mono yb (ma + 1) mb ltac:(lia) Hmb ltac:(lia)).
      lia.
    + destruct (Z.eqb_spec ma mb) as [->|Hne]; simpl; [|discriminate].
      intros Hlt%Z.ltb_lt. lia.
Qed.

Lemma lt_total a b :
  datetime.lt a b = false -> a = b \/ datetime.lt b a = true.
Proof.
  destruct a as [ya ma da], b as [yb mb db]. unfold datetime.lt. simpl.
  destruct (Z.ltb_spec ya yb), (Z.eqb_spec ya yb), (Z.ltb_spec yb ya),
           (Z.eqb_spec yb ya); simpl; try lia; try discriminate; auto.
  subst.
  destruct (Z.ltb_spec ma mb), (Z.eqb_spec ma mb), (Z.ltb_spec mb ma),
           (Z.eqb_spec mb ma); simpl; try lia; try discriminate; auto.
  subst.
  destruct (Z.ltb_spec da db), (Z.ltb_spec db da); try lia; try discriminate;
    auto.
  intros _. left. f_equal. lia.
Qed.

Lemma lt_iff_toordinal a b :
  valid_date a -> valid_date b ->
  datetime.lt a b = (datetime.toordinal a <? datetime.toordinal b).
Proof.
  intros Ha Hb. destruct (datetime.lt a b) eqn:E.
  - symmetry. apply Z.ltb_lt. now apply lt_toordinal.
  - symmetry. apply Z.ltb_ge.
    destruct (lt_total a b E) as [->|H]; [lia|].
    apply lt_toordinal in H; [lia | assumption | assumption].
Qed.

End DateOrder.

(* ===================================================================== *)
(** * 16. Upcoming birthdays                                              *)
(* ===================================================================== *)

Section Upcoming.

Variables (libc : libc_year) (today : datetime.date) (days : Z).

Hypothesis today_valid : valid_date today.
Hypothesis today_year : datetime.year today < datetime.MAXYEAR.
Hypothesis year_four_digits :
  libc = YearZeroPadded \/ 1000 <= datetime.year today.

Lemma occurrence_year b :
  datetime.year (occurrence today b) = datetime.year today
  \/ datetime.year (occurrence today b) = datetime.year today + 1.
Proof.
  unfold occurrence.
  destruct (_ <? 0); simpl; [now right | now left].
Qed.

Lemma strftime_occurrence b :
  datetime.strftime libc (occurrence today b) (lit "%Y-%m-%d")
  = format_YYYY_MM_DD (occurrence today b).
Proof.
  rewrite strftime_Y_m_d. unfold format_YYYY_MM_DD.
  rewrite format_Y_four_digits; [reflexivity|].
  destruct year_four_digits as [H|H]; [now left | right].
  destruct (occurrence_year b) as [-> | ->]; lia.
Qed.

(** A birthday other than 29 February, put in a year of the calendar, is a
    date. *)
Lemma regular_in_year b y :
  valid_date b -> ~ is_feb29 b ->
  datetime.MINYEAR <= y <= datetime.MAXYEAR ->
  valid_date (datetime.mk y (datetime.month b) (datetime.day b)).
Proof.
  intros Hvalid Hfeb Hy.
  pose proof (replace_year_regular b y Hvalid Hfeb Hy) as H.
  now apply new_ok_inv in H as [_ H].
Qed.

(** The occurrence is never before today. *)
Lemma occurrence_on_or_after_today b :
  valid_date b -> ~ is_feb29 b ->
  0 <= days_from_to today (occurrence today b).
Proof.
  intros Hvalid Hfeb. unfold occurrence.
  destruct (Z.ltb_spec
              (days_from_to today
                 (datetime.mk (datetime.year today) (datetime.month b)
                              (datetime.day b))) 0) as [_|H]; [|exact H].
  destruct today_valid as (Hy & Hm & Hd).
  destruct Hvalid as (_ & Hmb & Hdb).
  unfold days_from_to, datetime.toordinal, datetime._ymd2ord. simpl.
  pose proof (day_of_year_bound _ _ _ Hm (proj2 Hd)).
  pose proof (days_before_year_succ (datetime.year today)).
  pose proof (days_before_month_nonneg (datetime.year today + 1) _ Hmb).
  lia.
Qed.

Local Arguments datetime.strftime : simpl never.
Local Arguments lit : simpl never.

(** The loop adds to the list built so far what the specification says
    each record contributes, in the order of the records. *)
Lemma upcoming_loop_spec records acc :
  records_regular records ->
  AddressBook.upcoming_loop libc today days records acc
  = Ok (acc ++ upcoming_spec today days records).
Proof.
  revert acc. induction records as [|r records IH]; intros acc Hreg; simpl.
  - now rewrite app_nil_r.
  - apply Forall_cons in Hreg as [Hr Hreg].
    unfold upcoming_of_record.
    destruct (Record_.birthday r) as [b|] eqn:Eb; [|now apply IH].
    destruct (Hr b eq_refl) as [Hvalid Hfeb].
    assert (Hyear : datetime.MINYEAR <= datetime.year today
                    /\ datetime.year today + 1 <= datetime.MAXYEAR)
      by (destruct today_valid as [? _]; lia).
    rewrite (replace_year_regular _ (datetime.year today) Hvalid Hfeb)
      by lia.
    simpl.
    assert (Hocc :
      (if datetime.lt (datetime.mk (datetime.year today)
                                   (datetime.month (Birthday.value b))
                                   (datetime.day (Birthday.value b))) today
       then datetime.replace_year
              (datetime.mk (datetime.year today)
                           (datetime.month (Birthday.value b))
                           (datetime.day (Birthday.value b)))
              (datetime.year today + 1)
       else Ok (datetime.mk (datetime.year today)
                            (datetime.month (Birthday.value b))
                            (datetime.day (Birthday.value b))))
      = Ok (occurrence today (Birthday.value b))).
    { unfold occurrence, days_from_to.
      rewrite lt_iff_toordinal
        by (try exact today_valid; apply regular_in_year; auto; lia).
      replace (datetime.toordinal _ - datetime.toordinal today <? 0)
        with (datetime.toordinal
                (datetime.mk (datetime.year today)
                             (datetime.month (Birthday.value b))
                             (datetime.day (Birthday.value b)))
              <? datetime.toordinal today)
        by (destruct (Z.ltb_spec (datetime.toordinal
                (datetime.mk (datetime.year today)
                             (datetime.month (Birthday.value b))
                             (datetime.day (Birthday.value b))))
                (datetime.toordinal today));
            symmetry; [apply Z.ltb_lt | apply Z.ltb_ge]; lia).
      destruct (_ <? datetime.toordinal today); [|reflexivity].
      change (datetime.replace_year (datetime.mk _ _ _) ?y)
        with (datetime.replace_year (Birthday.value b) y).
      rewrite (replace_year_regular _ (datetime.year today + 1) Hvalid Hfeb)
        by (unfold datetime.MINYEAR in *; lia).
      reflexivity. }
    rewrite Hocc. simpl.
    unfold days_from_to, datetime.sub_days.
    destruct ((0 <=? _) && (_ <=? days)).
    + rewrite IH by exact Hreg.
      rewrite strftime_occurrence, <- app_assoc. reflexivity.
    + now apply IH.
Qed.

End Upcoming.

(** Whatever the other records, a 29 February birthday makes the query
    raise in a year that is not a leap year. *)
Lemma upcoming_loop_feb29 libc today days records acc :
  datetime._is_leap (datetime.year today) = false ->
  Exists (fun r => exists b, Record_.birthday r = Some b
                             /\ is_feb29 (Birthday.value b)) records ->
  exists msg,
    AddressBook.upcoming_loop libc today days records acc
    = Raise (ValueError msg).
Proof.
  intros Hleap Hex. revert acc.
  induction Hex as [r records (b & Eb & Hfeb)|r records _ IH]; intros acc; simpl.
  - rewrite Eb.
    destruct (replace_year_feb29 _ _ Hfeb Hleap) as [msg ->]. simpl. eauto.
  - destruct (Record_.birthday r) as [b|]; [|apply IH].
    destruct (datetime.replace_year (Birthday.value b) (datetime.year today))
      as [d1|e] eqn:E1; simpl.
    2:{ apply new_raises_ValueError in E1 as [msg ->]. eauto. }
    destruct (datetime.lt d1 today).
    + destruct (datetime.replace_year d1 (datetime.year today + 1))
        as [d2|e] eqn:E2; simpl.
      2:{ apply new_raises_ValueError in E2 as [msg ->]. eauto. }
      destruct ((0 <=? _) && (_ <=? days)); apply IH.
    + simpl. destruct ((0 <=? _) && (_ <=? days)); apply IH.
Qed.

(** C1 (as amended): when no stored birthday is a 29 February and today's
    year is between 1000 and 9998 (from 1 on when [%Y] is zero-padded),
    [get_upcoming_birthdays(days)] returns, in the insertion order of the
    book, one entry for each record with a birthday whose occurrence (this
    year's month/day, next year's if that fell before today) lies 0 to
    [days] days after today, with the record's name and the occurrence
    written YYYY-MM-DD.  In particular a birthday 01.01.1990 with today
    2024-12-28 and 7 days gives the entry "2025-01-01". *)
Theorem get_upcoming_birthdays_window
    (libc : libc_year) (today : datetime.date) (book : AddressBook.t)
    (days : Z) :
  valid_date today ->
  datetime.year today < datetime.MAXYEAR ->
  libc = YearZeroPadded \/ 1000 <= datetime.year today ->
  birthdays_regular book ->
  exists upcoming,
    AddressBook.get_upcoming_birthdays libc today book days = Ok upcoming
    /\ upcoming = upcoming_spec today days (dict.values book)
    /\ (today = datetime.mk 2024 12 28 -> days = 7 ->
        forall r, In r (dict.values book) ->
          Record_.birthday r = Some (Birthday.mk (datetime.mk 1990 1 1)) ->
          In (mk_congratulation (Name.value (Record_.name r))
                                (lit "2025-01-01"))
             upcoming).
Proof.
  intros Htoday Hmax Hfour Hreg.
  eexists. split; [|split; [reflexivity|]].
  - unfold AddressBook.get_upcoming_birthdays.
    now rewrite (upcoming_loop_spec libc today days).
  - intros -> -> r Hin Hb.
    unfold upcoming_spec. apply in_flat_map. exists r. split; [exact Hin|].
    unfold upcoming_of_record. rewrite Hb. now left.
Qed.

Lemma get_upcoming_birthdays_window_witness :
  AddressBook.get_upcoming_birthdays YearPlain (datetime.mk 2024 12 28)
                                     book_new_year 7
  = Ok [mk_congratulation (lit "Bob") (lit "2025-01-01")].
Proof.
  destruct (get_upcoming_birthdays_window
              YearPlain (datetime.mk 2024 12 28) book_new_year 7)
    as (upcoming & -> & -> & _).
  - vm_compute. repeat split; discriminate.
  - reflexivity.
  - right. vm_compute. discriminate.
  - unfold birthdays_regular, records_regular.
    set (l := dict.values _). vm_compute in l. subst l.
    repeat (apply List.Forall_cons;
            [intros b [= <-]; split;
             [vm_compute; repeat split; discriminate
             |intros [H1 H2]; discriminate]|]).
    apply List.Forall_nil.
  - reflexivity.
Defined.

(** C1, as stated for every book and every today, fails: with a
    29 February birthday in the book the query raises instead of returning
    the entries of the other records; in year 9999 a birthday that has
    passed makes it raise; and where [%Y] is not zero-padded a year below
    1000 is not written with four digits. *)
Lemma get_upcoming_birthdays_not_for_every_book :
  AddressBook.get_upcoming_birthdays YearZeroPadded (datetime.mk 2023 2 27)
                                     book_leapling 7
  = Raise (ValueError (lit "day is out of range for month"))
  /\ upcoming_spec (datetime.mk 2023 2 27) 7
       [sample_record (lit "Bob") [] (Some (datetime.mk 1990 3 1))]
     = [mk_congratulation (lit "Bob") (lit "2023-03-01")]
  /\ AddressBook.get_upcoming_birthdays YearZeroPadded (datetime.mk 9999 12 28)
                                        book_new_year 7
     = Raise (ValueError (lit "year 10000 is out of range"))
  /\ AddressBook.get_upcoming_birthdays YearPlain (datetime.mk 999 12 28)
                                        book_new_year 7
     = Ok [mk_congratulation (lit "Bob") (lit "1000-01-01")]
  /\ AddressBook.get_upcoming_birthdays YearPlain (datetime.mk 999 6 10)
                                        book_new_year 7
     = Ok [mk_congratulation (lit "Ann") (lit "999-06-12")].
Proof. repeat split; reflexivity. Qed.

(** C2: with a 29 February birthday in the book and today in a year that is
    not a leap year, [get_upcoming_birthdays] does not return: the
    [replace(year=today.year)] of that birthday (or an earlier record's)
    raises ValueError, which nothing in the method catches. *)
Theorem get_upcoming_birthdays_raises_on_feb29
    (libc : libc_year) (today : datetime.date) (book : AddressBook.t)
    (days : Z) :
  datetime._is_leap (datetime.year today) = false ->
  Exists (fun r => exists b, Record_.birthday r = Some b
                             /\ is_feb29 (Birthday.value b))
         (dict.values book) ->
  exists msg,
    AddressBook.get_upcoming_birthdays libc today book days
    = Raise (ValueError msg).
Proof. intros Hleap Hex. now apply upcoming_loop_feb29. Qed.

Lemma get_upcoming_birthdays_raises_on_feb29_witness :
  exists msg,
    AddressBook.get_upcoming_birthdays
      YearZeroPadded (datetime.mk 2023 3 1)
      (AddressBook.add_record []
         (sample_record (lit "Eve") [] (Some (datetime.mk 2000 2 29)))) 7
    = Raise (ValueError msg).
Proof.
  apply (get_upcoming_birthdays_raises_on_feb29
           YearZeroPadded (datetime.mk 2023 3 1)
           (AddressBook.add_record []
              (sample_record (lit "Eve") [] (Some (datetime.mk 2000 2 29)))) 7).
  - reflexivity.
  - apply Exists_cons_hd. eexists. split; [reflexivity|]. split; reflexivity.
Defined.

(* ===================================================================== *)
(** * 17. Matching                                                        *)
(* ===================================================================== *)

Section Matching.

Implicit Types (r : regex) (s t rest : str) (g : groupdict).

Local Arguments in_range : simpl never.
Local Arguments isdecimal_char : simpl never.

(** What a match consumes is a prefix of the input. *)
Lemma rmatch_prefix r : forall s g t rest g',
  In (t, rest, g') (rmatch r s g) -> s = t ++ rest.
Proof.
  induction r as [|c|lo hi| |r1 IH1 r2 IH2|r1 IH1 r2 IH2|name r IH];
    intros s g t rest g' H; simpl in H.
  - destruct H as [[= <- <- <-]|[]]. reflexivity.
  - destruct s as [|x s]; [destruct H|].
    destruct (x =? c)%N; [|destruct H].
    destruct H as [[= <- <- <-]|[]]. reflexivity.
  - destruct s as [|x s]; [destruct H|].
    destruct (in_range lo hi x); [|destruct H].
    destruct H as [[= <- <- <-]|[]]. reflexivity.
  - destruct s as [|x s]; [destruct H|].
    destruct (isdecimal_char x); [|destruct H].
    destruct H as [[= <- <- <-]|[]]. reflexivity.
  - apply in_flat_map in H as ([[t1 s1] g1] & H1 & H2).
    apply in_map_iff in H2 as ([[t2 s2] g2] & [= <- <- <-] & H2).
    rewrite (IH1 _ _ _ _ _ H1), (IH2 _ _ _ _ _ H2).
    now rewrite app_assoc.
  - apply in_app_or in H as [H|H]; eauto.
  - apply in_map_iff in H as ([[t' s'] g''] & [= <- <- <-] & H). eauto.
Qed.

Lemma in_rmatch_char c s g t rest g' :
  In (t, rest, g') (rmatch (RChar c) s g)
  <-> t = [c] /\ s = c :: rest /\ g' = g.
Proof.
  simpl. destruct s as [|x s].
  - split; [intros [] | intros (_ & [=] & _)].
  - destruct (N.eqb_spec x c) as [->|Hne]; simpl.
    + split; [intros [[= <- <- <-]|[]]; auto | intros (-> & [= ->] & ->); auto].
    + split; [intros [] | intros (_ & [= E _] & _); congruence].
Qed.

Lemma in_rmatch_seq r1 r2 s g t rest g' :
  In (t, rest, g') (rmatch (RSeq r1 r2) s g)
  <-> exists t1 s1 g1 t2,
        In (t1, s1, g1) (rmatch r1 s g)
        /\ In (t2, rest, g') (rmatch r2 s1 g1)
        /\ t = t1 ++ t2.
Proof.
  simpl. rewrite in_flat_map. split.
  - intros ([[t1 s1] g1] & H1 & H2).
    apply in_map_iff in H2 as ([[t2 s2] g2] & [= <- <- <-] & H2).
    exists t1, s1, g1, t2. auto.
  - intros (t1 & s1 & g1 & t2 & H1 & H2 & ->).
    exists (t1, s1, g1). split; [exact H1|].
    apply in_map_iff. exists (t2, rest, g'). auto.
Qed.

Lemma in_rmatch_empty s g t rest g' :
  In (t, rest, g') (rmatch REmpty s g) <-> t = [] /\ rest = s /\ g' = g.
Proof.
  simpl. split; [intros [[= <- <- <-]|[]]; auto | intros (-> & -> & ->); auto].
Qed.

(** Resolve the tests a match made on the first characters. *)
Ltac split_tests H :=
  repeat match type of H with
         | context [if ?b then _ else _] => destruct b eqn:?; simpl in H
         end.

Ltac list_cases H :=
  simpl in H;
  repeat match type of H with
         | _ \/ _ => destruct H as [H|H]
         | False => destruct H
         | (_, _, _) = (_, _, _) => injection H as <- <- <-
         end.

Ltac try_all_tests :=
  simpl;
  repeat match goal with
         | |- context [if ?b then _ else _] => destruct b; simpl
         | |- context [match ?l with [] => _ | _ :: _ => _ end] =>
             destruct l; simpl
         end;
  try discriminate; auto 12.

Ltac known_tests :=
  unfold is_true in *;
  repeat match goal with
         | H : (_ =? _)%N = true |- _ => apply N.eqb_eq in H; subst
         end.

Lemma in_TimeRE_d s g t rest g' :
  In (t, rest, g') (rmatch TimeRE_d s g)
  <-> day_field t /\ s = t ++ rest /\ g' = ("d"%string, t) :: g.
Proof.
  let r := eval vm_compute in TimeRE_d in change TimeRE_d with r.
  split.
  - intros H. assert (Hs := rmatch_prefix _ _ _ _ _ _ H).
    cut (day_field t /\ g' = ("d"%string, t) :: g); [tauto|]. clear Hs.
    destruct s as [|c1 [|c2 s]]; simpl in H;
      split_tests H; list_cases H; known_tests; try discriminate;
      (split; [unfold day_field; eauto 12 | reflexivity]).
  - intros (Hd & -> & ->).
    destruct Hd as [(c & -> & H)|[(c1 & c2 & -> & H1 & H2)|[(c & -> & H)
                   |[(c & -> & H)|(c & -> & H)]]]];
      unfold is_true in *; try_all_tests.
Qed.


Lemma in_TimeRE_m s g t rest g' :
  In (t, rest, g') (rmatch TimeRE_m s g)
  <-> month_field t /\ s = t ++ rest /\ g' = ("m"%string, t) :: g.
Proof.
  let r := eval vm_compute in TimeRE_m in change TimeRE_m with r.
  split.
  - intros H. assert (Hs := rmatch_prefix _ _ _ _ _ _ H).
    cut (month_field t /\ g' = ("m"%string, t) :: g); [tauto|]. clear Hs.
    destruct s as [|c1 [|c2 s]]; simpl in H;
      split_tests H; list_cases H; known_tests; try discriminate;
      (split; [unfold month_field; eauto 12 | reflexivity]).
  - intros (Hd & -> & ->).
    destruct Hd as [(c & -> & H)|[(c & -> & H)|(c & -> & H)]];
      unfold is_true in *; try_all_tests.
Qed.

Lemma year_field_inv t :
  year_field t ->
  exists a b c d,
    t = [a; b; c; d]
    /\ isdecimal_char a = true /\ isdecimal_char b = true
    /\ isdecimal_char c = true /\ isdecimal_char d = true.
Proof.
  intros [Hlen Hall].
  destruct t as [|a [|b [|c [|d [|e t]]]]]; try discriminate.
  apply Forall_cons in Hall as [Ha Hall].
  apply Forall_cons in Hall as [Hb Hall].
  apply Forall_cons in Hall as [Hc Hall].
  apply Forall_cons in Hall as [Hd _].
  exists a, b, c, d. auto.
Qed.

Lemma in_TimeRE_Y s g t rest g' :
  In (t, rest, g') (rmatch TimeRE_Y s g)
  <-> year_field t /\ s = t ++ rest /\ g' = ("Y"%string, t) :: g.
Proof.
  split.
  - intros H. assert (Hs := rmatch_prefix _ _ _ _ _ _ H).
    cut (year_field t /\ g' = ("Y"%string, t) :: g); [tauto|]. clear Hs.
    destruct s as [|c1 [|c2 [|c3 [|c4 s]]]]; simpl in H;
      split_tests H; list_cases H;
      (split; [split; [reflexivity | repeat constructor; assumption]
              | reflexivity]).
  - intros (Hy & -> & ->).
    apply year_field_inv in Hy as (a & b & c & d & -> & Ha & Hb & Hc & Hd).
    simpl. rewrite Ha. simpl. rewrite Hb. simpl. rewrite Hc. simpl.
    rewrite Hd. simpl. auto.
Qed.

Lemma TimeRE_pattern_dmY : TimeRE_pattern (lit "%d.%m.%Y") = Some DMY_regex.
Proof. reflexivity. Qed.

Lemma in_DMY_regex s t rest g' :
  In (t, rest, g') (rmatch DMY_regex s [])
  <-> exists D M Y,
        t = D ++ [ord_dot] ++ M ++ [ord_dot] ++ Y
        /\ s = t ++ rest
        /\ day_field D /\ month_field M /\ year_field Y
        /\ g' = DMY_groups D M Y.
Proof.
  unfold DMY_regex. split.
  - intros H. assert (Hs := rmatch_prefix _ _ _ _ _ _ H).
    apply in_rmatch_seq in H as (D & s1 & g1 & t1 & HD & H & ->).
    apply in_TimeRE_d in HD as (HD & _ & ->).
    apply in_rmatch_seq in H as (p1 & s2 & g2 & t2 & Hp1 & H & ->).
    apply in_rmatch_char in Hp1 as (-> & -> & ->).
    apply in_rmatch_seq in H as (M & s3 & g3 & t3 & HM & H & ->).
    apply in_TimeRE_m in HM as (HM & _ & ->).
    apply in_rmatch_seq in H as (p2 & s4 & g4 & t4 & Hp2 & H & ->).
    apply in_rmatch_char in Hp2 as (-> & -> & ->).
    apply in_rmatch_seq in H as (Y & s5 & g5 & t5 & HY & H & ->).
    apply in_TimeRE_Y in HY as (HY & _ & ->).
    apply in_rmatch_empty in H as (-> & -> & ->).
    exists D, M, Y. rewrite app_nil_r in *.
    split; [reflexivity|]. split; [exact Hs|]. auto.
  - intros (D & M & Y & -> & -> & HD & HM & HY & ->).
    apply in_rmatch_seq.
    exists D, ([ord_dot] ++ M ++ [ord_dot] ++ Y ++ rest),
           [("d"%string, D)], ([ord_dot] ++ M ++ [ord_dot] ++ Y).
    split; [|split; [|reflexivity]].
    { apply in_TimeRE_d. split; [exact HD|]. split; [|reflexivity].
      now rewrite <- ?app_assoc. }
    apply in_rmatch_seq.
    exists [ord_dot], (M ++ [ord_dot] ++ Y ++ rest),
           [("d"%string, D)], (M ++ [ord_dot] ++ Y).
    split; [|split; [|reflexivity]].
    { apply in_rmatch_char. auto. }
    apply in_rmatch_seq.
    exists M, ([ord_dot] ++ Y ++ rest),
           [("m"%string, M); ("d"%string, D)], ([ord_dot] ++ Y).
    split; [|split; [|reflexivity]].
    { apply in_TimeRE_m. split; [exact HM|]. split; [|reflexivity].
      now rewrite <- ?app_assoc. }
    apply in_rmatch_seq.
    exists [ord_dot], (Y ++ rest), [("m"%string, M); ("d"%string, D)], Y.
    split; [|split; [|reflexivity]].
    { apply in_rmatch_char. auto. }
    apply in_rmatch_seq.
    exists Y, rest, (DMY_groups D M Y), [].
    split; [|split; [|now rewrite app_nil_r]].
    { apply in_TimeRE_Y. auto. }
    apply in_rmatch_empty. auto.
Qed.

End Matching.

(* ===================================================================== *)
(** * 18. Parsing a birthday                                              *)
(* ===================================================================== *)

Section Parsing.

Implicit Types (s t D M Y : str).

Local Arguments decimal : simpl never.
Local Arguments isdecimal_char : simpl never.
Local Arguments in_range : simpl never.

Lemma isdecimal_decimal c :
  isdecimal_char c = true -> exists v, decimal c = Some v.
Proof. unfold isdecimal_char. destruct (decimal c); [eauto | discriminate]. Qed.

Lemma isdecimal_not_dot c : isdecimal_char c = true -> c <> ord_dot.
Proof. intros H ->. vm_compute in H. discriminate. Qed.

Lemma isdecimal_not_space c : isdecimal_char c = true -> c <> ord_space.
Proof. intros H ->. vm_compute in H. discriminate. Qed.

Lemma in_range_digit lo hi c :
  in_range lo hi c = true -> (48 <= lo)%N -> (hi <= 57)%N ->
  isdecimal_char c = true.
Proof.
  intros H Hlo Hhi. apply in_range_spec in H.
  apply ascii_digit_isdecimal, in_range_spec. lia.
Qed.

(** A field is a run of decimal digits, or a space and one digit. *)
Lemma day_field_digits D :
  day_field D ->
  (D <> [] /\ Forall (fun c => is_true (isdecimal_char c)) D)
  \/ (exists c, D = [ord_space; c] /\ isdecimal_char c = true).
Proof.
  unfold is_true.
  intros [(c & -> & H)|[(c1 & c2 & -> & H1 & H2)|[(c & -> & H)
         |[(c & -> & H)|(c & -> & H)]]]].
  - left. split; [discriminate|]. repeat constructor.
    eapply in_range_digit; [exact H | lia | lia].
  - left. split; [discriminate|]. repeat constructor; [|exact H2].
    eapply in_range_digit; [exact H1 | lia | lia].
  - left. split; [discriminate|]. repeat constructor.
    eapply in_range_digit; [exact H | lia | lia].
  - left. split; [discriminate|]. repeat constructor.
    eapply in_range_digit; [exact H | lia | lia].
  - right. exists c. split; [reflexivity|].
    eapply in_range_digit; [exact H | lia | lia].
Qed.

Lemma month_field_digits M :
  month_field M ->
  M <> [] /\ Forall (fun c => is_true (isdecimal_char c)) M.
Proof.
  unfold is_true.
  intros [(c & -> & H)|[(c & -> & H)|(c & -> & H)]];
    (split; [discriminate|]); repeat constructor;
    eapply in_range_digit; try exact H; lia.
Qed.

Lemma year_field_digits Y :
  year_field Y -> Y <> [] /\ Forall (fun c => is_true (isdecimal_char c)) Y.
Proof. intros [Hlen Hall]. split; [|exact Hall]. now destruct Y. Qed.

Lemma decimal_no_dot t :
  Forall (fun c => is_true (isdecimal_char c)) t -> ~ In ord_dot t.
Proof.
  induction 1 as [|c t Hc _ IH]; simpl; [tauto|].
  intros [E|Hin]; [|tauto]. now apply isdecimal_not_dot in Hc.
Qed.

Lemma day_field_no_dot D : day_field D -> ~ In ord_dot D.
Proof.
  intros H. destruct (day_field_digits D H) as [[_ Hall]|(c & -> & Hc)].
  - now apply decimal_no_dot.
  - simpl. intros [E|[E|[]]]; [discriminate|].
    now apply isdecimal_not_dot in Hc.
Qed.

Lemma month_field_no_dot M : month_field M -> ~ In ord_dot M.
Proof. intros H. apply decimal_no_dot. now apply month_field_digits. Qed.

(** A text is cut at its first dot in one way only. *)
Lemma first_dot_unique D D' (X X' : str) :
  ~ In ord_dot D -> ~ In ord_dot D' ->
  D ++ ord_dot :: X = D' ++ ord_dot :: X' -> D = D' /\ X = X'.
Proof.
  revert D'. induction D as [|c D IH]; intros [|c' D'] HD HD' E; simpl in *.
  - injection E as ->. auto.
  - injection E as <- _. tauto.
  - injection E as -> _. tauto.
  - injection E as -> E. destruct (IH D') as [-> ->]; auto.
Qed.

(** *** [int] on the fields *)

Lemma int_digits_decimal t : forall acc,
  Forall (fun c => is_true (isdecimal_char c)) t ->
  datetime.int_digits acc t
  = Some (fold_left (fun a c => 10 * a + char_value c) t acc).
Proof.
  induction t as [|c t IH]; intros acc Hall; simpl; [reflexivity|].
  apply Forall_cons in Hall as [Hc Hall].
  unfold char_value at 2.
  destruct (isdecimal_decimal c Hc) as [v ->]. now apply IH.
Qed.

Lemma int_decimal_text t :
  t <> [] -> Forall (fun c => is_true (isdecimal_char c)) t ->
  datetime.int t = Ok (text_value t).
Proof.
  intros Hne Hall. unfold datetime.int.
  destruct t as [|c t]; [contradiction|].
  assert (Hc : isdecimal_char c = true) by now apply Forall_cons in Hall.
  assert (Hstrip : datetime.lstrip_space (c :: t) = c :: t).
  { simpl. destruct (N.eqb_spec c ord_space) as [E|_]; [|reflexivity].
    now apply isdecimal_not_space in Hc. }
  rewrite Hstrip, (int_digits_decimal (c :: t) 0 Hall). reflexivity.
Qed.

Lemma int_day_field D : day_field D -> datetime.int D = Ok (text_value D).
Proof.
  intros H. destruct (day_field_digits D H) as [[Hne Hall]|(c & -> & Hc)].
  - now apply int_decimal_text.
  - assert (Hstrip : datetime.lstrip_space [ord_space; c] = [c]).
    { simpl. destruct (N.eqb_spec c ord_space) as [E|_]; [|reflexivity].
      now apply isdecimal_not_space in Hc. }
    unfold datetime.int. rewrite Hstrip.
    rewrite (int_digits_decimal [c] 0) by (repeat constructor; exact Hc).
    reflexivity.
Qed.

Lemma int_month_field M : month_field M -> datetime.int M = Ok (text_value M).
Proof. intros H. apply int_decimal_text; now apply month_field_digits. Qed.

Lemma int_year_field Y : year_field Y -> datetime.int Y = Ok (text_value Y).
Proof. intros H. apply int_decimal_text; now apply year_field_digits. Qed.

Lemma convert_DMY_groups D M Y :
  day_field D -> month_field M -> year_field Y ->
  datetime.convert (DMY_groups D M Y) (1900, 1, 1)
  = Ok (text_value Y, text_value M, text_value D).
Proof.
  intros HD HM HY. unfold DMY_groups. simpl.
  rewrite (int_year_field Y HY). simpl.
  rewrite (int_month_field M HM). simpl.
  rewrite (int_day_field D HD). reflexivity.
Qed.

(** *** The first match *)

Lemma re_match_DMY_sound s found rest gd :
  re_match DMY_regex s = Some (found, rest, gd) ->
  exists D M Y,
    found = D ++ [ord_dot] ++ M ++ [ord_dot] ++ Y
    /\ s = found ++ rest
    /\ day_field D /\ month_field M /\ year_field Y
    /\ gd = DMY_groups D M Y.
Proof.
  unfold re_match. intros H. apply in_DMY_regex.
  destruct (rmatch DMY_regex s []) as [|m l]; [discriminate|].
  injection H as ->. now left.
Qed.

Lemma re_match_DMY_complete D M Y :
  day_field D -> month_field M -> year_field Y ->
  re_match DMY_regex (D ++ [ord_dot] ++ M ++ [ord_dot] ++ Y)
  = Some (D ++ [ord_dot] ++ M ++ [ord_dot] ++ Y, [], DMY_groups D M Y).
Proof.
  intros HD HM HY.
  set (s := D ++ [ord_dot] ++ M ++ [ord_dot] ++ Y).
  assert (Hin : In (s, [], DMY_groups D M Y) (rmatch DMY_regex s [])).
  { apply in_DMY_regex. exists D, M, Y. rewrite app_nil_r. auto 10. }
  destruct (re_match DMY_regex s) as [[[found rest] gd]|] eqn:E.
  - apply re_match_DMY_sound in E
      as (D' & M' & Y' & -> & Hs & HD' & HM' & HY' & ->).
    subst s. simpl in Hs. rewrite <- !app_assoc in Hs. simpl in Hs.
    apply first_dot_unique in Hs as [<- Hs];
      [|now apply day_field_no_dot | now apply day_field_no_dot].
    rewrite <- !app_assoc in Hs. simpl in Hs.
    apply first_dot_unique in Hs as [<- Hs];
      [|now apply month_field_no_dot | now apply month_field_no_dot].
    assert (rest = [] /\ Y' = Y) as [-> ->].
    { destruct HY as [HlY _], HY' as [HlY' _].
      assert (Hl := f_equal length Hs). rewrite length_app in Hl.
      assert (rest = []) as -> by (apply length_zero_iff_nil; lia).
      rewrite app_nil_r in Hs. auto. }
    reflexivity.
  - unfold re_match in E.
    destruct (rmatch DMY_regex s []); [destruct Hin | discriminate].
Qed.

Lemma new_real_calendar_date y m d dt :
  datetime.new y m d = Ok dt
  <-> real_calendar_date y m d /\ dt = datetime.mk y m d.
Proof.
  split.
  - intros H. apply new_ok_inv in H as [-> (Hy & Hm & Hd)]. simpl in *.
    unfold real_calendar_date, datetime.MINYEAR, datetime.MAXYEAR in *. auto.
  - intros [(Hy & Hm & Hd) ->]. now apply new_ok.
Qed.

(** [datetime.strptime(s, "%d.%m.%Y").date()] succeeds exactly on the
    texts made of a day field, a dot, a month field, a dot and a year field
    that name a calendar day. *)
Lemma strptime_date_lenient s dt :
  datetime.strptime_date s (lit "%d.%m.%Y") = Ok dt
  <-> lenient_date_text s dt.
Proof.
  unfold datetime.strptime_date, datetime._strptime, lenient_date_text.
  rewrite TimeRE_pattern_dmY. split.
  - destruct (re_match DMY_regex s) as [[[found rest] gd]|] eqn:E;
      [|discriminate].
    apply re_match_DMY_sound in E
      as (D & M & Y & -> & -> & HD & HM & HY & ->).
    destruct (length _ =? length _)%nat eqn:El; cbn [negb bind];
      [|discriminate].
    apply Nat.eqb_eq in El. rewrite length_app in El.
    assert (rest = []) as -> by (apply length_zero_iff_nil; lia).
    rewrite app_nil_r.
    rewrite (convert_DMY_groups D M Y HD HM HY). cbn [bind].
    destruct (datetime.new (text_value Y) (text_value M) (text_value D))
      as [dt'|e] eqn:En; cbn [bind]; [|discriminate].
    rewrite En. intros [= <-].
    apply new_real_calendar_date in En as [Hreal ->].
    exists D, M, Y. auto 10.
  - intros (D & M & Y & -> & HD & HM & HY & Hreal & ->).
    rewrite (re_match_DMY_complete D M Y HD HM HY).
    rewrite Nat.eqb_refl. cbn [negb bind].
    rewrite (convert_DMY_groups D M Y HD HM HY). cbn [bind].
    assert (En : datetime.new (text_value Y) (text_value M) (text_value D)
                 = Ok (datetime.mk (text_value Y) (text_value M) (text_value D)))
      by now apply new_real_calendar_date.
    rewrite En. cbn [bind]. exact En.
Qed.

(** [strptime] raises nothing but ValueError. *)
Lemma strptime_date_raises_ValueError s e :
  datetime.strptime_date s (lit "%d.%m.%Y") = Raise e ->
  exists msg, e = ValueError msg.
Proof.
  unfold datetime.strptime_date, datetime._strptime.
  rewrite TimeRE_pattern_dmY.
  destruct (re_match DMY_regex s) as [[[found rest] gd]|] eqn:E;
    [|intros [= <-]; eauto].
  apply re_match_DMY_sound in E
    as (D & M & Y & -> & -> & HD & HM & HY & ->).
  destruct (length _ =? length _)%nat; cbn [negb bind];
    [|intros [= <-]; eauto].
  rewrite (convert_DMY_groups D M Y HD HM HY). cbn [bind].
  destruct (datetime.new (text_value Y) (text_value M) (text_value D))
    as [dt'|e'] eqn:En; cbn [bind].
  - rewrite En. discriminate.
  - intros [= <-]. now apply new_raises_ValueError in En.
Qed.

End Parsing.

Section BirthdayFacts.

Local Arguments decimal : simpl never.
Local Arguments isdecimal_char : simpl never.
Local Arguments in_range : simpl never.
Local Arguments char_value : simpl never.
Local Arguments datetime.strptime_date : simpl never.
Local Arguments datetime.strftime : simpl never.
Local Arguments lit : simpl never.

Lemma Birthday_init_ok s dt :
  Birthday.__init__ s = Ok (Birthday.mk dt)
  <-> datetime.strptime_date s (lit "%d.%m.%Y") = Ok dt.
Proof.
  unfold Birthday.__init__.
  destruct (datetime.strptime_date s (lit "%d.%m.%Y")) as [dt'|e] eqn:E;
    simpl.
  - split; intros [= ->]; reflexivity.
  - destruct e; simpl; split; discriminate.
Qed.

Lemma Birthday_init_total s :
  (exists dt, Birthday.__init__ s = Ok (Birthday.mk dt))
  \/ Birthday.__init__ s
     = Raise (ValueError (lit "Invalid date format. Use DD.MM.YYYY")).
Proof.
  unfold Birthday.__init__.
  destruct (datetime.strptime_date s (lit "%d.%m.%Y")) as [dt'|e] eqn:E;
    simpl.
  - left. eauto.
  - right. apply strptime_date_raises_ValueError in E as [msg ->].
    reflexivity.
Qed.

(** *** ASCII digits and the numbers they write *)

Lemma ascii_digit_cases c :
  is_ascii_digit c = true ->
  (c = 48 \/ c = 49 \/ c = 50 \/ c = 51 \/ c = 52 \/ c = 53 \/ c = 54
   \/ c = 55 \/ c = 56 \/ c = 57)%N.
Proof. intros H. apply in_range_spec in H. lia. Qed.

Ltac each_digit H :=
  apply ascii_digit_cases in H;
  destruct H as [->|[->|[->|[->|[->|[->|[->|[->|[->| ->]]]]]]]]].

Lemma char_value_ascii_digit c :
  is_ascii_digit c = true ->
  0 <= char_value c <= 9 /\ digit_char (Z.to_N (char_value c)) = c.
Proof. intros H. each_digit H; vm_compute; intuition discriminate. Qed.

Lemma days_in_month_le_31 y m : datetime._days_in_month y m <= 31.
Proof.
  unfold datetime._days_in_month.
  destruct ((m =? 2) && datetime._is_leap y); [lia|].
  destruct (Z.to_nat m) as [|[|[|[|[|[|[|[|[|[|[|[|[|[|n]]]]]]]]]]]]]];
    simpl; lia.
Qed.

Lemma day_field_of_digits d1 d2 :
  is_ascii_digit d1 = true -> is_ascii_digit d2 = true ->
  1 <= text_value [d1; d2] <= 31 -> day_field [d1; d2].
Proof.
  intros H1 H2 Hv. unfold day_field, is_true.
  each_digit H1; each_digit H2; vm_compute in Hv;
    try (exfalso; destruct Hv as [Ha Hb]; (now apply Ha) || (now apply Hb));
    eauto 10.
Qed.

Lemma month_field_of_digits m1 m2 :
  is_ascii_digit m1 = true -> is_ascii_digit m2 = true ->
  1 <= text_value [m1; m2] <= 12 -> month_field [m1; m2].
Proof.
  intros H1 H2 Hv. unfold month_field, is_true.
  each_digit H1; each_digit H2; vm_compute in Hv;
    try (exfalso; destruct Hv as [Ha Hb]; (now apply Ha) || (now apply Hb));
    eauto 10.
Qed.

Lemma year_field_of_digits y1 y2 y3 y4 :
  is_ascii_digit y1 = true -> is_ascii_digit y2 = true ->
  is_ascii_digit y3 = true -> is_ascii_digit y4 = true ->
  year_field [y1; y2; y3; y4].
Proof.
  intros H1 H2 H3 H4. split; [reflexivity|].
  repeat constructor; now apply ascii_digit_isdecimal.
Qed.

Lemma pad2_text_value d1 d2 :
  is_ascii_digit d1 = true -> is_ascii_digit d2 = true ->
  datetime.pad2 (text_value [d1; d2]) = [d1; d2].
Proof. intros H1 H2. each_digit H1; each_digit H2; reflexivity. Qed.

Lemma pad4_text_value y1 y2 y3 y4 :
  is_ascii_digit y1 = true -> is_ascii_digit y2 = true ->
  is_ascii_digit y3 = true -> is_ascii_digit y4 = true ->
  datetime.pad4 (text_value [y1; y2; y3; y4]) = [y1; y2; y3; y4].
Proof.
  intros H1 H2 H3 H4.
  destruct (char_value_ascii_digit y1 H1) as [B1 E1].
  destruct (char_value_ascii_digit y2 H2) as [B2 E2].
  destruct (char_value_ascii_digit y3 H3) as [B3 E3].
  destruct (char_value_ascii_digit y4 H4) as [B4 E4].
  unfold text_value. simpl.
  set (a := char_value y1) in *. set (b := char_value y2) in *.
  set (c := char_value y3) in *. set (d := char_value y4) in *.
  unfold datetime.pad4, datetime.zdigit.
  replace ((10 * (10 * (10 * (10 * 0 + a) + b) + c) + d) / 1000 mod 10)
    with a by (Z.div_mod_to_equations; lia).
  replace ((10 * (10 * (10 * (10 * 0 + a) + b) + c) + d) / 100 mod 10)
    with b by (Z.div_mod_to_equations; lia).
  replace ((10 * (10 * (10 * (10 * 0 + a) + b) + c) + d) / 10 mod 10)
    with c by (Z.div_mod_to_equations; lia).
  replace ((10 * (10 * (10 * (10 * 0 + a) + b) + c) + d) mod 10)
    with d by (Z.div_mod_to_equations; lia).
  now rewrite E1, E2, E3, E4.
Qed.

End BirthdayFacts.

(** C3 (as amended): [Birthday(s)] succeeds exactly when [s] is a day
    field, a dot, a month field, a dot and a year field naming a calendar
    day (the date it then stores), where the day field is one or two digits
    for 1 to 31 (or a space and one digit), the month field one or two
    digits for 1 to 12, and the year field exactly four decimal digits; every
    other string (other characters, day or month out of range, another
    separator, a year that is not four digits, anything left over) makes the
    constructor raise the ValueError "Invalid date format. Use DD.MM.YYYY".
    The two-digit width of day and month is not enforced. *)
Theorem Birthday_accepts_lenient_date_text (s : str) :
  (forall dt, Birthday.__init__ s = Ok (Birthday.mk dt)
              <-> lenient_date_text s dt)
  /\ ((exists dt, Birthday.__init__ s = Ok (Birthday.mk dt))
      \/ Birthday.__init__ s
         = Raise (ValueError (lit "Invalid date format. Use DD.MM.YYYY"))).
Proof.
  split.
  - intros dt. rewrite Birthday_init_ok. apply strptime_date_lenient.
  - apply Birthday_init_total.
Qed.

Lemma Birthday_accepts_lenient_date_text_witness :
  lenient_date_text (lit "3.1.2000") (datetime.mk 2000 1 3).
Proof.
  apply (proj1 (Birthday_accepts_lenient_date_text (lit "3.1.2000"))
               (datetime.mk 2000 1 3)).
  reflexivity.
Defined.

(** C3, as stated, fails: the single-digit day of "1.01.1990" does not match
    the strict pattern, yet the constructor accepts it (as 1 January 1990);
    so are a day written with a leading space and a single-digit month. *)
Lemma Birthday_accepts_single_digit_day :
  matches_DD_MM_YYYY (lit "1.01.1990") = false
  /\ Birthday.__init__ (lit "1.01.1990")
     = Ok (Birthday.mk (datetime.mk 1990 1 1))
  /\ Birthday.__init__ (lit " 1.01.1990")
     = Ok (Birthday.mk (datetime.mk 1990 1 1))
  /\ Birthday.__init__ (lit "01.1.1990")
     = Ok (Birthday.mk (datetime.mk 1990 1 1)).
Proof. repeat split; reflexivity. Qed.

(** C5 (as amended): for a string [s] of the form DD.MM.YYYY (ASCII digits)
    that names a calendar day, [Birthday(s)] succeeds, stores that day, and
    renders back as [s], provided the year is at least 1000 or [%Y] is
    zero-padded. *)
Theorem Birthday_round_trip (libc : libc_year) (s : str) :
  matches_DD_MM_YYYY s = true ->
  real_calendar_date (year_of s) (month_of s) (day_of s) ->
  libc = YearZeroPadded \/ 1000 <= year_of s ->
  exists b,
    Birthday.__init__ s = Ok b
    /\ Birthday.value b = datetime.mk (year_of s) (month_of s) (day_of s)
    /\ Birthday.__str__ libc b = s.
Proof.
  intros Hm Hreal Hyear.
  destruct s as [|d1 [|d2 [|p1 [|m1 [|m2 [|p2 [|y1 [|y2 [|y3 [|y4 [|x s]]]]]]]]]]];
    try discriminate.
  simpl in Hm.
  do 9 (apply andb_true_iff in Hm as [Hm ?]).
  repeat match goal with
         | H : (_ =? _)%N = true |- _ => apply N.eqb_eq in H; subst
         end.
  unfold year_of, month_of, day_of in *. simpl take in *. simpl drop in *.
  simpl take in *.
  destruct Hreal as (Hy & Hmo & Hd).
  assert (HD : day_field [d1; d2]).
  { apply day_field_of_digits; try assumption.
    pose proof (days_in_month_le_31 (text_value [y1; y2; y3; y4])
                                    (text_value [m1; m2])). lia. }
  assert (HM : month_field [m1; m2])
    by (apply month_field_of_digits; assumption).
  assert (HY : year_field [y1; y2; y3; y4])
    by (apply year_field_of_digits; assumption).
  exists (Birthday.mk (datetime.mk (text_value [y1; y2; y3; y4])
                                  (text_value [m1; m2])
                                  (text_value [d1; d2]))).
  split; [|split; [reflexivity|]].
  - apply Birthday_init_ok, strptime_date_lenient.
    exists [d1; d2], [m1; m2], [y1; y2; y3; y4].
    unfold real_calendar_date. auto 10.
  - unfold Birthday.__str__. rewrite strftime_d_m_Y.
    cbn [Birthday.value datetime.day datetime.month datetime.year].
    rewrite (format_Y_four_digits libc _ Hyear).
    rewrite !pad2_text_value, pad4_text_value by assumption.
    reflexivity.
Qed.

Lemma Birthday_round_trip_witness :
  exists b,
    Birthday.__init__ (lit "29.02.2024") = Ok b
    /\ Birthday.value b = datetime.mk 2024 2 29
    /\ Birthday.__str__ YearPlain b = lit "29.02.2024".
Proof.
  apply (Birthday_round_trip YearPlain (lit "29.02.2024")).
  - reflexivity.
  - vm_compute. repeat split; discriminate.
  - right. vm_compute. discriminate.
Defined.

(** C5, as stated, fails for a year below 1000 where [%Y] is not
    zero-padded: "01.01.0999" parses to 1 January 999, which renders as
    "01.01.999". *)
Lemma Birthday_round_trip_short_year :
  matches_DD_MM_YYYY (lit "01.01.0999") = true
  /\ real_calendar_date (year_of (lit "01.01.0999"))
                        (month_of (lit "01.01.0999"))
                        (day_of (lit "01.01.0999"))
  /\ Birthday.__init__ (lit "01.01.0999")
     = Ok (Birthday.mk (datetime.mk 999 1 1))
  /\ Birthday.__str__ YearPlain (Birthday.mk (datetime.mk 999 1 1))
     = lit "01.01.999"
  /\ Birthday.__str__ YearPlain (Birthday.mk (datetime.mk 999 1 1))
     <> lit "01.01.0999".
Proof.
  split; [reflexivity|]. split; [vm_compute; repeat split; discriminate|].
  split; [reflexivity|]. split; [reflexivity|]. vm_compute. discriminate.
Qed.

(* ===================================================================== *)
(** * 19. More on records                                                 *)
(* ===================================================================== *)

Section RecordMore.

Implicit Types (r : Record_.t) (l : list Phone.t) (p : Phone.t).

Lemma find_phone_loop_Some l raw p :
  Record_.find_phone_loop l raw = Some p ->
  exists l1 l2,
    l = l1 ++ p :: l2
    /\ Forall (fun q => Phone.value q <> raw) l1
    /\ Phone.value p = raw.
Proof.
  induction l as [|q l IH]; simpl; [discriminate|].
  destruct (decide (Phone.value q = raw)) as [E|E].
  - intros [= <-]. exists [], l. auto.
  - intros H. destruct (IH H) as (l1 & l2 & -> & Hl1 & Hp).
    exists (q :: l1), l2. split; [reflexivity|]. split; [|exact Hp].
    now constructor.
Qed.

Lemma find_phone_loop_None l raw :
  Record_.find_phone_loop l raw = None
  <-> Forall (fun q => Phone.value q <> raw) l.
Proof.
  induction l as [|q l IH]; simpl.
  - split; [constructor | reflexivity].
  - destruct (decide (Phone.value q = raw)) as [E|E].
    + split; [discriminate|].
      intros H. apply Forall_cons in H as [H _]. contradiction.
    + rewrite IH. split; [now constructor|].
      intros H. now apply Forall_cons in H as [_ H].
Qed.

Lemma find_phone_loop_first l1 p l2 raw :
  Forall (fun q => Phone.value q <> raw) l1 -> Phone.value p = raw ->
  Record_.find_phone_loop (l1 ++ p :: l2) raw = Some p.
Proof.
  induction l1 as [|q l1 IH]; intros Hl1 Hp; simpl.
  - now rewrite decide_True.
  - apply Forall_cons in Hl1 as [Hq Hl1].
    rewrite decide_False by exact Hq. now apply IH.
Qed.

Lemma find_phone_loop_app_l l l' raw p :
  Record_.find_phone_loop l raw = Some p ->
  Record_.find_phone_loop (l ++ l') raw = Some p.
Proof.
  intros H. apply find_phone_loop_Some in H as (l1 & l2 & -> & Hl1 & Hp).
  rewrite <- app_assoc. simpl. now apply find_phone_loop_first.
Qed.

Lemma find_phone_loop_filter_same l raw :
  Record_.find_phone_loop (filter (fun p => Phone.value p <> raw) l) raw
  = None.
Proof.
  apply find_phone_loop_None.
  apply (removed_all_none_left raw l), filter_removed_all.
Qed.

Lemma find_phone_loop_filter_other l raw q :
  q <> raw ->
  Record_.find_phone_loop (filter (fun p => Phone.value p <> raw) l) q
  = Record_.find_phone_loop l q.
Proof.
  intros Hq. induction l as [|p l IH]; [reflexivity|].
  destruct (decide (Phone.value p = raw)) as [E|E].
  - rewrite filter_cons_False by (intros H; apply H, E). simpl.
    rewrite decide_False by congruence. exact IH.
  - rewrite filter_cons_True by exact E. simpl.
    destruct (decide (Phone.value p = q)); [reflexivity | exact IH].
Qed.

Lemma filter_phones_idem l raw :
  filter (fun p => Phone.value p <> raw)
         (filter (fun p => Phone.value p <> raw) l)
  = filter (fun p => Phone.value p <> raw) l.
Proof.
  apply (removed_all_no_match raw); [apply filter_removed_all|].
  apply (removed_all_none_left raw l), filter_removed_all.
Qed.

Lemma filter_phones_comm l a b :
  filter (fun p => Phone.value p <> b) (filter (fun p => Phone.value p <> a) l)
  = filter (fun p => Phone.value p <> a)
           (filter (fun p => Phone.value p <> b) l).
Proof.
  induction l as [|p l IH]; [reflexivity|].
  destruct (decide (Phone.value p = a)) as [Ea|Ea],
           (decide (Phone.value p = b)) as [Eb|Eb];
    repeat first
      [ rewrite (filter_cons_True (fun p => Phone.value p <> a)) by exact Ea
      | rewrite (filter_cons_True (fun p => Phone.value p <> b)) by exact Eb
      | rewrite (filter_cons_False (fun p => Phone.value p <> a))
          by (intros H; apply H, Ea)
      | rewrite (filter_cons_False (fun p => Phone.value p <> b))
          by (intros H; apply H, Eb) ];
    rewrite ?IH; reflexivity.
Qed.

Lemma filter_phones_app_new l s :
  Forall (fun p => Phone.value p <> s) l ->
  filter (fun p => Phone.value p <> s) (l ++ [Phone.mk s]) = l.
Proof.
  intros Hl. rewrite filter_app.
  rewrite filter_cons_False by (intros H; now apply H). simpl.
  rewrite app_nil_r.
  apply (removed_all_no_match s); [apply filter_removed_all | exact Hl].
Qed.

Lemma add_phone_ok_inv r s r' :
  Record_.add_phone r s = Ok r' ->
  ten_digits s
  /\ r' = Record_.set_phones r (Record_.phones r ++ [Phone.mk s]).
Proof.
  unfold Record_.add_phone.
  destruct (Phone.__init__ s) as [p|e] eqn:E; simpl; [|discriminate].
  intros [= <-]. apply Phone_init_ok_inv in E as [Hv ->].
  split; [now apply Phone_is_valid_spec | reflexivity].
Qed.

Lemma add_phone_valid r s :
  ten_digits s ->
  Record_.add_phone r s
  = Ok (Record_.set_phones r (Record_.phones r ++ [Phone.mk s])).
Proof.
  intros H. apply Phone_is_valid_spec in H. unfold Record_.add_phone.
  now rewrite (Phone_init_valid s H).
Qed.

Lemma add_phone_invalid r s :
  ~ ten_digits s ->
  Record_.add_phone r s
  = Raise (ValueError (lit "Phone number must be 10 digits")).
Proof.
  intros H. unfold Record_.add_phone. rewrite Phone_init_invalid; [reflexivity|].
  destruct (Phone.is_valid s) eqn:E; [|reflexivity].
  apply Phone_is_valid_spec in E. contradiction.
Qed.

Lemma edit_phone_loop_ok_inv r items old new r' :
  Record_.edit_phone_loop r items old new = Ok r' ->
  r' = r
  \/ exists i, r' = Record_.set_phones r (<[i := Phone.mk new]> (Record_.phones r))
               /\ ten_digits new.
Proof.
  induction items as [|[i p] items IH]; simpl.
  - intros [= <-]. now left.
  - destruct (decide (Phone.value p = old)); [|exact IH].
    destruct (Phone.__init__ new) as [np|err] eqn:E; simpl; [|discriminate].
    intros [= <-]. apply Phone_init_ok_inv in E as [Hv ->].
    right. exists i. split; [reflexivity | now apply Phone_is_valid_spec].
Qed.

End RecordMore.

(** X1: [find_phone] returns the first phone of the list whose value is the
    one asked for, and None exactly when no phone has that value. *)
Theorem find_phone_returns_first_match (r : Record_.t) (raw : str) :
  match Record_.find_phone r raw with
  | Some p =>
      exists l1 l2,
        Record_.phones r = l1 ++ p :: l2
        /\ Forall (fun q => Phone.value q <> raw) l1
        /\ Phone.value p = raw
  | None => Forall (fun q => Phone.value q <> raw) (Record_.phones r)
  end.
Proof.
  unfold Record_.find_phone.
  destruct (Record_.find_phone_loop (Record_.phones r) raw) as [p|] eqn:E.
  - now apply find_phone_loop_Some.
  - now apply find_phone_loop_None.
Qed.

(** X2: a successful [add_phone(s)] puts the phone at the end of the list
    and changes nothing else; the number is then found by [find_phone], what
    was found before is still found, and adding the same number again is
    accepted (the record does not refuse duplicates). *)
Theorem add_phone_then_find_phone (r r' : Record_.t) (s : str) :
  Record_.add_phone r s = Ok r' ->
  Record_.phones r' = Record_.phones r ++ [Phone.mk s]
  /\ Record_.name r' = Record_.name r
  /\ Record_.birthday r' = Record_.birthday r
  /\ (exists p, Record_.find_phone r' s = Some p /\ Phone.value p = s)
  /\ (forall q p, Record_.find_phone r q = Some p ->
                  Record_.find_phone r' q = Some p)
  /\ (exists r'', Record_.add_phone r' s = Ok r''
                  /\ Record_.phones r''
                     = Record_.phones r ++ [Phone.mk s; Phone.mk s]).
Proof.
  intros H. apply add_phone_ok_inv in H as [Hs ->]. simpl.
  repeat split.
  - unfold Record_.find_phone. simpl.
    destruct (Record_.find_phone_loop (Record_.phones r ++ [Phone.mk s]) s)
      as [p|] eqn:E.
    + exists p. split; [reflexivity|].
      now apply find_phone_loop_Some in E as (_ & _ & _ & _ & Hp).
    + apply find_phone_loop_None, Forall_app in E as [_ E].
      apply Forall_cons in E as [E _]. now contradiction E.
  - intros q p. unfold Record_.find_phone. simpl.
    apply find_phone_loop_app_l.
  - eexists. split; [now apply add_phone_valid|]. simpl.
    now rewrite <- app_assoc.
Qed.

Lemma add_phone_then_find_phone_witness :
  exists p,
    Record_.find_phone
      (sample_record (lit "Ann") [lit "1111111111"; lit "2222222222"] None)
      (lit "2222222222") = Some p
    /\ Phone.value p = lit "2222222222".
Proof.
  apply (add_phone_then_find_phone
           (sample_record (lit "Ann") [lit "1111111111"] None)
           (sample_record (lit "Ann") [lit "1111111111"; lit "2222222222"] None)
           (lit "2222222222")).
  reflexivity.
Defined.

(** X3: after [remove_phone(raw)] the number [raw] is no longer found, and
    looking up any other number gives what it gave before. *)
Theorem remove_phone_then_find_phone (r : Record_.t) (raw : str) :
  Record_.find_phone (Record_.remove_phone r raw) raw = None
  /\ (forall q, q <> raw ->
        Record_.find_phone (Record_.remove_phone r raw) q
        = Record_.find_phone r q).
Proof.
  unfold Record_.find_phone, Record_.remove_phone. simpl. split.
  - apply find_phone_loop_filter_same.
  - intros q Hq. now apply find_phone_loop_filter_other.
Qed.

Lemma remove_phone_then_find_phone_witness :
  Record_.find_phone
    (Record_.remove_phone
       (sample_record (lit "Ann") [lit "1111111111"; lit "2222222222"] None)
       (lit "1111111111"))
    (lit "2222222222")
  = Record_.find_phone
      (sample_record (lit "Ann") [lit "1111111111"; lit "2222222222"] None)
      (lit "2222222222").
Proof.
  apply (remove_phone_then_find_phone
           (sample_record (lit "Ann") [lit "1111111111"; lit "2222222222"] None)
           (lit "1111111111")).
  vm_compute. discriminate.
Defined.

(** X4: removing a number twice is the same as removing it once, removals
    of two numbers can be done in either order, and removing a number just
    added to a record that did not have it gives the record back. *)
Theorem remove_phone_composes (r : Record_.t) (a b : str) :
  Record_.remove_phone (Record_.remove_phone r a) a = Record_.remove_phone r a
  /\ Record_.remove_phone (Record_.remove_phone r a) b
     = Record_.remove_phone (Record_.remove_phone r b) a
  /\ (forall r',
        Record_.add_phone r a = Ok r' ->
        Forall (fun p => Phone.value p <> a) (Record_.phones r) ->
        Record_.remove_phone r' a = r).
Proof.
  unfold Record_.remove_phone, Record_.set_phones. simpl.
  split; [|split].
  - now rewrite filter_phones_idem.
  - now rewrite filter_phones_comm.
  - intros r' H Hno. apply add_phone_ok_inv in H as [_ ->]. simpl.
    rewrite filter_phones_app_new by exact Hno. now destruct r.
Qed.

Lemma remove_phone_composes_witness :
  Record_.remove_phone
    (sample_record (lit "Ann") [lit "1111111111"; lit "2222222222"] None)
    (lit "2222222222")
  = sample_record (lit "Ann") [lit "1111111111"] None.
Proof.
  apply (remove_phone_composes
           (sample_record (lit "Ann") [lit "1111111111"] None)
           (lit "2222222222") (lit "2222222222")).
  - reflexivity.
  - repeat constructor. vm_compute. discriminate.
Defined.

(** X5: a successful [edit_phone] keeps the number of phones, the name and
    the birthday; if the old number was in the list, the new one is found
    afterwards. *)
Theorem edit_phone_keeps_the_rest (r r' : Record_.t) (old new : str) :
  Record_.edit_phone r old new = Ok r' ->
  length (Record_.phones r') = length (Record_.phones r)
  /\ Record_.name r' = Record_.name r
  /\ Record_.birthday r' = Record_.birthday r
  /\ (Record_.find_phone r old <> None ->
      exists p, Record_.find_phone r' new = Some p /\ Phone.value p = new).
Proof.
  intros H. split; [|split; [|split]].
  - apply edit_phone_loop_ok_inv in H as [->|(i & -> & _)]; [reflexivity|].
    simpl. apply length_insert.
  - apply edit_phone_loop_ok_inv in H as [->|(i & -> & _)]; reflexivity.
  - apply edit_phone_loop_ok_inv in H as [->|(i & -> & _)]; reflexivity.
  - intros Hfound. unfold Record_.find_phone in *.
    destruct (Record_.find_phone_loop (Record_.phones r) old) as [p|] eqn:E;
      [clear Hfound | contradiction].
    apply find_phone_loop_Some in E as (l1 & l2 & Hph & Hl1 & Hp).
    assert (Hloop := edit_phone_loop_first r old new [] l1 p l2 Hph Hl1 Hp).
    simpl in Hloop. rewrite <- Hph in Hloop.
    unfold Record_.edit_phone in H. rewrite Hloop in H.
    destruct (Phone.__init__ new) as [np|err] eqn:En; simpl in H;
      [|discriminate].
    injection H as <-. simpl.
    apply Phone_init_ok_inv in En as [_ ->].
    destruct (Record_.find_phone_loop (l1 ++ Phone.mk new :: l2) new)
      as [q|] eqn:Eq.
    + exists q. split; [reflexivity|].
      now apply find_phone_loop_Some in Eq as (_ & _ & _ & _ & Hq).
    + apply find_phone_loop_None, Forall_app in Eq as [_ Eq].
      apply Forall_cons in Eq as [Eq _]. now contradiction Eq.
Qed.

Lemma edit_phone_keeps_the_rest_witness :
  length (Record_.phones
            (sample_record (lit "Ann")
                           [lit "1111111111"; lit "3333333333"] None))
  = length (Record_.phones
              (sample_record (lit "Ann")
                             [lit "1111111111"; lit "2222222222"] None)).
Proof.
  apply (edit_phone_keeps_the_rest
           (sample_record (lit "Ann") [lit "1111111111"; lit "2222222222"] None)
           (sample_record (lit "Ann") [lit "1111111111"; lit "3333333333"] None)
           (lit "2222222222") (lit "3333333333")).
  reflexivity.
Defined.

(** X6: a successful [add_birthday(s)] stores the date [s] writes, leaves
    name and phones alone and forgets the birthday stored before: any later
    [add_birthday] behaves as it would have on the original record. *)
Theorem add_birthday_overwrites (r r1 : Record_.t) (s1 : str) :
  Record_.add_birthday r s1 = Ok r1 ->
  (exists dt, lenient_date_text s1 dt
              /\ Record_.birthday r1 = Some (Birthday.mk dt))
  /\ Record_.phones r1 = Record_.phones r
  /\ Record_.name r1 = Record_.name r
  /\ (forall s2, Record_.add_birthday r1 s2 = Record_.add_birthday r s2).
Proof.
  unfold Record_.add_birthday.
  destruct (Birthday.__init__ s1) as [[dt]|e] eqn:E; simpl; [|discriminate].
  intros [= <-]. simpl. repeat split.
  exists dt. split; [|reflexivity].
  now apply strptime_date_lenient, Birthday_init_ok.
Qed.

Lemma add_birthday_overwrites_witness :
  Record_.add_birthday
    (sample_record (lit "Ann") [] (Some (datetime.mk 1990 6 12)))
    (lit "01.01.1991")
  = Record_.add_birthday (sample_record (lit "Ann") [] None)
                         (lit "01.01.1991").
Proof.
  apply (add_birthday_overwrites
           (sample_record (lit "Ann") [] None)
           (sample_record (lit "Ann") [] (Some (datetime.mk 1990 6 12)))
           (lit "12.06.1990")).
  reflexivity.
Defined.

(* ===================================================================== *)
(** * 20. More on the book                                                *)
(* ===================================================================== *)

Section DictMore.
Context {V : Type}.
Implicit Types (d : dict.t V) (k : str) (v : V).

Lemma dict_get_setitem_same d k v : dict.get (dict.setitem d k v) k = Some v.
Proof.
  induction d as [|[k' v'] d IH]; simpl.
  - now rewrite decide_True.
  - destruct (decide (k' = k)) as [E|E]; simpl.
    + now rewrite decide_True.
    + now rewrite decide_False.
Qed.

Lemma dict_get_setitem_other d k k' v :
  k' <> k -> dict.get (dict.setitem d k v) k' = dict.get d k'.
Proof.
  intros Hne. induction d as [|[k0 v0] d IH]; simpl.
  - now rewrite decide_False by congruence.
  - destruct (decide (k0 = k)) as [E|E]; simpl.
    + subst. now rewrite !decide_False by congruence.
    + destruct (decide (k0 = k')); [reflexivity | exact IH].
Qed.

Lemma dict_get_Some_In d k v : dict.get d k = Some v -> In (k, v) d.
Proof.
  induction d as [|[k' v'] d IH]; simpl; [discriminate|].
  destruct (decide (k' = k)) as [->|E].
  - intros [= ->]. now left.
  - intros H. right. now apply IH.
Qed.

Lemma dict_contains_true d k :
  dict.contains d k = true <-> In k (dict.keys d).
Proof.
  destruct (dict.contains d k) eqn:E.
  - split; [intros _ | reflexivity]. unfold dict.contains in E.
    destruct (dict.get d k) as [v|] eqn:G; [|discriminate].
    apply dict_get_Some_In in G. apply in_map_iff. exists (k, v). auto.
  - apply dict_contains_false in E. split; [discriminate | contradiction].
Qed.

Lemma dict_keys_setitem d k v :
  dict.keys (dict.setitem d k v)
  = if dict.contains d k then dict.keys d else dict.keys d ++ [k].
Proof.
  destruct (dict.contains d k) eqn:E.
  - apply dict_keys_setitem_old. now apply dict_contains_true.
  - apply dict_keys_setitem_new. now apply dict_contains_false.
Qed.

Lemma dict_setitem_NoDup d k v :
  NoDup (dict.keys d) -> NoDup (dict.keys (dict.setitem d k v)).
Proof.
  intros H. rewrite dict_keys_setitem.
  destruct (dict.contains d k) eqn:E; [exact H|].
  apply dict_contains_false in E.
  apply NoDup_app. split; [exact H|]. split.
  - intros x Hx Hk. apply list_elem_of_In in Hx, Hk.
    destruct Hk as [->|[]]. contradiction.
  - apply NoDup_singleton.
Qed.

Lemma filter_other_keys (l : list str) k :
  ~ In k l -> filter (fun x => x <> k) l = l.
Proof.
  induction l as [|x l IH]; intros H; [reflexivity|].
  rewrite filter_cons_True by (intros ->; apply H; now left).
  f_equal. apply IH. intros Hin. apply H. now right.
Qed.

(** [del d[k]] takes the item with key [k] away and keeps the others in
    their places. *)
Lemma dict_delitem_ok d k d' :
  NoDup (dict.keys d) -> dict.delitem d k = Ok d' ->
  dict.keys d' = filter (fun x => x <> k) (dict.keys d)
  /\ dict.get d' k = None
  /\ (forall k', k' <> k -> dict.get d' k' = dict.get d k')
  /\ (forall kv, In kv d' -> In kv d).
Proof.
  revert d'. induction d as [|[k0 v0] d IH]; intros d' Hnd; simpl;
    [discriminate|].
  apply NoDup_cons in Hnd as [Hk0 Hnd].
  assert (Hk0' : ~ In k0 (dict.keys d))
    by (intros H; apply Hk0; now apply list_elem_of_In).
  destruct (decide (k0 = k)) as [->|E].
  - intros [= <-].
    rewrite filter_cons_False by (intros H; now apply H).
    rewrite filter_other_keys by exact Hk0'.
    split; [reflexivity|]. split; [now apply dict_get_None|].
    split; [|intros kv Hin; now right].
    intros k' Hk'. now rewrite decide_False by congruence.
  - destruct (dict.delitem d k) as [r|e] eqn:Ed; simpl; [|discriminate].
    intros [= <-]. destruct (IH r Hnd eq_refl) as (Hk & Hg & Ho & Hin).
    rewrite filter_cons_True by exact E. simpl.
    split; [now rewrite Hk|].
    split; [now rewrite decide_False by exact E|].
    split.
    + intros k' Hk'. destruct (decide (k0 = k')); [reflexivity | now apply Ho].
    + intros kv [<-|H]; [now left | right; now apply Hin].
Qed.

End DictMore.

Section BookMore.

Implicit Types (book : AddressBook.t) (r : Record_.t) (name : str).

Lemma delete_ok book name :
  NoDup (dict.keys book) ->
  exists book',
    AddressBook.delete book name = Ok book'
    /\ dict.keys book' = filter (fun x => x <> name) (dict.keys book)
    /\ AddressBook.find book' name = None
    /\ (forall k, k <> name ->
          AddressBook.find book' k = AddressBook.find book k)
    /\ (forall kv, In kv book' -> In kv book).
Proof.
  intros Hnd. unfold AddressBook.delete, AddressBook.find.
  destruct (dict.contains book name) eqn:E.
  - destruct (dict_delitem_present book name E) as [book' Hd].
    exists book'. split; [exact Hd|]. now apply dict_delitem_ok.
  - exists book. split; [reflexivity|].
    apply dict_contains_false in E.
    split; [now rewrite filter_other_keys|].
    split; [now apply dict_get_None|]. auto.
Qed.

Lemma keyed_by_name_setitem book r :
  keyed_by_name book -> keyed_by_name (dict.setitem book (record_name r) r).
Proof.
  unfold keyed_by_name. induction book as [|[k v] book IH]; intros H; simpl.
  - repeat constructor.
  - apply Forall_cons in H as [Hk H].
    destruct (decide (k = record_name r)); constructor; auto.
Qed.

Lemma book_step_keeps book op :
  NoDup (dict.keys book) /\ keyed_by_name book ->
  NoDup (dict.keys (book_step book op)) /\ keyed_by_name (book_step book op).
Proof.
  intros [Hnd Hk]. destruct op as [r|name]; simpl.
  - split; [now apply dict_setitem_NoDup | now apply keyed_by_name_setitem].
  - destruct (delete_ok book name Hnd) as (book' & -> & Hkeys & _ & _ & Hin).
    split.
    + rewrite Hkeys. now apply NoDup_filter.
    + unfold keyed_by_name in *. rewrite Forall_forall in *.
      intros kv Hkv. apply Hk, list_elem_of_In, Hin.
      now apply list_elem_of_In.
Qed.

End BookMore.

(** X7: after [add_record(r)], [find] gives [r] back under the record's
    name and gives for every other name what it gave before. *)
Theorem add_record_then_find (book : AddressBook.t) (r : Record_.t) :
  AddressBook.find (AddressBook.add_record book r) (record_name r) = Some r
  /\ (forall name, name <> record_name r ->
        AddressBook.find (AddressBook.add_record book r) name
        = AddressBook.find book name).
Proof.
  unfold AddressBook.find, AddressBook.add_record, record_name. split.
  - apply dict_get_setitem_same.
  - intros name H. now apply dict_get_setitem_other.
Qed.

Lemma add_record_then_find_witness :
  AddressBook.find
    (AddressBook.add_record book_new_year (sample_record (lit "Eve") [] None))
    (lit "Bob")
  = AddressBook.find book_new_year (lit "Bob").
Proof.
  apply (add_record_then_find book_new_year
                              (sample_record (lit "Eve") [] None)).
  vm_compute. discriminate.
Defined.

(** X8: [add_record] keeps the book in insertion order: a record with a new
    name goes to the end, a record whose name is already a key takes the
    place of the old one, and no name is ever listed twice. *)
Theorem add_record_keeps_insertion_order
    (book : AddressBook.t) (r : Record_.t) :
  dict.keys (AddressBook.add_record book r)
  = (if dict.contains book (record_name r) then dict.keys book
     else dict.keys book ++ [record_name r])
  /\ length (AddressBook.add_record book r)
     = (if dict.contains book (record_name r) then length book
        else S (length book))
  /\ (NoDup (dict.keys book) ->
      NoDup (dict.keys (AddressBook.add_record book r))).
Proof.
  unfold AddressBook.add_record, record_name. split; [|split].
  - apply dict_keys_setitem.
  - assert (H := dict_keys_setitem book (Name.value (Record_.name r)) r).
    apply (f_equal length) in H. unfold dict.keys in H.
    rewrite length_map in H. rewrite H.
    destruct (dict.contains book _).
    + now rewrite length_map.
    + rewrite length_app, length_map. simpl. lia.
  - apply dict_setitem_NoDup.
Qed.

Lemma NoDup_keys_book_new_year : NoDup (dict.keys book_new_year).
Proof.
  vm_compute. repeat constructor; intros H%list_elem_of_In;
    vm_compute in H; intuition discriminate.
Qed.

Lemma add_record_keeps_insertion_order_witness :
  NoDup (dict.keys (AddressBook.add_record
                      book_new_year (sample_record (lit "Ann") [] None))).
Proof.
  apply (add_record_keeps_insertion_order
           book_new_year (sample_record (lit "Ann") [] None)).
  exact NoDup_keys_book_new_year.
Defined.

(** X9: in a book whose names are all different, [delete(name)] never
    raises; afterwards the name is not found, every other name is found as
    before, and the remaining names keep their order. *)
Theorem delete_then_find (book : AddressBook.t) (name : str) :
  NoDup (dict.keys book) ->
  exists book',
    AddressBook.delete book name = Ok book'
    /\ AddressBook.find book' name = None
    /\ (forall k, k <> name ->
          AddressBook.find book' k = AddressBook.find book k)
    /\ dict.keys book' = filter (fun x => x <> name) (dict.keys book).
Proof.
  intros Hnd.
  destruct (delete_ok book name Hnd) as (book' & Hd & Hk & Hf & Ho & _).
  exists book'. auto.
Qed.

Lemma delete_then_find_witness :
  exists book',
    AddressBook.delete book_new_year (lit "Ann") = Ok book'
    /\ AddressBook.find book' (lit "Ann") = None
    /\ (forall k, k <> lit "Ann" ->
          AddressBook.find book' k = AddressBook.find book_new_year k)
    /\ dict.keys book'
       = filter (fun x => x <> lit "Ann") (dict.keys book_new_year).
Proof.
  apply (delete_then_find book_new_year (lit "Ann")).
  exact NoDup_keys_book_new_year.
Defined.

(** X10: a book built from the empty one by any [add_record] and [delete]
    calls lists no name twice and holds every record under the record's own
    name. *)
Theorem book_operations_keep_names_unique (ops : list book_op) :
  NoDup (dict.keys (book_run [] ops)) /\ keyed_by_name (book_run [] ops).
Proof.
  unfold book_run.
  assert (H : NoDup (dict.keys ([] : AddressBook.t))
              /\ keyed_by_name ([] : AddressBook.t))
    by (split; constructor).
  revert H. generalize ([] : AddressBook.t) as book.
  induction ops as [|op ops IH]; intros book H; simpl; [exact H|].
  apply IH, book_step_keeps, H.
Qed.

(* ===================================================================== *)
(** * 21. More on the upcoming birthdays                                  *)
(* ===================================================================== *)

Section UpcomingMore.

Variables (libc : libc_year) (today : datetime.date).

Local Arguments datetime.strftime : simpl never.
Local Arguments lit : simpl never.

Lemma upcoming_loop_cons days r records acc :
  AddressBook.upcoming_loop libc today days (r :: records) acc
  = match Record_.birthday r with
    | Some b =>
        let! d := occurrence_of_loop today (Birthday.value b) in
        let delta := datetime.sub_days d today in
        if (0 <=? delta) && (delta <=? days) then
          AddressBook.upcoming_loop libc today days records
            (acc ++ [mk_congratulation
                       (record_name r)
                       (datetime.strftime libc d (lit "%Y-%m-%d"))])
        else AddressBook.upcoming_loop libc today days records acc
    | None => AddressBook.upcoming_loop libc today days records acc
    end.
Proof.
  simpl. destruct (Record_.birthday r) as [b|]; [|reflexivity].
  unfold occurrence_of_loop.
  destruct (datetime.replace_year (Birthday.value b) (datetime.year today))
    as [d1|e]; simpl; [|reflexivity].
  destruct (datetime.lt d1 today); [|reflexivity].
  destruct (datetime.replace_year d1 (datetime.year today + 1)); reflexivity.
Qed.

Lemma occurrence_of_loop_raises b e :
  occurrence_of_loop today b = Raise e -> exists msg, e = ValueError msg.
Proof.
  unfold occurrence_of_loop.
  destruct (datetime.replace_year b (datetime.year today)) as [d1|e1] eqn:E1;
    simpl.
  - destruct (datetime.lt d1 today); [|discriminate].
    intros H. now apply new_raises_ValueError in H.
  - intros [= <-]. now apply new_raises_ValueError in E1.
Qed.

(** *** The window grows with [days] *)


(** *** Who is listed *)

Lemma upcoming_loop_names days records :
  forall acc l,
    AddressBook.upcoming_loop libc today days records acc = Ok l ->
    exists l',
      l = acc ++ l'
      /\ sublist (map cg_name l') (names_with_birthday records)
      /\ (days < 0 -> l' = []).
Proof.
  induction records as [|r records IH]; intros acc l.
  - simpl. intros [= <-]. exists []. rewrite app_nil_r.
    split; [reflexivity|]. split; [constructor | reflexivity].
  - rewrite upcoming_loop_cons. unfold names_with_birthday. simpl.
    fold (names_with_birthday records).
    destruct (Record_.birthday r) as [b|]; [|apply IH].
    destruct (occurrence_of_loop today (Birthday.value b)) as [d|e]; simpl;
      [|discriminate].
    destruct (Z.leb_spec 0 (datetime.sub_days d today)) as [H0|H0]; simpl.
    + destruct (Z.leb_spec (datetime.sub_days d today) days) as [H1|H1].
      * intros H. destruct (IH _ _ H) as (l' & -> & Hsub & Hneg).
        eexists. rewrite <- app_assoc. split; [reflexivity|]. simpl.
        split; [now apply sublist_skip | lia].
      * intros H. destruct (IH _ _ H) as (l' & -> & Hsub & Hneg).
        exists l'. split; [reflexivity|].
        split; [now apply sublist_cons | exact Hneg].
    + intros H. destruct (IH _ _ H) as (l' & -> & Hsub & Hneg).
      exists l'. split; [reflexivity|].
      split; [now apply sublist_cons | exact Hneg].
Qed.

End UpcomingMore.

Section UpcomingLeap.

Variables (libc : libc_year) (today : datetime.date).
Hypothesis today_valid : valid_date today.
Hypothesis today_year : datetime.year today < datetime.MAXYEAR.

Local Arguments datetime.strftime : simpl never.
Local Arguments lit : simpl never.
Local Arguments datetime._is_leap : simpl never.

(** The year after a leap year is not a leap year. *)
Lemma leap_year_next y :
  datetime._is_leap y = true -> datetime._is_leap (y + 1) = false.
Proof.
  unfold datetime._is_leap. intros H.
  apply andb_true_iff in H as [H4%Z.eqb_eq _].
  apply andb_false_iff. left. apply Z.eqb_neq.
  Z.div_mod_to_equations. lia.
Qed.

Lemma feb29_valid_in_leap_year y :
  datetime.MINYEAR <= y <= datetime.MAXYEAR -> datetime._is_leap y = true ->
  valid_date (datetime.mk y 2 29).
Proof.
  intros Hy Hleap. unfold valid_date. simpl.
  rewrite days_in_february, Hleap. lia.
Qed.

(** Where the loop body does not raise, it computes the occurrence. *)
Lemma occurrence_of_loop_ok b :
  valid_date b -> (~ is_feb29 b \/ feb29_ahead today) ->
  occurrence_of_loop today b = Ok (occurrence today b).
Proof.
  intros Hvalid Hcase.
  assert (Hyear : datetime.MINYEAR <= datetime.year today
                  /\ datetime.year today + 1 <= datetime.MAXYEAR)
    by (destruct today_valid as [? _]; lia).
  assert (Hthis :
    valid_date (datetime.mk (datetime.year today) (datetime.month b)
                            (datetime.day b))
    /\ (is_feb29 b ->
        datetime.lt (datetime.mk (datetime.year today) (datetime.month b)
                                 (datetime.day b)) today = false)).
  { destruct (Z.eq_dec (datetime.month b) 2) as [Em|Em];
      [destruct (Z.eq_dec (datetime.day b) 29) as [Ed|Ed]|].
    - destruct Hcase as [Hno|[Hleap Hlt]]; [exfalso; apply Hno; now split|].
      rewrite Em, Ed. split; [|intros _; exact Hlt].
      apply feb29_valid_in_leap_year; [lia | exact Hleap].
    - split; [|intros [_ H]; contradiction].
      apply regular_in_year; [exact Hvalid | intros [_ H]; contradiction | lia].
    - split; [|intros [H _]; contradiction].
      apply regular_in_year; [exact Hvalid | intros [H _]; contradiction | lia]. }
  destruct Hthis as [Hthis Hfeb_lt].
  unfold occurrence_of_loop, datetime.replace_year.
  rewrite (new_ok (datetime.year today) (datetime.month b) (datetime.day b)
                  (proj1 Hthis) (proj1 (proj2 Hthis)) (proj2 (proj2 Hthis))).
  simpl.
  unfold occurrence, days_from_to.
  rewrite (lt_iff_toordinal _ _ Hthis today_valid).
  destruct (Z.ltb_spec
              (datetime.toordinal
                 (datetime.mk (datetime.year today) (datetime.month b)
                              (datetime.day b)))
              (datetime.toordinal today)) as [Hlt|Hge].
  - destruct (Z.ltb_spec
                (datetime.toordinal
                   (datetime.mk (datetime.year today) (datetime.month b)
                                (datetime.day b))
                 - datetime.toordinal today) 0); [|lia].
    assert (Hno : ~ is_feb29 b).
    { intros Hf. specialize (Hfeb_lt Hf).
      rewrite (lt_iff_toordinal _ _ Hthis today_valid) in Hfeb_lt.
      apply Z.ltb_ge in Hfeb_lt. lia. }
    apply (replace_year_regular b (datetime.year today + 1) Hvalid Hno).
    unfold datetime.MINYEAR in *. lia.
  - destruct (Z.ltb_spec
                (datetime.toordinal
                   (datetime.mk (datetime.year today) (datetime.month b)
                                (datetime.day b))
                 - datetime.toordinal today) 0); [lia | reflexivity].
Qed.

(** After 29 February, or in a year without one, the loop body raises for a
    birthday on 29 February. *)
Lemma occurrence_of_loop_feb29 b :
  is_feb29 b -> ~ feb29_ahead today ->
  exists msg, occurrence_of_loop today b = Raise (ValueError msg).
Proof.
  intros Hfeb Hlate.
  destruct (datetime._is_leap (datetime.year today)) eqn:Hleap.
  - unfold occurrence_of_loop.
    destruct (datetime.replace_year b (datetime.year today)) as [d1|e] eqn:E1;
      simpl.
    + apply new_ok_inv in E1 as [-> _].
      destruct Hfeb as [-> ->].
      destruct (datetime.lt (datetime.mk (datetime.year today) 2 29) today)
        eqn:Hlt.
      * apply replace_year_feb29; [split; reflexivity|].
        now apply leap_year_next.
      * exfalso. apply Hlate. now split.
    + apply new_raises_ValueError in E1 as [msg ->]. eauto.
  - unfold occurrence_of_loop.
    destruct (replace_year_feb29 b _ Hfeb Hleap) as [msg ->]. simpl. eauto.
Qed.

Lemma upcoming_loop_has_feb29 days records acc :
  has_feb29 records -> ~ feb29_ahead today ->
  exists msg,
    AddressBook.upcoming_loop libc today days records acc
    = Raise (ValueError msg).
Proof.
  intros Hex Hlate. revert acc.
  induction Hex as [r records (b & Eb & Hfeb)|r records _ IH]; intros acc;
    rewrite upcoming_loop_cons.
  - rewrite Eb.
    destruct (occurrence_of_loop_feb29 _ Hfeb Hlate) as [msg ->]. simpl. eauto.
  - destruct (Record_.birthday r) as [b|]; [|apply IH].
    destruct (occurrence_of_loop today (Birthday.value b)) as [d|e] eqn:E;
      simpl.
    + destruct ((0 <=? _) && (_ <=? days)); apply IH.
    + apply occurrence_of_loop_raises in E as [msg ->]. eauto.
Qed.

Lemma upcoming_loop_ok days records acc :
  birthdays_valid records -> (~ has_feb29 records \/ feb29_ahead today) ->
  AddressBook.upcoming_loop libc today days records acc
  = Ok (acc ++ flat_map (upcoming_of_record_as_written libc today days) records).
Proof.
  revert acc. induction records as [|r records IH]; intros acc Hvalid Hcase.
  - simpl. now rewrite app_nil_r.
  - rewrite upcoming_loop_cons. simpl flat_map.
    apply Forall_cons in Hvalid as [Hr Hvalid].
    assert (Hcase' : ~ has_feb29 records \/ feb29_ahead today).
    { destruct Hcase as [H|H]; [left | now right].
      intros Hex. apply H. now apply Exists_cons_tl. }
    unfold upcoming_of_record_as_written at 1.
    destruct (Record_.birthday r) as [b|] eqn:Eb; [|now apply IH].
    rewrite occurrence_of_loop_ok.
    + simpl. unfold days_from_to, datetime.sub_days.
      destruct ((0 <=? _) && (_ <=? days)).
      * rewrite IH by assumption. now rewrite <- app_assoc.
      * now apply IH.
    + now apply Hr.
    + destruct Hcase as [H|H]; [left | now right].
      intros Hf. apply H. apply Exists_cons_hd. eauto.
Qed.

Lemma as_written_spec days records :
  libc = YearZeroPadded \/ 1000 <= datetime.year today ->
  flat_map (upcoming_of_record_as_written libc today days) records
  = upcoming_spec today days records.
Proof.
  intros Hfour. unfold upcoming_spec.
  induction records as [|r records IH]; [reflexivity|]. simpl.
  rewrite IH. f_equal.
  unfold upcoming_of_record_as_written, upcoming_of_record.
  destruct (Record_.birthday r) as [b|]; [|reflexivity].
  now rewrite (strftime_occurrence libc today Hfour).
Qed.

(** *** A year is enough *)

Lemma days_before_month_leap y y' m :
  datetime._days_before_month y' m - datetime._days_before_month y m
  = if m >? 2 then leap_day y' - leap_day y else 0.
Proof.
  unfold datetime._days_before_month, leap_day.
  destruct (m >? 2), (datetime._is_leap y), (datetime._is_leap y'); simpl; lia.
Qed.

Lemma occurrence_within_a_year b :
  valid_date b -> (~ is_feb29 b \/ feb29_ahead today) ->
  0 <= days_from_to today (occurrence today b) <= 365.
Proof.
  intros Hvalid Hcase.
  destruct today_valid as (Hy & Hm & Hd).
  destruct Hvalid as (_ & Hmb & Hdb).
  pose proof (days_before_year_succ (datetime.year today)) as Hsucc.
  pose proof (day_of_year_bound _ _ _ Hm (proj2 Hd)) as Htoday.
  pose proof (days_before_month_nonneg (datetime.year today) _ Hm) as Hm0.
  pose proof (days_before_month_nonneg (datetime.year today + 1) _ Hmb) as Hb1.
  pose proof (days_before_month_leap (datetime.year today)
                (datetime.year today + 1) (datetime.month b)) as Hleap.
  assert (Hl0 : 0 <= leap_day (datetime.year today) <= 1)
    by (unfold leap_day; destruct (datetime._is_leap _); lia).
  assert (Hl1 : 0 <= leap_day (datetime.year today + 1) <= 1)
    by (unfold leap_day; destruct (datetime._is_leap _); lia).
  unfold occurrence.
  destruct (Z.ltb_spec
              (days_from_to today
                 (datetime.mk (datetime.year today) (datetime.month b)
                              (datetime.day b))) 0) as [Hlt|Hge].
  - revert Hlt. unfold days_from_to, datetime.toordinal, datetime._ymd2ord.
    simpl. intros Hlt. destruct (datetime.month b >? 2); lia.
  - split; [exact Hge|]. revert Hge.
    unfold days_from_to, datetime.toordinal, datetime._ymd2ord. simpl.
    intros Hge.
    assert (Hbound :
      datetime._days_before_month (datetime.year today) (datetime.month b)
      + datetime.day b <= 365 + leap_day (datetime.year today)).
    { destruct (Z.eq_dec (datetime.month b) 2) as [Em|Em];
        [destruct (Z.eq_dec (datetime.day b) 29) as [Ed|Ed]|].
      - destruct Hcase as [Hno|[Hleap' _]]; [exfalso; apply Hno; now split|].
        rewrite Em, Ed. unfold leap_day. rewrite Hleap'.
        unfold datetime._days_before_month. simpl. lia.
      - apply day_of_year_bound; [exact Hmb|].
        rewrite Em in *. rewrite days_in_february in *.
        destruct (datetime._is_leap (datetime.year b)),
                 (datetime._is_leap (datetime.year today)); lia.
      - apply day_of_year_bound; [exact Hmb|].
        now rewrite (days_in_month_other _ (datetime.year b)). }
    lia.
Qed.

End UpcomingLeap.

Lemma birthdays_valid_book_leapling :
  birthdays_valid (dict.values book_leapling).
Proof.
  unfold birthdays_valid. set (l := dict.values _). vm_compute in l. subst l.
  repeat (apply List.Forall_cons;
          [intros b [= <-]; vm_compute; repeat split; discriminate|]).
  apply List.Forall_nil.
Qed.

Lemma has_feb29_book_leapling : has_feb29 (dict.values book_leapling).
Proof.
  apply Exists_cons_tl, Exists_cons_hd. eexists. split; [reflexivity|].
  split; reflexivity.
Qed.



(** X12: whatever the dates, the names [get_upcoming_birthdays] returns are
    names of records that have a birthday, each record at most once and in
    the order of the book; with a negative number of days the list is
    empty. *)
Theorem get_upcoming_birthdays_lists_records_with_birthday
    (libc : libc_year) (today : datetime.date) (book : AddressBook.t)
    (days : Z) (l : list congratulation) :
  AddressBook.get_upcoming_birthdays libc today book days = Ok l ->
  sublist (map cg_name l) (names_with_birthday (dict.values book))
  /\ (days < 0 -> l = []).
Proof.
  intros H. unfold AddressBook.get_upcoming_birthdays in H.
  apply upcoming_loop_names in H as (l' & -> & Hsub & Hneg). auto.
Qed.

Lemma get_upcoming_birthdays_lists_records_with_birthday_witness :
  sublist (map cg_name [mk_congratulation (lit "Bob") (lit "2025-01-01")])
          (names_with_birthday (dict.values book_new_year)).
Proof.
  apply (get_upcoming_birthdays_lists_records_with_birthday
           YearPlain (datetime.mk 2024 12 28) book_new_year 7).
  reflexivity.
Defined.

(** X13: a window of 365 days (or more) lists every record that has a
    birthday, whatever today is, as long as the query does not meet a
    29 February it cannot place. *)
Theorem get_upcoming_birthdays_year_window
    (libc : libc_year) (today : datetime.date) (book : AddressBook.t)
    (days : Z) :
  valid_date today ->
  datetime.year today < datetime.MAXYEAR ->
  birthdays_valid (dict.values book) ->
  ~ has_feb29 (dict.values book) \/ feb29_ahead today ->
  365 <= days ->
  exists l,
    AddressBook.get_upcoming_birthdays libc today book days = Ok l
    /\ map cg_name l = names_with_birthday (dict.values book).
Proof.
  intros Htoday Hmax Hvalid Hcase Hdays.
  unfold AddressBook.get_upcoming_birthdays.
  rewrite (upcoming_loop_ok libc today Htoday Hmax days _ [] Hvalid Hcase).
  eexists. split; [reflexivity|]. simpl.
  revert Hvalid Hcase. generalize (dict.values book) as records.
  induction records as [|r records IH]; intros Hvalid Hcase; [reflexivity|].
  apply Forall_cons in Hvalid as [Hr Hvalid].
  assert (Hcase' : ~ has_feb29 records \/ feb29_ahead today).
  { destruct Hcase as [H|H]; [left | now right].
    intros Hex. apply H. now apply Exists_cons_tl. }
  unfold names_with_birthday. simpl. fold (names_with_birthday records).
  rewrite map_app, (IH Hvalid Hcase'). f_equal.
  unfold upcoming_of_record_as_written.
  destruct (Record_.birthday r) as [b|] eqn:Eb; [|reflexivity].
  assert (Hwin : 0 <= days_from_to today (occurrence today (Birthday.value b))
                 <= 365).
  { apply (occurrence_within_a_year today Htoday); [now apply Hr|].
    destruct Hcase as [H|H]; [left | now right].
    intros Hf. apply H. apply Exists_cons_hd. eauto. }
  destruct (Z.leb_spec 0 (days_from_to today
                            (occurrence today (Birthday.value b)))); [|lia].
  destruct (Z.leb_spec (days_from_to today
                          (occurrence today (Birthday.value b))) days); [|lia].
  reflexivity.
Qed.

Lemma get_upcoming_birthdays_year_window_witness :
  exists l,
    AddressBook.get_upcoming_birthdays YearPlain (datetime.mk 2024 2 25)
                                       book_leapling 365 = Ok l
    /\ map cg_name l = names_with_birthday (dict.values book_leapling).
Proof.
  apply (get_upcoming_birthdays_year_window
           YearPlain (datetime.mk 2024 2 25) book_leapling 365).
  - vm_compute. repeat split; discriminate.
  - vm_compute. reflexivity.
  - exact birthdays_valid_book_leapling.
  - right. split; reflexivity.
  - lia.
Defined.

(** X14: for a book of date objects and a today before year 9999,
    [get_upcoming_birthdays] raises (a ValueError) exactly when the book
    holds a 29 February birthday and today is not in a leap year on or
    before its 29 February; in every other case it returns, and the list is
    the one the window rule describes. *)
Theorem get_upcoming_birthdays_raises_exactly
    (libc : libc_year) (today : datetime.date) (book : AddressBook.t)
    (days : Z) :
  valid_date today ->
  datetime.year today < datetime.MAXYEAR ->
  birthdays_valid (dict.values book) ->
  (has_feb29 (dict.values book) /\ ~ feb29_ahead today ->
   exists msg,
     AddressBook.get_upcoming_birthdays libc today book days
     = Raise (ValueError msg))
  /\ (~ has_feb29 (dict.values book) \/ feb29_ahead today ->
      exists l,
        AddressBook.get_upcoming_birthdays libc today book days = Ok l
        /\ (libc = YearZeroPadded \/ 1000 <= datetime.year today ->
            l = upcoming_spec today days (dict.values book))).
Proof.
  intros Htoday Hmax Hvalid. split.
  - intros [Hex Hlate]. now apply upcoming_loop_has_feb29.
  - intros Hcase. unfold AddressBook.get_upcoming_birthdays.
    rewrite (upcoming_loop_ok libc today Htoday Hmax days _ [] Hvalid Hcase).
    eexists. split; [reflexivity|]. intros Hfour. simpl.
    now apply as_written_spec.
Qed.

Lemma get_upcoming_birthdays_raises_exactly_witness :
  (exists msg,
     AddressBook.get_upcoming_birthdays YearPlain (datetime.mk 2024 3 1)
                                        book_leapling 7
     = Raise (ValueError msg))
  /\ (exists l,
        AddressBook.get_upcoming_birthdays YearPlain (datetime.mk 2024 2 25)
                                           book_leapling 7 = Ok l
        /\ (YearPlain = YearZeroPadded \/ 1000 <= 2024 ->
            l = upcoming_spec (datetime.mk 2024 2 25) 7
                              (dict.values book_leapling))).
Proof.
  split.
  - apply (get_upcoming_birthdays_raises_exactly
             YearPlain (datetime.mk 2024 3 1) book_leapling 7).
    + vm_compute. repeat split; discriminate.
    + vm_compute. reflexivity.
    + exact birthdays_valid_book_leapling.
    + split; [exact has_feb29_book_leapling|].
      intros [_ H]. vm_compute in H. discriminate.
  - apply (get_upcoming_birthdays_raises_exactly
             YearPlain (datetime.mk 2024 2 25) book_leapling 7).
    + vm_compute. repeat split; discriminate.
    + vm_compute. reflexivity.
    + exact birthdays_valid_book_leapling.
    + right. split; reflexivity.
Defined.

(* ===================================================================== *)
(** * 22. The other commands                                              *)
(* ===================================================================== *)

Section Handlers.

Implicit Types (book : AddressBook.t) (args : list str) (name : str).

Lemma add_phone_raises_ValueError r s e :
  Record_.add_phone r s = Raise e ->
  e = ValueError (lit "Phone number must be 10 digits").
Proof.
  unfold Record_.add_phone, Phone.__init__.
  destruct (Phone.is_valid s); simpl; [discriminate|]. now intros [= <-].
Qed.

Lemma record_add_birthday_raises_ValueError r s e :
  Record_.add_birthday r s = Raise e ->
  e = ValueError (lit "Invalid date format. Use DD.MM.YYYY").
Proof.
  unfold Record_.add_birthday.
  destruct (Birthday_init_total s) as [[dt ->]| ->]; simpl; [discriminate|].
  now intros [= <-].
Qed.

Lemma record_add_birthday_ok r s dt :
  lenient_date_text s dt ->
  Record_.add_birthday r s
  = Ok (Record_.set_birthday r (Some (Birthday.mk dt))).
Proof.
  intros H. apply strptime_date_lenient, Birthday_init_ok in H.
  unfold Record_.add_birthday. now rewrite H.
Qed.

Lemma record_add_birthday_invalid r s :
  ~ (exists dt, lenient_date_text s dt) ->
  Record_.add_birthday r s
  = Raise (ValueError (lit "Invalid date format. Use DD.MM.YYYY")).
Proof.
  intros H. unfold Record_.add_birthday.
  destruct (Birthday_init_total s) as [[dt Hdt]| ->]; [|reflexivity].
  exfalso. apply H. exists dt.
  now apply strptime_date_lenient, Birthday_init_ok.
Qed.

Lemma Record_init_ok name :
  name <> [] -> Record_.__init__ name = Ok (Record_.mk (Name.mk name) [] None).
Proof. destruct name; [contradiction | reflexivity]. Qed.

Lemma already_has_spec phones phone :
  already_has phones phone = true
  <-> In phone (map Phone.value phones).
Proof.
  induction phones as [|p phones IH]; simpl.
  - split; [discriminate | contradiction].
  - destruct (decide (Phone.value p = phone)) as [E|E].
    + split; auto.
    + rewrite IH. split; [auto | intros [H|H]; [contradiction | exact H]].
Qed.

Lemma add_contact_finish_total book key record phone message :
  exists msg book',
    add_contact_finish book key record phone message = (Ok msg, book').
Proof.
  unfold add_contact_finish.
  destruct (Record_.add_phone record phone) as [r'|e] eqn:E; [eauto|].
  apply add_phone_raises_ValueError in E as ->. eauto.
Qed.

End Handlers.

(** X15: [delete_contact] never raises.  With one argument the name is not
    in the book afterwards and every other contact is as before, and the
    message says whether the name was there; with no argument or more than
    one, the book is unchanged and the message asks for the name. *)
Theorem delete_contact_removes_the_name
    (book : AddressBook.t) (args : list str) :
  NoDup (dict.keys book) ->
  exists msg book',
    delete_contact args book = (Ok msg, book')
    /\ match args with
       | [] => msg = lit "Please enter the name." /\ book' = book
       | [name] =>
           AddressBook.find book' name = None
           /\ (forall k, k <> name ->
                 AddressBook.find book' k = AddressBook.find book k)
           /\ msg = (if dict.contains book name
                     then name ++ lit " successfully deleted"
                     else lit "There are no " ++ name
                          ++ lit " in your contacts")
       | _ => msg = lit "Give me only name." /\ book' = book
       end.
Proof.
  intros Hnd. unfold delete_contact, input_error, delete_contact_body.
  destruct args as [|name [|x args]]; simpl.
  - eauto.
  - destruct (dict.contains book name) eqn:E.
    + destruct (delete_ok book name Hnd) as (book' & Hd & _ & Hf & Ho & _).
      rewrite Hd. exists (name ++ lit " successfully deleted"), book'. auto.
    + eexists _, book. split; [reflexivity|].
      split; [|split; [auto | reflexivity]].
      now apply dict_get_None, dict_contains_false.
  - eauto.
Qed.

Lemma delete_contact_removes_the_name_witness :
  exists msg book',
    delete_contact [lit "Ann"] book_new_year = (Ok msg, book')
    /\ AddressBook.find book' (lit "Ann") = None
    /\ (forall k, k <> lit "Ann" ->
          AddressBook.find book' k = AddressBook.find book_new_year k)
    /\ msg = (if dict.contains book_new_year (lit "Ann")
              then lit "Ann" ++ lit " successfully deleted"
              else lit "There are no " ++ lit "Ann"
                   ++ lit " in your contacts").
Proof.
  apply (delete_contact_removes_the_name book_new_year [lit "Ann"]).
  exact NoDup_keys_book_new_year.
Defined.

(** X16: [add_contact] with a name that is not in the book.  With a valid
    phone the contact is added at the end of the book with that one phone;
    with an invalid phone the handler reports the phone error, but the book
    has already received the new contact, without any phone. *)
Theorem add_contact_of_new_name
    (book : AddressBook.t) (name phone : str) (rest : list str) :
  AddressBook.find book name = None -> name <> [] ->
  (ten_digits phone ->
   add_contact (name :: phone :: rest) book
   = (Ok (lit "Contact added."),
      book ++ [(name, Record_.mk (Name.mk name) [Phone.mk phone] None)]))
  /\ (~ ten_digits phone ->
      add_contact (name :: phone :: rest) book
      = (Ok (lit "Phone number must be 10 digits"),
         book ++ [(name, Record_.mk (Name.mk name) [] None)])).
Proof.
  intros Hfind Hname.
  assert (Hset : forall (r : Record_.t), dict.setitem book name r
                                         = book ++ [(name, r)]).
  { intros r. unfold AddressBook.find in Hfind. clear Hname.
    induction book as [|[k v] b IH]; simpl in *; [reflexivity|].
    destruct (decide (k = name)); [discriminate|]. f_equal. now apply IH. }
  assert (Hset2 : forall (r r' : Record_.t),
             dict.setitem (book ++ [(name, r)]) name r'
             = book ++ [(name, r')]).
  { intros r r'. unfold AddressBook.find in Hfind. clear Hname Hset.
    induction book as [|[k v] b IH]; simpl in *.
    - now rewrite decide_True.
    - destruct (decide (k = name)); [discriminate|]. f_equal. now apply IH. }
  unfold add_contact, input_error, add_contact_body. simpl.
  rewrite Hfind, (Record_init_ok name Hname).
  unfold add_contact_finish, AddressBook.add_record. simpl.
  rewrite Hset. split; intros Hphone.
  - rewrite (add_phone_valid _ _ Hphone). simpl. now rewrite Hset2.
  - now rewrite (add_phone_invalid _ _ Hphone).
Qed.

Lemma add_contact_of_new_name_witness :
  add_contact [lit "Eve"; lit "12345"] book_new_year
  = (Ok (lit "Phone number must be 10 digits"),
     book_new_year
     ++ [(lit "Eve", Record_.mk (Name.mk (lit "Eve")) [] None)]).
Proof.
  apply (add_contact_of_new_name book_new_year (lit "Eve") (lit "12345") []).
  - reflexivity.
  - discriminate.
  - intros [H _]. vm_compute in H. discriminate.
Defined.

(** X17: [add_contact] with a name that is in the book.  A number the
    contact already has is refused, a new valid number is appended to the
    contact's phones (in its place in the book), and an invalid number is
    reported; in the first and the last case the book is unchanged. *)
Theorem add_contact_of_known_name
    (book : AddressBook.t) (name phone : str) (rest : list str)
    (record : Record_.t) :
  AddressBook.find book name = Some record ->
  (In phone (map Phone.value (Record_.phones record)) ->
   add_contact (name :: phone :: rest) book
   = (Ok (name ++ lit " already has this phone number."), book))
  /\ (~ In phone (map Phone.value (Record_.phones record)) ->
      ten_digits phone ->
      add_contact (name :: phone :: rest) book
      = (Ok (lit "Contact updated."),
         dict.setitem book name
           (Record_.set_phones record
              (Record_.phones record ++ [Phone.mk phone]))))
  /\ (~ In phone (map Phone.value (Record_.phones record)) ->
      ~ ten_digits phone ->
      add_contact (name :: phone :: rest) book
      = (Ok (lit "Phone number must be 10 digits"), book)).
Proof.
  intros Hfind.
  unfold add_contact, input_error, add_contact_body. simpl. rewrite Hfind.
  split; [|split].
  - intros Hin. apply already_has_spec in Hin. now rewrite Hin.
  - intros Hin Hphone.
    destruct (already_has (Record_.phones record) phone) eqn:E;
      [apply already_has_spec in E; contradiction|].
    unfold add_contact_finish. now rewrite (add_phone_valid _ _ Hphone).
  - intros Hin Hphone.
    destruct (already_has (Record_.phones record) phone) eqn:E;
      [apply already_has_spec in E; contradiction|].
    unfold add_contact_finish. now rewrite (add_phone_invalid _ _ Hphone).
Qed.

Lemma add_contact_of_known_name_witness :
  add_contact [lit "Ann"; lit "1111111111"]
    (AddressBook.add_record []
       (sample_record (lit "Ann") [lit "1111111111"] None))
  = (Ok (lit "Ann" ++ lit " already has this phone number."),
     AddressBook.add_record []
       (sample_record (lit "Ann") [lit "1111111111"] None)).
Proof.
  apply (add_contact_of_known_name
           (AddressBook.add_record []
              (sample_record (lit "Ann") [lit "1111111111"] None))
           (lit "Ann") (lit "1111111111") []
           (sample_record (lit "Ann") [lit "1111111111"] None)).
  - reflexivity.
  - now left.
Defined.

Local Arguments add_contact_finish : simpl never.

Section NeverRaise.

Variables (args : list str) (book : AddressBook.t).

Lemma add_contact_total :
  exists msg book', add_contact args book = (Ok msg, book').
Proof.
  unfold add_contact, input_error, add_contact_body.
  destruct args as [|name [|phone rest]]; simpl; [eauto | eauto|].
  destruct (AddressBook.find book name) as [record|].
  - destruct (already_has _ phone); [eauto|].
    match goal with
    | |- context [add_contact_finish ?b ?k ?r ?p ?m] =>
        destruct (add_contact_finish_total b k r p m) as (msg & book' & ->)
    end. eauto.
  - destruct name as [|c name]; simpl; [eauto|].
    match goal with
    | |- context [add_contact_finish ?b ?k ?r ?p ?m] =>
        destruct (add_contact_finish_total b k r p m) as (msg & book' & ->)
    end. eauto.
Qed.

Lemma delete_contact_total :
  exists msg book', delete_contact args book = (Ok msg, book').
Proof.
  unfold delete_contact, input_error, delete_contact_body.
  destruct args as [|name [|x rest]]; simpl; [eauto| |eauto].
  destruct (dict.contains book name); [|eauto].
  destruct (AddressBook_delete_total book name) as [book' ->]. eauto.
Qed.

Lemma add_birthday_total :
  exists msg book', add_birthday args book = (Ok msg, book').
Proof.
  unfold add_birthday, input_error, add_birthday_body.
  destruct args as [|name [|birthday [|x rest]]]; simpl;
    [eauto|eauto| |eauto].
  destruct (AddressBook.find book name) as [record|]; [|eauto].
  destruct (Record_.add_birthday record birthday) as [r'|e] eqn:E; [eauto|].
  apply record_add_birthday_raises_ValueError in E as ->. eauto.
Qed.

Lemma show_birthday_total libc :
  exists msg, show_birthday libc args book = (Ok msg, book).
Proof.
  unfold show_birthday, input_error, show_birthday_body.
  destruct args as [|name rest]; simpl; [eauto|].
  destruct (AddressBook.find book name) as [record|]; [|eauto].
  destruct (Record_.birthday record); eauto.
Qed.

Lemma show_phone_total :
  exists r, show_phone args book = (Ok r, book).
Proof.
  unfold show_phone, input_error_on, show_phone_body.
  destruct args as [|name rest]; [eauto|].
  destruct (dict.contains book name); eauto.
Qed.

End NeverRaise.

(** X18: the handlers wrapped by [input_error] whose bodies raise nothing
    but ValueError and IndexError -- [add_contact], [delete_contact],
    [add_birthday], [show_birthday] and [show_phone] -- never raise: for all
    arguments and every book they return a message (or a record), and the
    two that only show something leave the book alone. *)
Theorem wrapped_handlers_never_raise
    (libc : libc_year) (args : list str) (book : AddressBook.t) :
  (exists msg book', add_contact args book = (Ok msg, book'))
  /\ (exists msg book', delete_contact args book = (Ok msg, book'))
  /\ (exists msg book', add_birthday args book = (Ok msg, book'))
  /\ (exists msg, show_birthday libc args book = (Ok msg, book))
  /\ (exists r, show_phone args book = (Ok r, book)).
Proof.
  split; [apply add_contact_total|].
  split; [apply delete_contact_total|].
  split; [apply add_birthday_total|].
  split; [apply show_birthday_total | apply show_phone_total].
Qed.

Section Showing.

Local Arguments lit : simpl never.
Local Arguments datetime.strftime : simpl never.

Lemma find_keyed_by_name (book : AddressBook.t) name r :
  keyed_by_name book -> AddressBook.find book name = Some r ->
  record_name r = name.
Proof.
  intros Hk Hf. apply dict_get_Some_In in Hf.
  unfold keyed_by_name in Hk. rewrite Forall_forall in Hk.
  apply (Hk (name, r)). now apply list_elem_of_In.
Qed.


End Showing.

Local Arguments datetime.strftime : simpl never.
Local Arguments lit : simpl never.

(** X19: [add_birthday] followed by [show_birthday].  For a contact of the
    book and a text that [Birthday] accepts, the handler answers
    "Birthday added.", stores the date with that contact only, and
    [show_birthday] then prints the date with a two-digit day and month
    (whatever the width they were typed with); for a text [Birthday]
    rejects, the handler answers with the format message and the book is
    unchanged. *)
Theorem add_birthday_then_show_birthday
    (libc : libc_year) (book : AddressBook.t) (name s : str)
    (record : Record_.t) :
  AddressBook.find book name = Some record ->
  (forall dt, lenient_date_text s dt ->
     exists book',
       add_birthday [name; s] book = (Ok (lit "Birthday added."), book')
       /\ AddressBook.find book' name
          = Some (Record_.set_birthday record (Some (Birthday.mk dt)))
       /\ (forall k, k <> name ->
             AddressBook.find book' k = AddressBook.find book k)
       /\ show_birthday libc [name] book'
          = (Ok (lit "Birthday for " ++ name ++ lit " is "
                 ++ datetime.pad2 (datetime.day dt) ++ lit "."
                 ++ datetime.pad2 (datetime.month dt) ++ lit "."
                 ++ datetime.format_Y libc (datetime.year dt) ++ lit "."),
             book'))
  /\ (~ (exists dt, lenient_date_text s dt) ->
      add_birthday [name; s] book
      = (Ok (lit "Invalid date format. Use DD.MM.YYYY"), book)).
Proof.
  intros Hfind. split.
  - intros dt Hdt.
    exists (dict.setitem book name
              (Record_.set_birthday record (Some (Birthday.mk dt)))).
    split; [|split; [|split]].
    + unfold add_birthday, input_error, add_birthday_body. simpl.
      rewrite Hfind. now rewrite (record_add_birthday_ok record s dt Hdt).
    + apply dict_get_setitem_same.
    + intros k Hk. now apply dict_get_setitem_other.
    + unfold show_birthday, input_error, show_birthday_body.
      cbn [length Nat.ltb Nat.leb].
      unfold AddressBook.find. rewrite dict_get_setitem_same.
      cbn [Record_.birthday Record_.set_birthday].
      unfold Birthday.__str__. rewrite strftime_d_m_Y.
      cbn [Birthday.value]. now rewrite <- !app_assoc.
  - intros Hbad. unfold add_birthday, input_error, add_birthday_body. simpl.
    rewrite Hfind. now rewrite (record_add_birthday_invalid record s Hbad).
Qed.

Lemma add_birthday_then_show_birthday_witness :
  exists book',
    add_birthday [lit "Ann"; lit "3.1.2000"] book_new_year
    = (Ok (lit "Birthday added."), book')
    /\ show_birthday YearPlain [lit "Ann"] book'
       = (Ok (lit "Birthday for Ann is 03.01.2000."), book').
Proof.
  destruct (proj1 (add_birthday_then_show_birthday
                     YearPlain book_new_year (lit "Ann") (lit "3.1.2000")
                     (sample_record (lit "Ann") []
                                    (Some (datetime.mk 1990 6 12)))
                     eq_refl)
                  (datetime.mk 2000 1 3))
    as (book' & Hadd & _ & _ & Hshow).
  - apply strptime_date_lenient. reflexivity.
  - exists book'. split; [exact Hadd | exact Hshow].
Defined.

(** X20: in a book that holds every record under its own name,
    [show_phone] answers with the record stored under the name asked for,
    which prints as "Contact name: <that name>, phones: <its phones, comma
    separated>"; for a name that is not in the book it answers with a
    message; the book is never changed. *)
Theorem show_phone_shows_the_contact
    (book : AddressBook.t) (name : str) (rest : list str) :
  keyed_by_name book ->
  match AddressBook.find book name with
  | Some r =>
      show_phone (name :: rest) book = (Ok (Found (Some r)), book)
      /\ reply_str (Found (Some r))
         = lit "Contact name: " ++ name ++ lit ", phones: "
           ++ join (lit ", ") (map Phone.value (Record_.phones r))
  | None =>
      show_phone (name :: rest) book
      = (Ok (Text (lit "There are no " ++ name ++ lit " in your contacts")),
         book)
  end.
Proof.
  intros Hk. unfold AddressBook.find.
  destruct (dict.get book name) as [r|] eqn:E.
  - split.
    + unfold show_phone, input_error_on, show_phone_body, dict.contains,
        AddressBook.find.
      now rewrite E.
    + cbn [reply_str]. unfold Record_.__str__, Name.__str__.
      change (Name.value (Record_.name r)) with (record_name r).
      now rewrite (find_keyed_by_name book name r Hk E).
  - unfold show_phone, input_error_on, show_phone_body, dict.contains.
    now rewrite E.
Qed.

Lemma show_phone_shows_the_contact_witness :
  show_phone [lit "Ann"] book_new_year
  = (Ok (Found (Some (sample_record (lit "Ann") []
                                    (Some (datetime.mk 1990 6 12))))),
     book_new_year).
Proof.
  apply (show_phone_shows_the_contact book_new_year (lit "Ann") []).
  repeat constructor.
Defined.


(* ===================================================================== *)
(** * 23. [parse_input] and the loop of [main]                            *)
(* ===================================================================== *)

Section Splitting.

Implicit Types (s word w : str).

Local Arguments isspace_char : simpl never.

Lemma split_loop_words s : forall word,
  Forall (fun c => isspace_char c = false) word ->
  Forall is_word (split_loop s word).
Proof.
  induction s as [|c s IH]; intros word Hword; simpl.
  - destruct word as [|x word]; [constructor|].
    constructor; [split; [discriminate | exact Hword] | constructor].
  - destruct (isspace_char c) eqn:Ec.
    + destruct word as [|x word]; [apply IH; constructor|].
      constructor; [split; [discriminate | exact Hword]|].
      apply IH. constructor.
    + apply IH. apply Forall_app. split; [exact Hword|].
      repeat constructor. exact Ec.
Qed.

(** Nothing but white space is dropped. *)
Lemma split_loop_concat s : forall word,
  concat (split_loop s word)
  = word ++ filter (fun c => isspace_char c = false) s.
Proof.
  unfold str in *. induction s as [|c s IH]; intros word.
  - destruct word; simpl; now rewrite ?app_nil_r.
  - cbn [split_loop]. destruct (isspace_char c) eqn:Ec.
    + rewrite filter_cons_False by congruence.
      destruct word as [|x word].
      * apply IH.
      * cbn [concat]. rewrite IH. reflexivity.
    + rewrite filter_cons_True by exact Ec.
      rewrite IH, <- app_assoc. reflexivity.
Qed.

Lemma split_blank s :
  Forall (fun c => isspace_char c = true) s -> split s = [].
Proof.
  unfold split. induction 1 as [|c s Hc _ IH]; simpl; [reflexivity|].
  now rewrite Hc.
Qed.

Lemma split_nil_blank s :
  split s = [] -> Forall (fun c => isspace_char c = true) s.
Proof.
  intros H. assert (Hc := split_loop_concat s []).
  fold (split s) in Hc. rewrite H in Hc. simpl in Hc.
  apply Forall_forall. intros c Hin.
  destruct (isspace_char c) eqn:Ec; [reflexivity|].
  assert (Hf : c ∈ filter (fun c => isspace_char c = false) s)
    by now apply list_elem_of_filter.
  rewrite <- Hc in Hf. now apply not_elem_of_nil in Hf.
Qed.

Lemma lstrip_word w :
  (forall c l, w = c :: l -> isspace_char c = false) -> lstrip w = w.
Proof.
  destruct w as [|c l]; [reflexivity|]. intros H. simpl.
  now rewrite (H c l eq_refl).
Qed.

(** [strip] does nothing to a word. *)
Lemma strip_word w : is_word w -> strip w = w.
Proof.
  intros [_ Hw]. unfold strip.
  rewrite (lstrip_word w).
  2:{ intros c l ->. now apply Forall_cons in Hw as [Hc _]. }
  rewrite (lstrip_word (rev w)); [apply rev_involutive|].
  intros c l Hrev.
  assert (Hin : In c (rev w)) by (rewrite Hrev; now left).
  apply in_rev in Hin. rewrite Forall_forall in Hw.
  apply Hw. now apply list_elem_of_In.
Qed.

End Splitting.



Section BookInvariant.

Implicit Types (book : AddressBook.t) (r record : Record_.t).

Lemma setitem_Forall_values (P : Record_.t -> Prop) book k r :
  Forall P (dict.values book) -> P r ->
  Forall P (dict.values (dict.setitem book k r)).
Proof.
  unfold dict.values. induction book as [|[k' v'] book IH]; simpl; intros H Hr.
  - repeat constructor. exact Hr.
  - apply Forall_cons in H as [Hv H].
    destruct (decide (k' = k)); simpl; constructor; auto.
Qed.

Lemma book_ok_nil : book_ok [].
Proof. repeat split; constructor. Qed.

Lemma book_ok_setitem book r :
  book_ok book -> record_ok r -> book_ok (dict.setitem book (record_name r) r).
Proof.
  intros (Hnd & Hk & Hv) Hr. repeat split.
  - now apply dict_setitem_NoDup.
  - now apply keyed_by_name_setitem.
  - now apply setitem_Forall_values.
Qed.

Lemma book_ok_find book name r :
  book_ok book -> AddressBook.find book name = Some r ->
  record_ok r /\ record_name r = name.
Proof.
  intros (_ & Hk & Hv) Hf. split; [|now apply (find_keyed_by_name book)].
  apply dict_get_Some_In in Hf. rewrite Forall_forall in Hv. apply Hv.
  apply list_elem_of_In. unfold dict.values.
  change r with (snd (name, r)). now apply in_map.
Qed.

Lemma book_ok_delete book name book' :
  book_ok book -> AddressBook.delete book name = Ok book' -> book_ok book'.
Proof.
  intros (Hnd & Hk & Hv) H.
  destruct (delete_ok book name Hnd) as (b & E & Hkeys & _ & _ & Hin).
  rewrite E in H. injection H as ->. repeat split.
  - rewrite Hkeys. now apply NoDup_filter.
  - unfold keyed_by_name in *. rewrite Forall_forall in *. intros kr Hkr.
    apply Hk. apply list_elem_of_In. apply Hin. now apply list_elem_of_In.
  - rewrite Forall_forall in *. intros r Hr. apply Hv.
    apply list_elem_of_In in Hr. apply list_elem_of_In.
    unfold dict.values in *. apply in_map_iff in Hr as (kr & <- & Hkr).
    apply in_map. now apply Hin.
Qed.

Lemma record_ok_add_phone r phone r' :
  record_ok r -> ~ In phone (map Phone.value (Record_.phones r)) ->
  Record_.add_phone r phone = Ok r' ->
  record_ok r' /\ record_name r' = record_name r.
Proof.
  intros (Hn & Hp & Hnd & Hb) Hnew H.
  assert (Hp' := add_phone_keeps_ten_digits r phone r' Hp H).
  apply add_phone_ok_inv in H as [_ ->].
  split; [|reflexivity].
  split; [exact Hn|]. split; [exact Hp'|]. split; [|exact Hb].
  cbn [Record_.phones Record_.set_phones]. rewrite map_app. apply NoDup_app.
  split; [exact Hnd|]. split.
  - intros x Hx Hx'. apply list_elem_of_In in Hx, Hx'.
    destruct Hx' as [<-|[]]. contradiction.
  - apply NoDup_singleton.
Qed.

Lemma record_ok_add_birthday r s r' :
  record_ok r -> Record_.add_birthday r s = Ok r' ->
  record_ok r' /\ record_name r' = record_name r.
Proof.
  intros (Hn & Hp & Hnd & Hb) H. unfold Record_.add_birthday in H.
  destruct (Birthday.__init__ s) as [[dt]|e] eqn:E; simpl in H; [|discriminate].
  injection H as <-. split; [|reflexivity].
  split; [exact Hn|]. split; [exact Hp|]. split; [exact Hnd|].
  cbn [Record_.birthday Record_.set_birthday]. intros b [= <-].
  apply Birthday_init_ok, strptime_date_lenient in E
    as (D & M & Y & _ & _ & _ & _ & Hreal & ->).
  exact Hreal.
Qed.

Lemma add_contact_finish_cases book key record phone message :
  (exists record', Record_.add_phone record phone = Ok record'
     /\ add_contact_finish book key record phone message
        = (Ok message, dict.setitem book key record'))
  \/ add_contact_finish book key record phone message
     = (Ok (lit "Phone number must be 10 digits"), book).
Proof.
  unfold add_contact_finish.
  destruct (Record_.add_phone record phone) as [r'|e] eqn:E; [left; eauto|].
  apply add_phone_raises_ValueError in E as ->. now right.
Qed.

Lemma add_contact_book_ok args book :
  book_ok book -> book_ok (snd (add_contact args book)).
Proof.
  intros Hok. unfold add_contact, input_error, add_contact_body.
  destruct args as [|name [|phone rest]]; simpl; [exact Hok | exact Hok|].
  destruct (AddressBook.find book name) as [record|] eqn:Ef.
  - destruct (book_ok_find book name record Hok Ef) as [Hr Hname].
    destruct (already_has _ phone) eqn:Ea; [exact Hok|].
    assert (Hnew : ~ In phone (map Phone.value (Record_.phones record))).
    { intros Hin. apply already_has_spec in Hin. congruence. }
    match goal with
    | |- context [add_contact_finish ?b ?k ?r ?p ?m] =>
        destruct (add_contact_finish_cases b k r p m)
          as [(r' & Hadd & ->)| ->]
    end; [|exact Hok].
    destruct (record_ok_add_phone record phone r' Hr Hnew Hadd) as [Hr' Hn'].
    cbn [snd]. rewrite <- Hname, <- Hn'. now apply book_ok_setitem.
  - destruct name as [|c name]; [exact Hok|]. simpl.
    set (r0 := Record_.mk (Name.mk (c :: name)) [] None).
    assert (Hr0 : record_ok r0).
    { repeat split; try constructor; discriminate. }
    assert (Hok0 : book_ok (AddressBook.add_record book r0))
      by now apply book_ok_setitem.
    match goal with
    | |- context [add_contact_finish ?b ?k ?r ?p ?m] =>
        destruct (add_contact_finish_cases b k r p m)
          as [(r' & Hadd & ->)| ->]
    end; [|exact Hok0].
    destruct (record_ok_add_phone r0 phone r' Hr0 ltac:(tauto) Hadd)
      as [Hr' Hn'].
    cbn [snd]. change (c :: name) with (record_name r0). rewrite <- Hn'.
    now apply book_ok_setitem.
Qed.

Lemma delete_contact_book_ok args book :
  book_ok book -> book_ok (snd (delete_contact args book)).
Proof.
  intros Hok. unfold delete_contact, input_error, delete_contact_body.
  destruct args as [|name [|x rest]]; simpl; [exact Hok| |exact Hok].
  destruct (dict.contains book name); [|exact Hok].
  destruct (AddressBook.delete book name) as [book'|e] eqn:E.
  - exact (book_ok_delete book name book' Hok E).
  - destruct e; exact Hok.
Qed.

Lemma add_birthday_book_ok args book :
  book_ok book -> book_ok (snd (add_birthday args book)).
Proof.
  intros Hok. unfold add_birthday, input_error, add_birthday_body.
  destruct args as [|name [|birthday [|x rest]]]; simpl;
    [exact Hok|exact Hok| |exact Hok].
  destruct (AddressBook.find book name) as [record|] eqn:Ef; [|exact Hok].
  destruct (book_ok_find book name record Hok Ef) as [Hr Hname].
  destruct (Record_.add_birthday record birthday) as [r'|e] eqn:E.
  - destruct (record_ok_add_birthday record birthday r' Hr E) as [Hr' Hn'].
    cbn [snd]. rewrite <- Hname, <- Hn'. now apply book_ok_setitem.
  - destruct e; exact Hok.
Qed.

End BookInvariant.

Section ChangeCommand.

Lemma change_contact_loop_cases book name record phones old new :
  (In old (map Phone.value phones)
   /\ change_contact_loop book name record phones old new
      = (Raise no_remove_phone_attribute, book))
  \/ (~ In old (map Phone.value phones)
      /\ change_contact_loop book name record phones old new
         = (Ok (lit "The contact " ++ name
                ++ lit " does not have the phone number " ++ old ++ lit "."),
            book)).
Proof.
  induction phones as [|p phones IH]; cbn [change_contact_loop map].
  - right. split; [intros [] | reflexivity].
  - destruct (decide (Phone.value p = old)) as [E|E].
    + left. split; [now left | reflexivity].
    + destruct IH as [[Hin H]|[Hnin H]]; [left | right];
        (split; [|exact H]); [now right | intros [?|?]; contradiction].
Qed.

(** [change_contact] never changes the book, and raises exactly when it
    finds the old number. *)
Lemma change_contact_cases args book :
  snd (change_contact args book) = book
  /\ forall e,
       fst (change_contact args book) = Raise e
       <-> exists name old new record,
             args = [name; old; new]
             /\ AddressBook.find book name = Some record
             /\ In old (map Phone.value (Record_.phones record))
             /\ e = no_remove_phone_attribute.
Proof.
  unfold change_contact, input_error, change_contact_body.
  destruct args as [|name [|old [|new [|x rest]]]];
    cbn [length Nat.ltb Nat.leb fst snd];
    try (split; [reflexivity|];
         intros e; split; [discriminate | intros (? & ? & ? & ? & [=] & _)]).
  destruct (AddressBook.find book name) as [record|] eqn:Ef.
  - destruct (change_contact_loop_cases book name record
                (Record_.phones record) old new) as [[Hin ->]|[Hnin ->]];
      cbn [fst snd no_remove_phone_attribute]; (split; [reflexivity|]);
      intros e; split.
    + intros [= <-]. exists name, old, new, record. auto.
    + intros (? & ? & ? & ? & _ & _ & _ & ->). reflexivity.
    + discriminate.
    + intros (n & o & w & r & [= <- <- <-] & Hf & Hin & _).
      rewrite Ef in Hf. injection Hf as <-. contradiction.
  - cbn [fst snd]. split; [reflexivity|]. intros e. split; [discriminate|].
    intros (n & o & w & r & [= <- <- <-] & Hf & _). congruence.
Qed.

End ChangeCommand.

(** Two different commands of [main] are never the same text. *)
Ltac other_command :=
  subst;
  match goal with
  | H : lit _ = lit _ |- _ => vm_compute in H; discriminate H
  | H : lit _ = lit _ \/ lit _ = lit _ |- _ =>
      destruct H as [H|H]; vm_compute in H; discriminate H
  | H : ?x <> ?x |- _ => now elim H
  end.

Section MainLoop.

Variables (libc : libc_year) (today : datetime.date).

Lemma show_upcoming_birthdays_raises book e :
  show_upcoming_birthdays libc today book = Raise e
  <-> AddressBook.get_upcoming_birthdays libc today book 7 = Raise e.
Proof.
  unfold show_upcoming_birthdays.
  destruct (AddressBook.get_upcoming_birthdays libc today book 7) as [l|e'];
    cbn [bind]; [|split; intros [= <-]; reflexivity].
  destruct l; split; discriminate.
Qed.

(** Which commands let an exception through. *)
Lemma dispatch_raises command args book e :
  dispatch libc today command args book = Raise e
  <-> (command = lit "change" /\ fst (change_contact args book) = Raise e)
      \/ (command = lit "birthdays"
          /\ AddressBook.get_upcoming_birthdays libc today book 7 = Raise e).
Proof.
  unfold dispatch.
  repeat (destruct (decide _) as [?|?]);
    try (split; [discriminate | intros [[? _]|[? _]]; other_command]).
  - destruct (add_contact_total args book) as (msg & book' & ->).
    split; [discriminate | intros [[? _]|[? _]]; other_command].
  - destruct (delete_contact_total args book) as (msg & book' & ->).
    split; [discriminate | intros [[? _]|[? _]]; other_command].
  - unfold print_handler.
    destruct (change_contact args book) as [[msg|e'] book']; cbn [fst]; split.
    + discriminate.
    + intros [[_ ?]|[? _]]; [discriminate | other_command].
    + intros [= <-]. left. split; [assumption | reflexivity].
    + intros [[_ H]|[? _]]; [injection H as <-; reflexivity | other_command].
  - destruct (show_phone_total args book) as (r & ->).
    split; [discriminate | intros [[? _]|[? _]]; other_command].
  - destruct (add_birthday_total args book) as (msg & book' & ->).
    split; [discriminate | intros [[? _]|[? _]]; other_command].
  - destruct (show_birthday_total args book libc) as (msg & ->).
    split; [discriminate | intros [[? _]|[? _]]; other_command].
  - destruct (show_upcoming_birthdays libc today book) as [text|e'] eqn:E;
      cbn [bind]; split.
    + discriminate.
    + intros [[? _]|[_ H]]; [other_command|].
      apply show_upcoming_birthdays_raises in H. congruence.
    + intros [= <-]. right. split; [assumption|].
      now apply show_upcoming_birthdays_raises.
    + intros [[? _]|[_ H]]; [other_command|].
      apply show_upcoming_birthdays_raises in H. congruence.
Qed.

(** The book after a command: the one before, unless the command is one of
    the three that change it. *)
Lemma dispatch_book command args book out :
  dispatch libc today command args book = Ok out ->
  outcome_book out = book
  \/ (command = lit "add" /\ outcome_book out = snd (add_contact args book))
  \/ (command = lit "delete"
      /\ outcome_book out = snd (delete_contact args book))
  \/ (command = lit "add-birthday"
      /\ outcome_book out = snd (add_birthday args book)).
Proof.
  unfold dispatch.
  repeat (destruct (decide _) as [?|?]);
    try (intros [= <-]; left; reflexivity).
  - destruct (add_contact args book) as [[msg|e'] book'];
      intros [= <-]. right. left. now split.
  - destruct (delete_contact args book) as [[msg|e'] book'];
      intros [= <-]. right. right. left. now split.
  - destruct (change_contact_cases args book) as [Hb _].
    destruct (change_contact args book) as [[msg|e'] book'];
      intros [= <-]. left. exact Hb.
  - destruct (show_phone_total args book) as (r & ->).
    intros [= <-]. now left.
  - destruct (add_birthday args book) as [[msg|e'] book'];
      intros [= <-]. right. right. right. now split.
  - destruct (show_birthday_total args book libc) as (msg & ->).
    intros [= <-]. now left.
  - destruct (show_upcoming_birthdays libc today book); cbn [bind];
      intros [= <-]. now left.
Qed.

Lemma dispatch_book_ok command args book out :
  book_ok book -> dispatch libc today command args book = Ok out ->
  book_ok (outcome_book out).
Proof.
  intros Hok H.
  destruct (dispatch_book command args book out H)
    as [-> | [[_ ->] | [[_ ->] | [_ ->]]]].
  - exact Hok.
  - now apply add_contact_book_ok.
  - now apply delete_contact_book_ok.
  - now apply add_birthday_book_ok.
Qed.

Variable lower : str -> str.

Lemma main_step_split user_input book :
  (split user_input = []
   /\ main_step libc today lower user_input book
      = Raise (ValueError
                 (lit "not enough values to unpack (expected at least 1, got 0)")))
  \/ (exists cmd args,
        split user_input = cmd :: args
        /\ main_step libc today lower user_input book
           = dispatch libc today (lower cmd) args book).
Proof.
  unfold main_step, parse_input.
  assert (Hwords := split_loop_words user_input [] ltac:(constructor)).
  fold (split user_input) in Hwords.
  destruct (split user_input) as [|cmd args]; [left; split; reflexivity|].
  apply Forall_cons in Hwords as [Hcmd _].
  right. exists cmd, args. rewrite (strip_word cmd Hcmd). now split.
Qed.

Lemma main_step_book_ok user_input book out :
  book_ok book -> main_step libc today lower user_input book = Ok out ->
  book_ok (outcome_book out).
Proof.
  intros Hok H.
  destruct (main_step_split user_input book)
    as [[_ E]|(cmd & args & _ & E)]; rewrite E in H; [discriminate|].
  exact (dispatch_book_ok _ _ _ _ Hok H).
Qed.

End MainLoop.

(** X23: the only ways one turn of the loop of [main] ends the program with
    an exception.  The line is blank, and unpacking the result of
    [parse_input] fails; or the command is [change] with exactly a name, an
    old and a new number, where the contact exists and has the old number
    (the AttributeError of [record.phones.remove_phone]); or the command is
    [birthdays] and [get_upcoming_birthdays] raises.  Every other line is
    answered. *)
Theorem main_step_raises_exactly (libc : libc_year) (today : datetime.date)
    (lower : str -> str) (user_input : str) (book : AddressBook.t) (e : exn) :
  main_step libc today lower user_input book = Raise e
  <-> (Forall (fun c => isspace_char c = true) user_input
       /\ e = ValueError
                (lit "not enough values to unpack (expected at least 1, got 0)"))
      \/ (exists cmd args,
            split user_input = cmd :: args
            /\ ((lower cmd = lit "change"
                 /\ exists name old new record,
                      args = [name; old; new]
                      /\ AddressBook.find book name = Some record
                      /\ In old (map Phone.value (Record_.phones record))
                      /\ e = no_remove_phone_attribute)
                \/ (lower cmd = lit "birthdays"
                    /\ AddressBook.get_upcoming_birthdays libc today book 7
                       = Raise e))).
Proof.
  destruct (main_step_split libc today lower user_input book)
    as [[Es ->]|(cmd & args & Es & ->)].
  - split.
    + intros [= <-]. left. split; [now apply split_nil_blank | reflexivity].
    + intros [[_ ->]|(cmd & args & Es' & _)]; [reflexivity | congruence].
  - rewrite dispatch_raises.
    destruct (change_contact_cases args book) as [_ Hc]. split.
    + intros H. right. exists cmd, args. split; [exact Es|].
      destruct H as [[Hcmd H]|[Hcmd H]]; [left | right];
        (split; [exact Hcmd|]); [now apply Hc | exact H].
    + intros [[Hblank _]|(cmd' & args' & Es' & H)].
      * apply split_blank in Hblank. congruence.
      * rewrite Es in Es'. injection Es' as <- <-.
        destruct H as [[Hcmd H]|[Hcmd H]]; [left | right];
          (split; [exact Hcmd|]); [now apply Hc | exact H].
Qed.

(** X24: only [add], [delete] and [add-birthday] change the book.  When a
    turn of the loop of [main] is answered and the book afterwards (for
    [close] and [exit]: the book that is saved) is not the book before, the
    lower-cased first word of the line is one of these three commands. *)
Theorem only_three_commands_change_the_book
    (libc : libc_year) (today : datetime.date) (lower : str -> str)
    (user_input : str) (book : AddressBook.t) (out : outcome) :
  main_step libc today lower user_input book = Ok out ->
  outcome_book out <> book ->
  exists cmd args,
    split user_input = cmd :: args /\ In (lower cmd) changing_commands.
Proof.
  intros H Hne.
  destruct (main_step_split libc today lower user_input book)
    as [[_ E]|(cmd & args & Es & E)]; rewrite E in H; [discriminate|].
  exists cmd, args. split; [exact Es|].
  unfold changing_commands.
  destruct (dispatch_book libc today _ _ _ _ H)
    as [Hb | [[-> _] | [[-> _] | [-> _]]]];
    [contradiction | cbn [In]; auto ..].
Qed.

Lemma only_three_commands_change_the_book_witness :
  exists cmd args,
    split (lit "ADD Bob 0501234567") = cmd :: args
    /\ In (ascii_lower cmd) changing_commands.
Proof.
  apply (only_three_commands_change_the_book
           YearPlain (datetime.mk 2024 1 1) ascii_lower
           (lit "ADD Bob 0501234567") []
           (Printed (lit "Contact added.")
                    [(lit "Bob", sample_record (lit "Bob") [lit "0501234567"]
                                               None)])).
  - vm_compute. reflexivity.
  - discriminate.
Defined.

(** X25: what the commands keep true of the book.  Starting from a book in
    which the names are pairwise different, every record is stored under
    its own non-empty name, every phone is valid, no record holds a number
    twice and every birthday is a date, a run of [main] on any lines of
    input that does not crash ends (at [close] or [exit], or waiting for
    more input) with a book of which the same is true. *)
Theorem main_keeps_the_book_well_formed
    (libc : libc_year) (today : datetime.date) (lower : str -> str)
    (inputs : list str) (book b : AddressBook.t) :
  book_ok book ->
  session_book (snd (main_loop libc today lower inputs book)) = Some b ->
  book_ok b.
Proof.
  revert book. induction inputs as [|user_input inputs IH]; intros book Hok;
    cbn [main_loop].
  - now intros [= <-].
  - destruct (main_step libc today lower user_input book)
      as [[text book'|saved]|e] eqn:E.
    + destruct (main_loop libc today lower inputs book') as [printed ending]
        eqn:El.
      cbn [snd]. intros H. apply (IH book').
      * exact (main_step_book_ok libc today lower _ _ _ Hok E).
      * now rewrite El.
    + intros [= <-]. exact (main_step_book_ok libc today lower _ _ _ Hok E).
    + discriminate.
Qed.

Lemma main_keeps_the_book_well_formed_witness :
  book_ok [(lit "Bob",
            sample_record (lit "Bob") [lit "0501234567"]
                          (Some (datetime.mk 1990 5 17)))].
Proof.
  apply (main_keeps_the_book_well_formed
           YearPlain (datetime.mk 2024 1 1) ascii_lower
           [lit "add Bob 0501234567"; lit "add Bob 12";
            lit "add-birthday Bob 17.5.1990"; lit "add Ann 0000000000";
            lit "Delete Ann"; lit "EXIT"; lit "add Eve 1111111111"]
           []).
  - apply book_ok_nil.
  - vm_compute. reflexivity.
Defined.

Section Leaving.

Variables (libc : libc_year) (today : datetime.date).

(** Only [close] and [exit] leave the loop, and they save the book as it
    is. *)
Lemma dispatch_leaves command args book saved :
  dispatch libc today command args book = Ok (GoodBye saved)
  <-> (command = lit "close" \/ command = lit "exit") /\ saved = book.
Proof.
  unfold dispatch. destruct (decide _) as [Hc|Hc].
  - split; [intros [= <-]; now split | intros [_ ->]; reflexivity].
  - split; [|intros [? _]; contradiction].
    repeat (destruct (decide _) as [?|?]); try discriminate.
    + destruct (add_contact args book) as [[msg|err] book']; discriminate.
    + destruct (delete_contact args book) as [[msg|err] book']; discriminate.
    + destruct (change_contact args book) as [[msg|err] book']; discriminate.
    + destruct (show_phone args book) as [[r|err] book']; discriminate.
    + destruct (add_birthday args book) as [[msg|err] book']; discriminate.
    + destruct (show_birthday libc args book) as [[msg|err] book'];
        discriminate.
    + destruct (show_upcoming_birthdays libc today book); discriminate.
Qed.

End Leaving.

(** X26: a run of [main] can be followed in parts: the run on the lines
    [l1 ++ l2] is the run on [l1] and, when that one still awaits input,
    the run on [l2] from the book it reached, with the output of both; once
    the run on [l1] has ended, at [close] or [exit] or with an exception,
    the lines [l2] are never read.  The loop is left without an exception
    exactly by a line whose first word is, lower-cased, [close] or [exit],
    and the book that is saved then is the current one. *)
Theorem main_loop_in_parts
    (libc : libc_year) (today : datetime.date) (lower : str -> str)
    (l1 l2 : list str) (book : AddressBook.t) :
  main_loop libc today lower (l1 ++ l2) book
  = match main_loop libc today lower l1 book with
    | (printed, AwaitsInput book') =>
        let '(printed', ending) := main_loop libc today lower l2 book' in
        (printed ++ printed', ending)
    | ended => ended
    end
  /\ (forall user_input saved,
        main_step libc today lower user_input book = Ok (GoodBye saved)
        <-> (exists cmd args,
               split user_input = cmd :: args
               /\ (lower cmd = lit "close" \/ lower cmd = lit "exit"))
            /\ saved = book).
Proof.
  split.
  - revert book. induction l1 as [|user_input l1 IH]; intros book.
    + cbn [app main_loop].
      now destruct (main_loop libc today lower l2 book).
    + cbn [app main_loop].
      destruct (main_step libc today lower user_input book)
        as [[text book'|saved]|e]; [|reflexivity..].
      rewrite IH.
      destruct (main_loop libc today lower l1 book') as [printed ending].
      destruct ending as [saved|e|book'']; [reflexivity..|].
      now destruct (main_loop libc today lower l2 book'').
  - intros user_input saved.
    destruct (main_step_split libc today lower user_input book)
      as [[Es ->]|(cmd & args & Es & ->)].
    + split; [discriminate|]. intros [(cmd & args & Es' & _) _]. congruence.
    + rewrite dispatch_leaves. split.
      * intros [Hc ->]. split; [|reflexivity]. now exists cmd, args.
      * intros [(cmd' & args' & Es' & Hc) ->]. split; [|reflexivity].
        rewrite Es in Es'. now injection Es' as <- <-.
Qed.
